(** * kundenbot-template: ingestion and retrieval pipelines

    A shallow embedding of the TypeScript sources of the repository:

    - [src/app/api/admin/scrape/route.ts]  (admin scrape route, and the
      [scripts/ingest.ts] command line script that follows it in the file),
    - the three versions of the chat route ([part_000]: soft threshold,
      [part_001]: no threshold, [part_002]: hard threshold),
    - the pages that call the routes ([admin/page.tsx],
      [demo/[slug]/page.tsx], [embed/[slug]/page.tsx]).

    JavaScript strings are sequences of UTF-16 code units, sets keep their
    insertion order, [Array.prototype.sort] is stable, a number read from
    JSON is the rational it denotes, and a URL string made by [toString()]
    is the parsed URL it serialises. The body of a request is the JSON
    value that [req.json()] gives, of any type. The external services (store, fetch,
    embedding, vector search, text generation) are oracles that may answer
    differently at every call: they receive the tables and the log of
    everything that happened before. Handlers run in a monad of state,
    exceptions and fuel for the [while] loops. *)

From Stdlib Require Import String Ascii.
From Stdlib Require Import List Bool Arith ZArith NArith QArith Lia Lqa.
From Stdlib Require Import Sorting.Sorted Sorting.Permutation.
Import ListNotations.

Set Implicit Arguments.

(* ================================================================== *)
(** ** JavaScript strings *)
(* ================================================================== *)

Module JsString.

(** A string is its list of UTF-16 code units; [length] is [.length]. *)
Definition jsstring := list N.

(** String literals of the sources, which are all ASCII. *)
Definition lit (s : string) : jsstring :=
  map N_of_ascii (list_ascii_of_string s).

Definition eqb (a b : jsstring) : bool :=
  if list_eq_dec N.eq_dec a b then true else false.

(** [WhiteSpace] and [LineTerminator] of ECMAScript: what [\s] matches and
    what [trim] removes. *)
Definition is_ws (c : N) : bool :=
  ((9 <=? c) && (c <=? 13) || (c =? 32) || (c =? 160) || (c =? 5760)
   || (8192 <=? c) && (c <=? 8202) || (c =? 8232) || (c =? 8233)
   || (c =? 8239) || (c =? 8287) || (c =? 12288) || (c =? 65279))%N.

(** Relative index of [slice]: negative indices count from the end. *)
Definition clamp_index (len k : Z) : Z :=
  if (k <? 0)%Z then Z.max (len + k) 0 else Z.min k len.

(** [s.slice(b, e)] *)
Definition slice (s : jsstring) (b e : Z) : jsstring :=
  let len := Z.of_nat (length s) in
  let from := clamp_index len b in
  let to := clamp_index len e in
  firstn (Z.to_nat (to - from)) (skipn (Z.to_nat from) s).

Fixpoint drop_ws (s : jsstring) : jsstring :=
  match s with
  | [] => []
  | c :: r => if is_ws c then drop_ws r else s
  end.

(** [s.trim()] *)
Definition trim (s : jsstring) : jsstring :=
  rev (drop_ws (rev (drop_ws s))).

(** [s.replace(/\s+/g, " ")]: every maximal run of white space becomes one
    space; [in_run] tells that the previous code unit was white space. *)
Fixpoint collapse_from (in_run : bool) (s : jsstring) : jsstring :=
  match s with
  | [] => []
  | c :: r =>
      if is_ws c
      then (if in_run then collapse_from true r
            else 32%N :: collapse_from true r)
      else c :: collapse_from false r
  end.

Definition collapse_ws (s : jsstring) : jsstring := collapse_from false s.

(** [s.startsWith(p)] and [s.endsWith(p)] *)
Fixpoint startsWith (s p : jsstring) : bool :=
  match p, s with
  | [], _ => true
  | _ :: _, [] => false
  | a :: p', b :: s' => (a =? b)%N && startsWith s' p'
  end.

Definition endsWith (s p : jsstring) : bool := startsWith (rev s) (rev p).

(** Truthiness of a string: [!!s], [Boolean(s)]. *)
Definition truthy (s : jsstring) : bool :=
  match s with [] => false | _ :: _ => true end.

(** A string has a character that is not white space. *)
Definition has_ink (s : jsstring) : bool := existsb (fun c => negb (is_ws c)) s.

(** [a ?? b] on a value that may be [null] or [undefined]. *)
Definition nullish (A : Type) (a : option A) (b : option A) : option A :=
  match a with Some _ => a | None => b end.

(** [!!s] for a string that may be [undefined]. *)
Definition truthy_opt (s : option jsstring) : bool :=
  match s with Some t => truthy t | None => false end.

(** ASCII lower case, the only folding the [/i] flag does on the letters
    of the patterns used here. *)
Definition lower (c : N) : N :=
  if ((65 <=? c) && (c <=? 90))%N then (c + 32)%N else c.

(** [s.replace(/\/+$/, "")] *)
Fixpoint drop_slashes (s : jsstring) : jsstring :=
  match s with
  | [] => []
  | c :: r => if (c =? 47)%N then drop_slashes r else s
  end.

Definition strip_trailing_slashes (s : jsstring) : jsstring :=
  rev (drop_slashes (rev s)).

End JsString.
Import JsString.

(* ================================================================== *)
(** ** The chunker of the ingest script *)
(* ================================================================== *)

Module Chunker.

(** The [while (i < text.length)] loop of [chunk]. Each turn pushes one
    window and moves [i] by [size - overlap]; [fuel] bounds the number of
    turns, and [None] means that the bound was reached. *)
Fixpoint chunk_loop (fuel : nat) (text : jsstring) (size overlap : Z)
         (i : Z) (out : list jsstring) : option (list jsstring) :=
  if (i <? Z.of_nat (length text))%Z then
    match fuel with
    | O => None
    | S fuel' =>
        chunk_loop fuel' text size overlap (i + (size - overlap))
                   (out ++ [slice text i (i + size)])
    end
  else Some out.

(** [chunk(text, size = 800, overlap = 150)] *)
Definition chunk (text : jsstring) (size overlap : Z) : option (list jsstring) :=
  match chunk_loop (length text) text size overlap 0 [] with
  | Some out => Some (filter truthy (map (fun s => trim (collapse_ws s)) out))
  | None => None
  end.

End Chunker.

(* ================================================================== *)
(** ** URLs *)
(* ================================================================== *)

Module Url.

(** A parsed URL, as the WHATWG [URL] class exposes it. A URL string made
    by [toString()] is represented by the record it serialises: two such
    strings are equal exactly when the records are. [origin] is the string
    of [url.origin], which the parser computes: scheme, host and port for
    an [http:] or [https:] URL, the origin of the inner URL for a [blob:]
    URL, and ["null"] for the schemes that have an opaque origin. *)
Record URL := mkURL {
  protocol : jsstring;
  hostname : jsstring;
  port : jsstring;
  pathname : jsstring;
  search : jsstring;
  hash : jsstring;
  origin : jsstring
}.

Definition eq_dec (a b : URL) : {a = b} + {a <> b}.
Proof. repeat decide equality. Defined.

Definition eqb (a b : URL) : bool := if eq_dec a b then true else false.

(** [a.origin === b.origin], on the two strings. *)
Definition same_origin (a b : URL) : bool := JsString.eqb (origin a) (origin b).

(** [u.hash = ""]; the fragment is no part of the origin. *)
Definition strip_hash (u : URL) : URL :=
  mkURL (protocol u) (hostname u) (port u) (pathname u) (search u) []
        (origin u).

(** [Set<string>]: insertion ordered, without duplicates. *)
Definition has (s : list URL) (u : URL) : bool := existsb (eqb u) s.

Definition add (s : list URL) (u : URL) : list URL :=
  if has s u then s else s ++ [u].

(** [Array.from(new Set(l))] *)
Definition dedup (l : list URL) : list URL := fold_left add l [].

End Url.
Import Url.

(* ================================================================== *)
(** ** JSON values and HTTP responses *)
(* ================================================================== *)

#[warnings="-register-all"]
Inductive json : Type :=
| JNull
| JBool (b : bool)
| JNum (q : Q)
| JStr (s : jsstring)
| JArr (items : list json)
| JObj (fields : list (string * json)).

(** What [NextResponse.json(body, { status })] sends; the status is 200 when
    it is not given. *)
Record Response := mkResponse { status : nat; body : json }.

Definition field (k : string) (j : json) : option json :=
  match j with
  | JObj fields =>
      match find (fun kv => String.eqb k (fst kv)) fields with
      | Some kv => Some (snd kv)
      | None => None
      end
  | _ => None
  end.

Definition has_field (k : string) (j : json) : bool :=
  match field k j with Some _ => true | None => false end.

Definition JNat (n : nat) : json := JNum (inject_Z (Z.of_nat n)).

(** [!!v] on a JSON value: [null], [false], zero and the empty string are
    falsy, every array and every object is truthy. *)
Definition truthy_json (v : json) : bool :=
  match v with
  | JNull => false
  | JBool b => b
  | JNum q => negb (Qeq_bool q 0)
  | JStr s => truthy s
  | JArr _ | JObj _ => true
  end.

Definition is_null (v : json) : bool :=
  match v with JNull => true | _ => false end.

(** [!!v] for a value that may be [undefined]. *)
Definition truthy_member (v : option json) : bool :=
  match v with Some j => truthy_json j | None => false end.

(** [b.k] on a parsed body [b] that is not [null], for the keys that the
    handlers read ([password], [slug], [url], [message]): the member of an
    object, and [undefined] on a number, a boolean, a string or an array,
    which have no property of these names. The handlers only apply [!],
    [??] and [!==] against a string to what they read, and these do not
    tell [null] from [undefined]: [None] is either. *)
Definition member (k : string) (b : json) : option json :=
  match field k b with
  | Some JNull | None => None
  | Some v => Some v
  end.

(** [v.slice] is a function: strings and arrays have the method; on a
    number, a boolean or an object the call [v.slice(0, 80)] throws a
    [TypeError] (a member [slice] of a JSON object is no function). *)
Definition has_slice (v : json) : bool :=
  match v with JStr _ | JArr _ => true | _ => false end.

(* ================================================================== *)
(** ** The store, the services and the log *)
(* ================================================================== *)

(** A row of [tenants]. *)
Record Tenant := mkTenant {
  tenant_id : jsstring;
  tenant_name : jsstring;
  tenant_slug : jsstring
}.

(** A row of [tenant_settings], as selected. *)
Record TenantSettings := mkSettings {
  welcome_message : jsstring;
  fallback_message : jsstring
}.

(** A row of [knowledge_items]: the admin route fills [title] and [url], the
    ingest script fills [source]. *)
Record KnowledgeItem := mkKnowledgeItem {
  ki_tenant_id : jsstring;
  ki_title : option jsstring;
  ki_content : jsstring;
  ki_url : option URL;
  ki_source : option URL
}.

(** A row of [embeddings]. *)
Record EmbeddingRecord := mkEmbeddingRecord {
  emb_tenant_id : jsstring;
  emb_content : jsstring;
  emb_embedding : list Q
}.

(** A result of the [match_embeddings] procedure, a row with the three
    columns that the procedure declares. At run time a field may be of
    another type than declared: [None] is a content that is [null],
    respectively a similarity that is not a number. Numbers
    come from JSON, so they are finite, and a finite double is the rational
    it denotes. *)
Record RagMatch := mkRagMatch {
  id : jsstring;
  content : option jsstring;
  similarity : option Q
}.

(** The two messages sent to the generation service: the system prompt is a
    fixed template around the company name and the fallback message, the
    user prompt a fixed template around the question and the knowledge
    lines. *)
Record Prompt := mkPrompt {
  prompt_company : jsstring;
  prompt_fallback : jsstring;
  prompt_question : jsstring;
  prompt_kb : list jsstring
}.

(** Every call that leaves the process. *)
Inductive Event : Type :=
| EvTenantLookup (slug : json)
| EvSettingsLookup (tenant : jsstring)
| EvDeleteEmbeddings (tenant : jsstring)
| EvDeleteKnowledge (tenant : jsstring)
| EvInsertKnowledge (row : KnowledgeItem)
| EvInsertEmbedding (row : EmbeddingRecord)
| EvFetch (u : URL)
| EvEmbed (input : json)
| EvMatchEmbeddings (tenant : jsstring) (match_count : nat)
| EvGenerate (p : Prompt).

(** The two tables the code writes, and the log of calls. *)
Record World := mkWorld {
  knowledge_items : list KnowledgeItem;
  embeddings : list EmbeddingRecord;
  log : list Event
}.

(** What [await fetch(u)] gives: a thrown error, or a response with its
    [res.ok] and with what [await res.text()] gives, [None] when reading the
    body throws. *)
Inductive FetchResult : Type :=
| FetchThrows
| FetchResponse (ok : bool) (text : option jsstring).

(** The process environment, the library functions that are not modelled
    (URL parsing, regular expressions over HTML, the DOM, the digits of a
    number) and the external services. A service sees the world at the
    time of the call, so its answer may change from call to call. [None]
    is success for a store write, and a thrown error for a service that
    returns a value. The slug of a tenant lookup and the input of an
    embedding are sent as the JSON values they are: the handlers pass on
    what they read from the request, which may be another value than a
    string. *)
Record Env := mkEnv {
  ADMIN_PASSWORD : option jsstring;
  url_parse : jsstring -> option URL;
  url_resolve : jsstring -> URL -> option URL;
  url_href : URL -> jsstring;
  html_strip : jsstring -> jsstring;
  html_hrefs : jsstring -> list jsstring;
  dom_anchors : jsstring -> URL -> option (list (option jsstring));
  dom_article : jsstring -> URL -> option (option jsstring * option jsstring);
  net_fetch : World -> URL -> FetchResult;
  db_tenant : World -> json -> option Tenant;
  db_settings : World -> jsstring -> option TenantSettings;
  db_delete_error : World -> bool;
  db_insert_knowledge_error : World -> KnowledgeItem -> option jsstring;
  db_insert_embedding_error : World -> EmbeddingRecord -> option jsstring;
  db_match_embeddings :
    World -> list Q -> nat -> jsstring -> jsstring + option (list RagMatch);
  ai_embedding : World -> json -> option (list Q);
  ai_completion : World -> Prompt -> option (option jsstring);
  num_string : Q -> jsstring
}.

(** [String(v)], [`${v}`], on a JSON value: a string is itself;
    [num_string] writes a number; an array is its elements joined by
    commas, [null] being the empty string there; an object is
    ["[object Object]"], unless it has a member [toString], which is no
    function: the conversion then throws a [TypeError], and so does the
    conversion of an array that holds such an object. [None] is that
    error. *)
Fixpoint js_string (env : Env) (v : json) : option jsstring :=
  match v with
  | JNull => Some (lit "null")
  | JBool true => Some (lit "true")
  | JBool false => Some (lit "false")
  | JNum q => Some (num_string env q)
  | JStr s => Some s
  | JArr items =>
      (fix join (l : list json) : option jsstring :=
         match l with
         | [] => Some []
         | x :: r =>
             match match x with JNull => Some [] | _ => js_string env x end with
             | None => None
             | Some sx =>
                 match r with
                 | [] => Some sx
                 | _ :: _ =>
                     match join r with
                     | None => None
                     | Some sr => Some (sx ++ lit "," ++ sr)
                     end
                 end
             end
         end) items
  | JObj fields =>
      if existsb (fun kv => String.eqb (fst kv) "toString") fields
      then None
      else Some (lit "[object Object]")
  end.

(* ================================================================== *)
(** ** Effects: state, exceptions, and loops that may not end *)
(* ================================================================== *)

Module Eff.

Inductive result (A : Type) : Type :=
| Ok (a : A)
| Throw (message : jsstring)
| Diverge.
Arguments Throw {A} message.
Arguments Diverge {A}.

Definition M (A : Type) : Type := World -> result A * World.

Definition ret (A : Type) (a : A) : M A := fun w => (Ok a, w).

Definition bind (A B : Type) (m : M A) (k : A -> M B) : M B :=
  fun w =>
    match m w with
    | (Ok a, w') => k a w'
    | (Throw e, w') => (Throw e, w')
    | (Diverge, w') => (Diverge, w')
    end.

Definition throw {A : Type} (e : jsstring) : M A := fun w => (Throw e, w).

Definition diverge {A : Type} : M A := fun w => (Diverge, w).

(** [try { m } catch (e) { h e }] *)
Definition try_catch (A : Type) (m : M A) (h : jsstring -> M A) : M A :=
  fun w =>
    match m w with
    | (Throw e, w') => h e w'
    | r => r
    end.

Definition ask (A : Type) (f : World -> A) : M A := fun w => (Ok (f w), w).

Definition emit (e : Event) : M unit :=
  fun w => (Ok tt, mkWorld (knowledge_items w) (embeddings w) (log w ++ [e])).

Definition modify (f : World -> World) : M unit := fun w => (Ok tt, f w).

End Eff.
Import Eff.

Declare Scope eff_scope.
Delimit Scope eff_scope with eff.
Notation "x <- m ;; k" := (bind m (fun x => k))
  (at level 61, m at next level, right associativity) : eff_scope.
Notation "m ;; k" := (bind m (fun _ => k))
  (at level 61, right associativity) : eff_scope.
Open Scope eff_scope.

(** The error of a string conversion that throws. *)
Definition cannot_convert : jsstring :=
  lit "Cannot convert object to primitive value".

(** The string of a value, where the code needs one. *)
Definition to_string (env : Env) (v : json) : M jsstring :=
  match js_string env v with
  | Some s => ret s
  | None => throw cannot_convert
  end.

(* ================================================================== *)
(** ** Calls to the services *)
(* ================================================================== *)

Module Service.

(** [await fetch(u)]; the caller reads [res.ok] and then the body. *)
Definition fetch (env : Env) (u : URL) : M FetchResult :=
  r <- ask (fun w => net_fetch env w u) ;;
  emit (EvFetch u) ;;
  ret r.

(** [supaAdmin.from("tenants").select("*").eq("slug", slug).single()] *)
Definition select_tenant (env : Env) (slug : json) : M (option Tenant) :=
  r <- ask (fun w => db_tenant env w slug) ;;
  emit (EvTenantLookup slug) ;;
  ret r.

Definition select_settings (env : Env) (tenant : jsstring)
  : M (option TenantSettings) :=
  r <- ask (fun w => db_settings env w tenant) ;;
  emit (EvSettingsLookup tenant) ;;
  ret r.

(** [supaAdmin.from("embeddings").delete().eq("tenant_id", t)]; the
    result, error or not, is dropped by the callers. *)
Definition delete_embeddings (env : Env) (t : jsstring) : M unit :=
  failed <- ask (db_delete_error env) ;;
  emit (EvDeleteEmbeddings t) ;;
  if failed then ret tt
  else modify (fun w =>
    mkWorld (knowledge_items w)
            (filter (fun r => negb (JsString.eqb (emb_tenant_id r) t)) (embeddings w))
            (log w)).

Definition delete_knowledge_items (env : Env) (t : jsstring) : M unit :=
  failed <- ask (db_delete_error env) ;;
  emit (EvDeleteKnowledge t) ;;
  if failed then ret tt
  else modify (fun w =>
    mkWorld (filter (fun r => negb (JsString.eqb (ki_tenant_id r) t)) (knowledge_items w))
            (embeddings w)
            (log w)).

(** [supaAdmin.from("knowledge_items").insert(row)]: the error, if any. *)
Definition insert_knowledge_item (env : Env) (row : KnowledgeItem)
  : M (option jsstring) :=
  err <- ask (fun w => db_insert_knowledge_error env w row) ;;
  emit (EvInsertKnowledge row) ;;
  match err with
  | Some e => ret (Some e)
  | None =>
      modify (fun w => mkWorld (knowledge_items w ++ [row]) (embeddings w) (log w)) ;;
      ret None
  end.

Definition insert_embedding (env : Env) (row : EmbeddingRecord)
  : M (option jsstring) :=
  err <- ask (fun w => db_insert_embedding_error env w row) ;;
  emit (EvInsertEmbedding row) ;;
  match err with
  | Some e => ret (Some e)
  | None =>
      modify (fun w => mkWorld (knowledge_items w) (embeddings w ++ [row]) (log w)) ;;
      ret None
  end.

(** [openai.embeddings.create({ model, input })] and [emb.data[0].embedding] *)
Definition create_embedding (env : Env) (input : json) : M (list Q) :=
  r <- ask (fun w => ai_embedding env w input) ;;
  emit (EvEmbed input) ;;
  match r with
  | Some v => ret v
  | None => throw (lit "embedding failed")
  end.

(** [supaAdmin.rpc("match_embeddings", ...)]: an error or the data, which
    may be [null]. *)
Definition match_embeddings (env : Env) (v : list Q) (k : nat) (t : jsstring)
  : M (jsstring + option (list RagMatch)) :=
  r <- ask (fun w => db_match_embeddings env w v k t) ;;
  emit (EvMatchEmbeddings t k) ;;
  ret r.

(** [openai.chat.completions.create(...)] and
    [completion.choices[0]?.message?.content] *)
Definition create_completion (env : Env) (p : Prompt) : M (option jsstring) :=
  r <- ask (fun w => ai_completion env w p) ;;
  emit (EvGenerate p) ;;
  match r with
  | Some c => ret c
  | None => throw (lit "completion failed")
  end.

End Service.

(* ================================================================== *)
(** ** The admin scrape route: [src/app/api/admin/scrape/route.ts] *)
(* ================================================================== *)

Module AdminScrape.

(** What [await req.json().catch(() => ({}))] gives: the JSON value of the
    body, which may be any value, [null] too, and [{}] for a body that
    does not parse. *)
Record Request := mkRequest { req_body : json }.

(** [body.password], [body.slug] and [body.url], of a body that is not
    [null]. *)
Definition req_password (req : Request) : option json :=
  member "password" (req_body req).

Definition req_slug (req : Request) : option json :=
  member "slug" (req_body req).

Definition req_url (req : Request) : option json :=
  member "url" (req_body req).

(** [normalizeUrl(input)], then [new URL(normalized)]: a string that does
    not parse is tried again behind [https://], and that may throw. *)
Definition normalizeUrl (env : Env) (input : jsstring) : M URL :=
  match url_parse env input with
  | Some u => ret u
  | None =>
      match url_parse env (lit "https://" ++ input) with
      | Some u => ret u
      | None => throw (lit "Invalid URL")
      end
  end.

(** [extractText(html)]: [html_strip] does the four first [replace], which
    take out the scripts, the styles and the comments and turn every tag
    into a space; then white space is collapsed and trimmed. *)
Definition extractText (env : Env) (html : jsstring) : jsstring :=
  trim (collapse_ws (html_strip env html)).

(** [extractLinks(html, baseUrl)]; [html_hrefs] gives the first group of
    every match of [linkRegex]. *)
Definition extractLinks (env : Env) (html : jsstring) (baseUrl : URL) : list URL :=
  let hrefs :=
    flat_map
      (fun href =>
         if negb (truthy href) then []
         else if startsWith href (lit "#") then []
         else if startsWith href (lit "mailto:") || startsWith href (lit "tel:") then []
         else
           match url_resolve env href baseUrl with
           | Some url => if same_origin url baseUrl then [url] else []
           | None => []
           end)
      (html_hrefs env html)
  in
  dedup hrefs.

Definition getTenantBySlug (env : Env) (slug : json) : M Tenant :=
  data <- Service.select_tenant env slug ;;
  match data with
  | Some t => ret t
  | None => throw (lit "Tenant not found")
  end.

Definition maxPages : nat := 8.

Record CrawlState := mkCrawl {
  visited : list URL;
  queue : list URL;
  createdItems : list (URL * jsstring)
}.

(** The title of a page: ["Website"] for the start page, else the path
    without its trailing slashes, or ["/"]. *)
Definition page_title (base current : URL) : jsstring :=
  if Url.eqb current base then lit "Website"
  else
    let path := strip_trailing_slashes (pathname current) in
    if truthy path then path else lit "/".

(** The [try] block that creates and stores the embedding; its errors are
    logged and dropped. *)
Definition store_embedding (env : Env) (tenant : Tenant) (text : jsstring) : M unit :=
  try_catch
    (embedding <- Service.create_embedding env (JStr (slice text 0 8000)) ;;
     Service.insert_embedding env
       (mkEmbeddingRecord (tenant_id tenant) (slice text 0 8000) embedding) ;;
     ret tt)
    (fun _ => ret tt).

(** One turn of the [while] loop; the queue is not empty. Every
    [continue] gives the state [skip]. The body of the response is read
    outside of the [try] around [fetch]: an error there is thrown to the
    handler. *)
Definition iteration (env : Env) (tenant : Tenant) (base : URL) (st : CrawlState)
  : M CrawlState :=
  match queue st with
  | [] => ret st
  | current :: rest =>
      if has (visited st) current
      then ret (mkCrawl (visited st) rest (createdItems st))
      else
        let visited' := Url.add (visited st) current in
        let skip := mkCrawl visited' rest (createdItems st) in
        res <- Service.fetch env current ;;
        match res with
        | FetchThrows => ret skip
        | FetchResponse false _ => ret skip
        | FetchResponse true None => throw (lit "body failed")
        | FetchResponse true (Some html) =>
            let text := extractText env html in
            if negb (truthy text) || (length text <? 200)%nat then ret skip
            else
              let title := page_title base current in
              kiError <- Service.insert_knowledge_item env
                (mkKnowledgeItem (tenant_id tenant) (Some title)
                                 (slice text 0 12000) (Some current) None) ;;
              match kiError with
              | Some _ => ret skip
              | None =>
                  store_embedding env tenant text ;;
                  let items := createdItems st ++ [(current, title)] in
                  if Url.eqb current base
                  then
                    let links := extractLinks env html base in
                    ret (mkCrawl visited'
                           (rest ++ filter (fun l => negb (has visited' l))
                                           (firstn 10 links))
                           items)
                  else ret (mkCrawl visited' rest items)
              end
        end
  end.

(** [while (queue.length > 0 && visited.size < maxPages)] *)
Fixpoint crawl_loop (fuel : nat) (env : Env) (tenant : Tenant) (base : URL)
         (st : CrawlState) : M CrawlState :=
  if (0 <? length (queue st))%nat && (length (visited st) <? maxPages)%nat then
    match fuel with
    | O => diverge
    | S fuel' =>
        st' <- iteration env tenant base st ;;
        crawl_loop fuel' env tenant base st'
    end
  else ret st.

Definition item_json (env : Env) (it : URL * jsstring) : json :=
  JObj [("url", JStr (url_href env (fst it))); ("title", JStr (snd it))]%string.

Definition tenant_json (t : Tenant) : json :=
  JObj [("id", JStr (tenant_id t)); ("name", JStr (tenant_name t));
        ("slug", JStr (tenant_slug t))]%string.

Definition error_json (message : jsstring) : json :=
  JObj [("ok", JBool false); ("error", JStr message)]%string.

(** The body of the answer after the crawl. *)
Definition ok_json (env : Env) (tenant : Tenant) (items : list (URL * jsstring))
  : json :=
  JObj [("ok", JBool true);
        ("tenant", tenant_json tenant);
        ("pages_processed", JNat (length items));
        ("items", JArr (map (item_json env) items))]%string.

(** [!(!password || password !== process.env.ADMIN_PASSWORD)]: the
    secret is a string, so a password that is no string differs from it. *)
Definition password_ok (env : Env) (password : option json) : bool :=
  match password, ADMIN_PASSWORD env with
  | Some (JStr p), Some secret => truthy p && JsString.eqb p secret
  | _, _ => false
  end.

(** The error of [body.password] on a body that is [null]. *)
Definition null_body : jsstring :=
  lit "Cannot read properties of null (reading 'password')".

(** The handler, with [fuel] turns allowed to the crawl loop. The first
    statement after the body is parsed reads [body.password], which throws
    a [TypeError] on [null]. [normalizeUrl(targetUrl)] takes the string of
    its argument, in [new URL(input)] and again in the template behind
    [https://]: where that conversion throws, both throw, and the error
    leaves [normalizeUrl]. *)
Definition POST (fuel : nat) (env : Env) (req : Request) : M Response :=
  try_catch
    (if is_null (req_body req)
     then throw null_body
     else if negb (password_ok env (req_password req))
     then ret (mkResponse 401 (error_json (lit "Unauthorized")))
     else
       match req_slug req, req_url req with
       | Some slug, Some targetUrl =>
           if negb (truthy_json slug) || negb (truthy_json targetUrl)
           then ret (mkResponse 400 (error_json (lit "slug and url are required")))
           else
             tenant <- getTenantBySlug env slug ;;
             input <- to_string env targetUrl ;;
             base <- normalizeUrl env input ;;
             Service.delete_embeddings env (tenant_id tenant) ;;
             Service.delete_knowledge_items env (tenant_id tenant) ;;
             st <- crawl_loop fuel env tenant base (mkCrawl [] [base] []) ;;
             ret (mkResponse 200 (ok_json env tenant (createdItems st)))
       | _, _ => ret (mkResponse 400 (error_json (lit "slug and url are required")))
       end)
    (fun message => ret (mkResponse 500 (error_json message))).

End AdminScrape.

(* ================================================================== *)
(** ** The ingest script: [scripts/ingest.ts] *)
(* ================================================================== *)

Module Ingest.

Definition embed (env : Env) (text : jsstring) : M (list Q) :=
  Service.create_embedding env (JStr text).

(** [extractTextFromUrl(url)]: [dom_article] gives the text content of the
    Readability article and of the body, when there are such; the fetch
    is not guarded, so its error is thrown to the caller. *)
Definition extractTextFromUrl (env : Env) (url : URL) : M jsstring :=
  res <- Service.fetch env url ;;
  match res with
  | FetchThrows => throw (lit "fetch failed")
  | FetchResponse false _ => ret []
  | FetchResponse true None => throw (lit "body failed")
  | FetchResponse true (Some html) =>
      match dom_article env html url with
      | None => throw (lit "DOM error")
      | Some (article, body_text) =>
          let a := match article with Some t => trim t | None => [] end in
          if truthy a then ret a
          else
            let b := match body_text with
                     | Some t => trim (collapse_ws t)
                     | None => []
                     end in
            ret b
      end
  end.

(** [chunk(text, size, overlap)]: see [Chunker.chunk]. *)
Definition chunk := Chunker.chunk.

(** [normalizeUrl(url)]: the URL without its fragment. The strings given
    to it here are serialised URLs, which parse. *)
Definition normalizeUrl (u : URL) : option URL := Some (strip_hash u).

Definition isSameHost (base candidate : URL) : bool :=
  JsString.eqb (hostname base) (hostname candidate).

(** [/\.(jpg|jpeg|png|webp|gif)$/i] *)
Definition image_suffix (href : jsstring) : bool :=
  let h := map lower href in
  existsb (endsWith h)
          [lit ".jpg"; lit ".jpeg"; lit ".png"; lit ".webp"; lit ".gif"].

Definition isCrawlableLink (href : option jsstring) : bool :=
  match href with
  | None => false
  | Some h =>
      if negb (truthy h) then false
      else if startsWith h (lit "mailto:") then false
      else if startsWith h (lit "tel:") then false
      else if startsWith h (lit "javascript:") then false
      else if endsWith h (lit ".pdf") then false
      else if image_suffix h then false
      else true
  end.

Definition somes (A : Type) (l : list (option A)) : list A :=
  flat_map (fun o => match o with Some a => [a] | None => [] end) l.

(** The chain of [map] and [filter] that computes [foundLinks]. *)
Definition foundLinks (env : Env) (start normalized : URL)
           (anchors : list (option jsstring)) : list URL :=
  let hrefs := filter isCrawlableLink anchors in
  let absolute :=
    map (fun href => match href with
                     | Some h => url_resolve env h normalized
                     | None => None
                     end) hrefs in
  let normal := map normalizeUrl (somes absolute) in
  filter (isSameHost start) (somes normal).

Record CrawlState := mkCrawl {
  toVisit : list URL;
  visited : list URL
}.

(** The [for (const link of foundLinks)] loop. *)
Definition enqueue (maxPages : nat) (visited : list URL)
           (toVisit : list URL) (links : list URL) : list URL :=
  fold_left
    (fun tv link =>
       if negb (has visited link) && negb (has tv link)
       then (if (length visited + length tv <? maxPages)%nat
             then tv ++ [link] else tv)
       else tv)
    links toVisit.

(** One turn of the [while] loop of [crawlSite]; [toVisit] is not empty. *)
Definition iteration (env : Env) (start : URL) (maxPages : nat) (st : CrawlState)
  : M CrawlState :=
  match toVisit st with
  | [] => ret st
  | current :: rest =>
      match normalizeUrl current with
      | None => ret (mkCrawl rest (visited st))
      | Some normalized =>
          if has (visited st) normalized
          then ret (mkCrawl rest (visited st))
          else
            let visited' := Url.add (visited st) normalized in
            try_catch
              (res <- Service.fetch env normalized ;;
               match res with
               | FetchThrows => throw (lit "fetch failed")
               | FetchResponse false _ => ret (mkCrawl rest visited')
               | FetchResponse true None => throw (lit "body failed")
               | FetchResponse true (Some html) =>
                   match dom_anchors env html normalized with
                   | None => throw (lit "DOM error")
                   | Some anchors =>
                       ret (mkCrawl
                              (enqueue maxPages visited' rest
                                       (foundLinks env start normalized anchors))
                              visited')
                   end
               end)
              (fun _ => ret (mkCrawl rest visited'))
      end
  end.

Fixpoint crawl_loop (fuel : nat) (env : Env) (start : URL) (maxPages : nat)
         (st : CrawlState) : M CrawlState :=
  if (0 <? length (toVisit st))%nat && (length (visited st) <? maxPages)%nat then
    match fuel with
    | O => diverge
    | S fuel' =>
        st' <- iteration env start maxPages st ;;
        crawl_loop fuel' env start maxPages st'
    end
  else ret st.

(** [crawlSite(startUrl, maxPages = 15)] *)
Definition crawlSite (fuel : nat) (env : Env) (startUrl : jsstring) (maxPages : nat)
  : M (list URL) :=
  match url_parse env startUrl with
  | None => throw (lit "Invalid URL")
  | Some start =>
      st <- crawl_loop fuel env start maxPages (mkCrawl [start] []) ;;
      ret (visited st)
  end.

Fixpoint for_each (A : Type) (l : list A) (f : A -> M unit) : M unit :=
  match l with
  | [] => ret tt
  | a :: r => f a ;; for_each r f
  end.

(** The body of [for (const c of chunks)]. *)
Definition store_chunk (env : Env) (tenant : Tenant) (url : URL) (c : jsstring)
  : M unit :=
  e1 <- Service.insert_knowledge_item env
          (mkKnowledgeItem (tenant_id tenant) None c None (Some url)) ;;
  match e1 with
  | Some e => throw e
  | None =>
      vec <- embed env c ;;
      e2 <- Service.insert_embedding env
              (mkEmbeddingRecord (tenant_id tenant) c vec) ;;
      match e2 with
      | Some e => throw e
      | None => ret tt
      end
  end.

(** The body of [for (const url of urls)]. *)
Definition store_page (env : Env) (tenant : Tenant) (url : URL) : M unit :=
  raw <- extractTextFromUrl env url ;;
  if negb (truthy raw) || (length raw <? 20)%nat then ret tt
  else
    match chunk raw 800 150 with
    | None => diverge
    | Some chunks => for_each chunks (store_chunk env tenant url)
    end.

(** [main()], on the two command line arguments. [process.exit(1)] is a
    throw: the script ends there with status 1, as it does on an error
    that reaches [main().catch]. *)
Definition main (fuel : nat) (env : Env) (slug startUrl : option jsstring) : M unit :=
  match slug, startUrl with
  | Some slug, Some startUrl =>
      if negb (truthy slug) || negb (truthy startUrl)
      then throw (lit "process.exit(1)")
      else
        data <- Service.select_tenant env (JStr slug) ;;
        match data with
        | None => throw (lit "process.exit(1)")
        | Some tenant =>
            urls <- crawlSite fuel env startUrl 15 ;;
            if (length urls =? 0)%nat then ret tt
            else for_each urls (store_page env tenant)
        end
  | _, _ => throw (lit "process.exit(1)")
  end.

End Ingest.

(* ================================================================== *)
(** ** The chat route, in its three versions *)
(* ================================================================== *)

Module Chat.

(** What the handler reads of a request: the JSON value of the body,
    which may be any value, [null] too, and [{}] when the body does not
    parse; the query string; and the [x-tenant-slug] header. *)
Record Request := mkRequest {
  req_body : json;
  query_message : option jsstring;
  query_slug : option jsstring;
  query_debug : option jsstring;
  header_slug : option jsstring
}.

(** [body.message] and [body.slug], of a body that is not [null]. *)
Definition body_message (req : Request) : option json :=
  member "message" (req_body req).

Definition body_slug (req : Request) : option json :=
  member "slug" (req_body req).

(** [body.message ?? url.searchParams.get("message") ?? ""]; what the
    query string gives is a string. *)
Definition message_of (req : Request) : json :=
  match nullish (body_message req) (option_map JStr (query_message req)) with
  | Some m => m
  | None => JStr []
  end.

(** [body.slug ?? url.searchParams.get("slug") ?? req.headers.get(...)] *)
Definition slug_of (req : Request) : option json :=
  nullish (body_slug req)
          (option_map JStr (nullish (query_slug req) (header_slug req))).

(** The error of [body.message] on a body that is [null]. *)
Definition null_body : jsstring :=
  lit "Cannot read properties of null (reading 'message')".

(** The error of [message.slice(0, 80)] on a message without the method. *)
Definition no_slice : jsstring := lit "message.slice is not a function".

(** [url.searchParams.get("debug") === "1"] *)
Definition debug_on (req : Request) : bool :=
  match query_debug req with
  | Some d => JsString.eqb d (lit "1")
  | None => false
  end.

Definition getTenantBySlug (env : Env) (slug : json) : M Tenant :=
  data <- Service.select_tenant env slug ;;
  match data with
  | Some t => ret t
  | None => throw (lit "Tenant not found")
  end.

Definition default_settings : TenantSettings :=
  mkSettings (lit "Wie kann ich Ihnen helfen?")
             (lit "Leider habe ich hierzu noch keine Informationen hinterlegt.").

Definition getTenantSettings (env : Env) (tenantId : jsstring) : M TenantSettings :=
  data <- Service.select_settings env tenantId ;;
  match data with
  | Some s => ret s
  | None => ret default_settings
  end.

Definition ragSearch (env : Env) (tenantId : jsstring) (query : json) (k : nat)
  : M (list RagMatch) :=
  queryEmbedding <- Service.create_embedding env query ;;
  r <- Service.match_embeddings env queryEmbedding k tenantId ;;
  match r with
  | inl _ => throw (lit "Vector search failed")
  | inr (Some data) => ret data
  | inr None => ret []
  end.

(** The [try] around [ragSearch]: an error leaves no matches. *)
Definition search (env : Env) (tenantId : jsstring) (query : json)
  : M (list RagMatch) :=
  try_catch (ragSearch env tenantId query 4) (fun _ => ret []).

(** [typeof m.similarity === "number"] *)
Definition numeric (m : RagMatch) : bool :=
  match similarity m with Some _ => true | None => false end.

(** The number [m.similarity], where it is one. *)
Definition score (m : RagMatch) : Q :=
  match similarity m with Some q => q | None => 0 end.

(** [m.similarity >= t] on a number *)
Definition at_least (t : Q) (m : RagMatch) : bool := Qle_bool t (score m).

(** [arr.sort((a, b) => b.similarity - a.similarity)]: the sort is stable,
    and an element moves behind another one only where the comparator is
    positive, that is where its similarity is smaller. *)
Fixpoint insert_desc (x : RagMatch) (l : list RagMatch) : list RagMatch :=
  match l with
  | [] => [x]
  | y :: r =>
      if negb (Qle_bool (score y - score x) 0)
      then y :: insert_desc x r
      else x :: l
  end.

Fixpoint sort_desc (l : list RagMatch) : list RagMatch :=
  match l with
  | [] => []
  | x :: r => insert_desc x (sort_desc r)
  end.

(** [`- ${m.content}`] *)
Definition kb_line (m : RagMatch) : jsstring :=
  lit "- " ++ match content m with Some c => c | None => lit "null" end.

Definition match_json (m : RagMatch) : json :=
  JObj [("id", JStr (id m));
        ("content", match content m with Some c => JStr c | None => JNull end);
        ("similarity", match similarity m with Some q => JNum q | None => JNull end)]%string.

Definition tenant_json (t : Tenant) : json :=
  JObj [("id", JStr (tenant_id t)); ("name", JStr (tenant_name t));
        ("slug", JStr (tenant_slug t))]%string.

Definition settings_json (s : TenantSettings) : json :=
  JObj [("welcome_message", JStr (welcome_message s));
        ("fallback_message", JStr (fallback_message s))]%string.

Definition bad_request (message : jsstring) : Response :=
  mkResponse 400 (JObj [("error", JStr message)]%string).

Definition server_error (message : jsstring) : Response :=
  mkResponse 500 (JObj [("ok", JBool false); ("error", JStr message)]%string).

(** [{ text, welcome_message, from_kb }] *)
Definition answer (text : jsstring) (s : TenantSettings) (from_kb : bool) : Response :=
  mkResponse 200
    (JObj [("text", JStr text);
           ("welcome_message", JStr (welcome_message s));
           ("from_kb", JBool from_kb)]%string).

(** The call to the generation service and the text taken from it; the
    template of the user prompt takes the string of the message, before
    the call. *)
Definition generate (env : Env) (tenant : Tenant) (s : TenantSettings)
           (message : json) (kb : list jsstring) : M jsstring :=
  question <- to_string env message ;;
  completion <- Service.create_completion env
                  (mkPrompt (tenant_name tenant) (fallback_message s)
                            question kb) ;;
  match completion with
  | Some text => ret text
  | None => ret (fallback_message s)
  end.

End Chat.

(** [part_000]: soft threshold, with the best matches as a fallback. The
    handler reads [body.message] first, which throws on a body that is
    [null]; and before the first call it logs [message.slice(0, 80)],
    which throws on a message without that method. Every error is
    answered with status 500. *)
Module ChatSoft.
Import Chat.

Definition MIN_SIMILARITY : Q := 20 # 100.

(** [typeof m.similarity === "number" && !!m.content &&
    m.content.trim().length > 0] *)
Definition usable (m : RagMatch) : bool :=
  numeric m
  && match content m with
     | Some c => truthy c && (0 <? length (trim c))%nat
     | None => false
     end.

Definition scored (matches : list RagMatch) : list RagMatch :=
  filter usable matches.

Definition above (t : Q) (scored : list RagMatch) : list RagMatch :=
  sort_desc (filter (at_least t) scored).

(** [(above.length > 0 ? above : scored).sort(...).slice(0, k)]; the
    handler has [t = MIN_SIMILARITY] and [k = 4]. *)
Definition top (t : Q) (k : nat) (scored : list RagMatch) : list RagMatch :=
  let above := above t scored in
  firstn k (sort_desc (if (0 <? length above)%nat then above else scored)).

Definition debug_json (slug : json) (tenant : Tenant) (s : TenantSettings)
           (scored : list RagMatch) : json :=
  JObj [("slug", slug);
        ("tenant", tenant_json tenant);
        ("settings", settings_json s);
        ("matches", JArr (map match_json scored));
        ("relevantMatches",
          JArr (map match_json (filter (at_least MIN_SIMILARITY) scored)));
        ("threshold", JNum MIN_SIMILARITY)]%string.

Definition POST (env : Env) (req : Request) : M Response :=
  try_catch
    (if is_null (req_body req) then throw null_body
     else
     let message := message_of req in
     if negb (truthy_json message) then ret (bad_request (lit "message required"))
     else
       match slug_of req with
       | None => ret (bad_request (lit "slug required"))
       | Some slug =>
           if negb (truthy_json slug) then ret (bad_request (lit "slug required"))
           else if negb (has_slice message) then throw no_slice
           else
             tenant <- getTenantBySlug env slug ;;
             settings <- getTenantSettings env (tenant_id tenant) ;;
             matches <- search env (tenant_id tenant) message ;;
             let scored := scored matches in
             if debug_on req
             then ret (mkResponse 200 (debug_json slug tenant settings scored))
             else if (length scored =? 0)%nat
             then ret (answer (fallback_message settings) settings false)
             else
               let top := top MIN_SIMILARITY 4 scored in
               text <- generate env tenant settings message (map kb_line top) ;;
               ret (answer text settings true)
       end)
    (fun message => ret (server_error message)).

End ChatSoft.

(** [part_002]: hard threshold, without a fallback to weaker matches;
    the body and the message are read as in [part_000]. *)
Module ChatHard.
Import Chat.

Definition MIN_SIMILARITY : Q := 75 # 100.

(** [matches.filter(m => typeof m.similarity === "number" &&
    m.similarity >= t)]; the handler has [t = MIN_SIMILARITY]. *)
Definition relevantMatches (t : Q) (matches : list RagMatch) : list RagMatch :=
  filter (fun m => numeric m && at_least t m) matches.

Definition debug_json (slug : json) (tenant : Tenant) (s : TenantSettings)
           (matches relevant : list RagMatch) : json :=
  JObj [("slug", slug);
        ("tenant", tenant_json tenant);
        ("settings", settings_json s);
        ("matches", JArr (map match_json matches));
        ("relevantMatches", JArr (map match_json relevant))]%string.

Definition POST (env : Env) (req : Request) : M Response :=
  try_catch
    (if is_null (req_body req) then throw null_body
     else
     let message := message_of req in
     if negb (truthy_json message) then ret (bad_request (lit "message required"))
     else
       match slug_of req with
       | None => ret (bad_request (lit "slug required"))
       | Some slug =>
           if negb (truthy_json slug) then ret (bad_request (lit "slug required"))
           else if negb (has_slice message) then throw no_slice
           else
             tenant <- getTenantBySlug env slug ;;
             settings <- getTenantSettings env (tenant_id tenant) ;;
             matches <- search env (tenant_id tenant) message ;;
             let relevant := relevantMatches MIN_SIMILARITY matches in
             if debug_on req
             then ret (mkResponse 200 (debug_json slug tenant settings matches relevant))
             else if (length relevant =? 0)%nat
             then ret (answer (fallback_message settings) settings false)
             else
               text <- generate env tenant settings message (map kb_line relevant) ;;
               ret (answer text settings true)
       end)
    (fun message => ret (server_error message)).

End ChatHard.

(** [part_001]: no threshold, no [from_kb], and a default tenant. The
    handler throws on a body that is [null], and takes a message of any
    type: it does not log it. *)
Module ChatLegacy.
Import Chat.

(** [... ?? "kunden-muster"] *)
Definition slug_or_default (req : Request) : json :=
  match slug_of req with
  | Some slug => slug
  | None => JStr (lit "kunden-muster")
  end.

Definition POST (env : Env) (req : Request) : M Response :=
  try_catch
    (if is_null (req_body req) then throw null_body
     else
     let message := message_of req in
     let slug := slug_or_default req in
     if negb (truthy_json message) then ret (bad_request (lit "message required"))
     else
       tenant <- getTenantBySlug env slug ;;
       settings <- getTenantSettings env (tenant_id tenant) ;;
       matches <- search env (tenant_id tenant) message ;;
       let kb :=
         if (0 <? length matches)%nat then map kb_line matches
         else [lit "- Es sind noch keine Wissensinhalte hinterlegt."] in
       text <- generate env tenant settings message kb ;;
       ret (mkResponse 200
              (JObj [("text", JStr text);
                     ("welcome_message", JStr (welcome_message settings))]%string)))
    (fun message => ret (server_error message)).

End ChatLegacy.

(* ================================================================== *)
(** ** The words of the specification *)
(* ================================================================== *)

Module Props.
Import Chat.

(** Descending by similarity. *)
Definition desc (a b : RagMatch) : Prop := score b <= score a.

(** The pool the soft ranker draws from: the matches at or above the
    threshold when there is one, else all the usable matches. *)
Definition pool (t : Q) (scored : list RagMatch) : list RagMatch :=
  if existsb (at_least t) scored then filter (at_least t) scored else scored.

(** A match with an empty content or with a score that is not a number. *)
Definition unusable (m : RagMatch) : Prop :=
  similarity m = None \/ content m = None \/ content m = Some [].

Definition is_generate (e : Event) : bool :=
  match e with EvGenerate _ => true | _ => false end.

(** The number of calls to the generation service so far. *)
Definition generations (w : World) : nat :=
  length (filter is_generate (log w)).

(** The rows of [knowledge_items] that are not of the tenant [t]: what a
    successful delete leaves. *)
Definition others (t : jsstring) (rows : list KnowledgeItem) : list KnowledgeItem :=
  filter (fun r => negb (JsString.eqb (ki_tenant_id r) t)) rows.

(** The URLs fetched, in the order of the calls. *)
Definition fetched (l : list Event) : list URL :=
  flat_map (fun e => match e with EvFetch u => [u] | _ => [] end) l.

(** The address and the title of a row of [knowledge_items], and of an
    entry of [items]. *)
Definition row_key (r : KnowledgeItem) : option URL * option jsstring :=
  (ki_url r, ki_title r).

Definition item_key (it : URL * jsstring) : option URL * option jsstring :=
  (Some (fst it), Some (snd it)).

(** The rows that the log tells were sent to the two tables. *)
Definition knowledge_sent (l : list Event) : list KnowledgeItem :=
  flat_map (fun e => match e with EvInsertKnowledge r => [r] | _ => [] end) l.

Definition embeddings_sent (l : list Event) : list EmbeddingRecord :=
  flat_map (fun e => match e with EvInsertEmbedding r => [r] | _ => [] end) l.

(** The world after more calls that left the tables alone. *)
Definition logged (w : World) (evs : list Event) : World :=
  mkWorld (knowledge_items w) (embeddings w) (log w ++ evs).

(** The state of the crawl loop of the admin route after a [continue]. *)
Definition skip (st : AdminScrape.CrawlState) (current : URL) (rest : list URL)
  : AdminScrape.CrawlState :=
  AdminScrape.mkCrawl (AdminScrape.visited st ++ [current]) rest
                      (AdminScrape.createdItems st).

(** A URL of the crawl of the admin route: a URL whose [origin] is the
    string that the [origin] of the start page is. *)
Definition on_site (base u : URL) : Prop := origin u = origin base.

(** What holds of the crawl loop of the admin route at every turn, since
    the world [w0] at its start. *)
Record crawl_inv (base : URL) (w0 : World)
       (st : AdminScrape.CrawlState) (w : World) : Prop := mkCrawlInv {
  inv_nodup : NoDup (AdminScrape.visited st);
  inv_bound : (length (AdminScrape.visited st) <= AdminScrape.maxPages)%nat;
  inv_visited : Forall (on_site base) (AdminScrape.visited st);
  inv_queue : Forall (on_site base) (AdminScrape.queue st);
  inv_seed :
    In base (AdminScrape.visited st)
    \/ (AdminScrape.visited st = [] /\ AdminScrape.queue st = [base]);
  inv_fetched :
    fetched (log w) = fetched (log w0) ++ AdminScrape.visited st;
  inv_rows :
    exists rows,
      knowledge_items w = knowledge_items w0 ++ rows
      /\ map row_key rows = map item_key (AdminScrape.createdItems st)
}.

(** What holds of the URLs [v] that the crawl of the admin route has
    visited when it ends in the world [w], from the world [w0]: they are
    the URLs fetched since [w0], in order; none comes twice; there are at
    most [maxPages]; the start page is one; all have its origin. *)
Record crawled (base : URL) (w0 w : World) (v : list URL) : Prop := mkCrawled {
  crawled_fetched : fetched (log w) = fetched (log w0) ++ v;
  crawled_nodup : NoDup v;
  crawled_bound : (length v <= AdminScrape.maxPages)%nat;
  crawled_seed : In base v;
  crawled_site : Forall (on_site base) v
}.

(** The turns the crawl loop of the admin route has left, at most. *)
Definition turns_left (base : URL) (st : AdminScrape.CrawlState) : nat :=
  length (AdminScrape.queue st)
  + (if has (AdminScrape.visited st) base then 0 else 10).

(** The row of [knowledge_items] that the admin route makes of a page. *)
Definition page_row (tenant : Tenant) (base current : URL) (text : jsstring)
  : KnowledgeItem :=
  mkKnowledgeItem (tenant_id tenant) (Some (AdminScrape.page_title base current))
                  (slice text 0 12000) (Some current) None.

(** The body of the page [u], fetched in the world [w], can be read. *)
Definition readable (env : Env) (w : World) (u : URL) : Prop :=
  net_fetch env w u <> FetchResponse true None.

(** The page [current], fetched in the world [w], is stored by the admin
    route: the fetch succeeds with an OK status, the text has 200 code
    units or more, and the insert into [knowledge_items] succeeds. *)
Definition stored (env : Env) (tenant : Tenant) (base current : URL) (w : World)
  : bool :=
  match net_fetch env w current with
  | FetchResponse true (Some html) =>
      let text := AdminScrape.extractText env html in
      truthy text && negb (length text <? 200)%nat
      && match db_insert_knowledge_error env (logged w [EvFetch current])
                 (page_row tenant base current text) with
         | None => true
         | Some _ => false
         end
  | _ => false
  end.

(** A URL of the crawl of the ingest script: a URL of the host of the
    start page, without fragment. *)
Definition on_host (start u : URL) : Prop :=
  hostname u = hostname start /\ hash u = [].

(** What holds of the crawl loop of the ingest script at every turn. *)
Record site_inv (start : URL) (maxPages : nat) (w0 : World)
       (st : Ingest.CrawlState) (w : World) : Prop := mkSiteInv {
  site_nodup : NoDup (Ingest.visited st);
  site_bound : (length (Ingest.visited st) <= maxPages)%nat;
  site_visited : Forall (on_host start) (Ingest.visited st);
  site_queue :
    Forall (fun u => hostname u = hostname start) (Ingest.toVisit st);
  site_queue_bound : (length (Ingest.toVisit st) <= maxPages)%nat;
  site_seed :
    In (strip_hash start) (Ingest.visited st)
    \/ (Ingest.visited st = [] /\ Ingest.toVisit st = [start]);
  site_fetched : fetched (log w) = fetched (log w0) ++ Ingest.visited st
}.

(** The turns the crawl loop of the ingest script has left, at most. *)
Definition site_turns_left (maxPages : nat) (st : Ingest.CrawlState) : nat :=
  (maxPages - length (Ingest.visited st)) * (maxPages + 1)
  + length (Ingest.toVisit st).

(** The row of [knowledge_items] that the ingest script makes of a
    chunk. *)
Definition chunk_row (tenant : Tenant) (url : URL) (c : jsstring) : KnowledgeItem :=
  mkKnowledgeItem (tenant_id tenant) None c None (Some url).

(** What one turn of the crawl loop of the admin route does with a page
    [current] that was not visited: the page is marked and fetched, once;
    links are queued only from the start page, at most ten, all of the
    origin of the start page; a row of [knowledge_items] is inserted
    exactly when an entry is added to [createdItems], with the same
    address and title; and a row sent to [embeddings] has for content the
    first 8000 code units of the content of the row sent to
    [knowledge_items]. *)
Inductive turn (base current : URL) (rest : list URL)
          (st st' : AdminScrape.CrawlState) (w w' : World) : Prop :=
| mkTurn (links : list URL) (events : list Event)
         (rows : list KnowledgeItem) (items : list (URL * jsstring)) :
    AdminScrape.visited st' = AdminScrape.visited st ++ [current] ->
    AdminScrape.queue st' = rest ++ links ->
    links = [] \/ current = base ->
    (length links <= 10)%nat ->
    Forall (fun l => same_origin l base = true) links ->
    log w' = log w ++ EvFetch current :: events ->
    fetched events = [] ->
    knowledge_items w' = knowledge_items w ++ rows ->
    AdminScrape.createdItems st' = AdminScrape.createdItems st ++ items ->
    map row_key rows = map item_key items ->
    (forall e, In e (embeddings_sent events) ->
       exists k, In k (knowledge_sent events)
                 /\ emb_content e = slice (ki_content k) 0 8000) ->
    turn base current rest st st' w w'.



End Props.

(* ================================================================== *)
(** ** A small site and a small tenant, to run the code on *)
(* ================================================================== *)

Module Sample.

Definition https_a (path frag : string) : URL :=
  mkURL (lit "https:") (lit "a.com") [] (lit path) [] (lit frag)
        (lit "https://a.com").

Definition http_a (path : string) : URL :=
  mkURL (lit "http:") (lit "a.com") [] (lit path) [] [] (lit "http://a.com").

Definition seed : URL := https_a "/" "".

(** Two URLs of schemes that have an opaque origin, whose [origin] is the
    string ["null"], and a [blob:] URL of the site, whose [origin] is the
    origin of the site. *)
Definition data_page : URL :=
  mkURL (lit "data:") [] [] (lit "text/html,page") [] [] (lit "null").

Definition about_blank : URL :=
  mkURL (lit "about:") [] [] (lit "blank") [] [] (lit "null").

Definition blob_a : URL :=
  mkURL (lit "blob:") [] [] (lit "https://a.com/0") [] [] (lit "https://a.com").

Definition tenant : Tenant := mkTenant (lit "t1") (lit "Demo GmbH") (lit "demo").

Definition settings : TenantSettings :=
  mkSettings (lit "Willkommen") (lit "Dazu habe ich nichts.").

(** A match with a content and a similarity. *)
Definition hit (name : string) (q : Q) : RagMatch :=
  mkRagMatch (lit name) (Some (lit "Open Monday-Friday, 9-5")) (Some q).

(** A text of [n] letters. *)
Definition letters (n : N) : jsstring := repeat 97%N (N.to_nat n).

(** A world where the start page [https://a.com/] has the text [text] and
    the anchors [anchors], every other page has the same text and no
    anchor, the store answers with [refuse] to an insert into
    [knowledge_items], the vector search answers [matches], and nothing
    else fails. *)
Definition env_on (refuse : World -> KnowledgeItem -> option jsstring)
           (text : jsstring) (anchors : list jsstring)
           (matches : list RagMatch) : Env :=
  {| ADMIN_PASSWORD := Some (lit "secret");
     url_parse := fun s =>
       if JsString.eqb s (lit "https://a.com/") then Some seed
       else if JsString.eqb s (lit "data:text/html,page") then Some data_page
       else None;
     url_resolve := fun href base =>
       if JsString.eqb href (lit "about:blank") then Some about_blank
       else if JsString.eqb href (lit "blob:https://a.com/0") then Some blob_a
       else if startsWith href (lit "http://a.com") then
         Some (mkURL (lit "http:") (lit "a.com") [] (skipn 12 href) [] []
                     (lit "http://a.com"))
       else if startsWith href (lit "/") && truthy (hostname base) then
         Some (mkURL (protocol base) (hostname base) (port base) href [] []
                     (origin base))
       else None;
     url_href := fun u =>
       protocol u ++ lit "//" ++ hostname u ++ pathname u ++ hash u;
     html_strip := fun _ => text;
     html_hrefs := fun html => if truthy html then anchors else [];
     dom_anchors := fun html _ =>
       Some (if truthy html then map Some anchors else []);
     dom_article := fun _ _ => Some (Some text, None);
     net_fetch := fun _ u =>
       FetchResponse true (Some (if Url.eqb u seed then lit "<html>" else []));
     db_tenant := fun _ _ => Some tenant;
     db_settings := fun _ _ => Some settings;
     db_delete_error := fun _ => false;
     db_insert_knowledge_error := refuse;
     db_insert_embedding_error := fun _ _ => None;
     db_match_embeddings := fun _ _ _ _ => inr (Some matches);
     ai_embedding := fun _ _ => Some [];
     ai_completion := fun _ _ => Some (Some (lit "Mo-Fr 9-5"));
     num_string := fun _ => lit "0" |}.

(** The same world, where every insert into [knowledge_items] gets the
    answer [ki_error]. *)
Definition env (text : jsstring) (anchors : list jsstring)
           (ki_error : option jsstring) (matches : list RagMatch) : Env :=
  env_on (fun _ _ => ki_error) text anchors matches.


(** The same world, where the store refuses the rows of the page [page]
    and no other. *)
Definition env_page_refused (page : URL) (text : jsstring)
           (anchors : list jsstring) : Env :=
  env_on (fun _ row =>
            match ki_url row with
            | Some u => if Url.eqb u page then Some (lit "insert failed") else None
            | None => None
            end)
         text anchors [].

Definition empty_world : World := mkWorld [] [] [].

(** The two examples of the ranker. *)
Definition one_strong : list RagMatch :=
  [hit "a" (9 # 10); hit "b" (3 # 10); hit "c" (1 # 10)].

Definition two_weak : list RagMatch := [hit "a" (3 # 10); hit "b" (2 # 10)].

(** A match without content and a match without a number. *)
Definition junk : list RagMatch :=
  [mkRagMatch (lit "a") (Some []) (Some (9 # 10));
   mkRagMatch (lit "b") (Some (lit "text")) None].

(** The body [{ password, slug, url }]. *)
Definition scrape_body (password slug url : jsstring) : json :=
  JObj [("password", JStr password); ("slug", JStr slug); ("url", JStr url)]%string.

Definition scrape : AdminScrape.Request :=
  AdminScrape.mkRequest
    (scrape_body (lit "secret") (lit "demo") (lit "https://a.com/")).

Definition scrape_wrong_password : AdminScrape.Request :=
  AdminScrape.mkRequest
    (scrape_body (lit "guess") (lit "demo") (lit "https://a.com/")).

(** A store that already holds a row of the tenant. *)
Definition busy_world : World :=
  mkWorld [mkKnowledgeItem (lit "t1") (Some (lit "Website")) (lit "old")
                           (Some seed) None]
          [mkEmbeddingRecord (lit "t1") (lit "old") []]
          [].

(** The body [{ slug, message }]. *)
Definition chat_body (slug message : jsstring) : json :=
  JObj [("slug", JStr slug); ("message", JStr message)]%string.

Definition question : Chat.Request :=
  Chat.mkRequest (chat_body (lit "demo") (lit "What are your hours?"))
                 None None None None.

Definition question_debug : Chat.Request :=
  Chat.mkRequest (chat_body (lit "demo") (lit "What are your hours?"))
                 None None (Some (lit "1")) None.


End Sample.

(* ================================================================== *)
(** ** More words, for the rest of the code *)
(* ================================================================== *)

Module Cover.
Import Props.

(** No white space next to white space. *)
Fixpoint no_double_ws (s : jsstring) : bool :=
  match s with
  | [] => true
  | c :: r =>
      negb (is_ws c && match r with [] => false | d :: _ => is_ws d end)
      && no_double_ws r
  end.

(** A text as [.replace(/\s+/g, " ").trim()] leaves it: no white space at
    either end, and inside only single spaces (U+0020). *)
Definition tidy (s : jsstring) : Prop :=
  (forall c, hd_error s = Some c -> is_ws c = false)
  /\ (forall c, hd_error (rev s) = Some c -> is_ws c = false)
  /\ (forall c, In c s -> is_ws c = true -> c = 32%N)
  /\ no_double_ws s = true.

(** The number of windows that [chunk] cuts in a text of [len] code
    units when it moves by [stride]: [len / stride], rounded up. *)
Definition window_count (len stride : Z) : nat :=
  Z.to_nat ((len + stride - 1) / stride).

(** The [k]-th window of [chunk], white space normalised as [chunk] does
    it. *)
Definition window (text : jsstring) (size overlap : Z) (k : nat) : jsstring :=
  let i := (Z.of_nat k * (size - overlap))%Z in
  trim (collapse_ws (slice text i (i + size))).

(** A row of [knowledge_items] as the admin route writes it for the tenant:
    with a title and the address of the page, without [source], and with
    for content 200 to 12000 code units that do not start with white
    space and have no two white spaces in a row. *)
Definition admin_row (tenant : Tenant) (r : KnowledgeItem) : Prop :=
  ki_tenant_id r = tenant_id tenant
  /\ (exists t, ki_title r = Some t /\ t <> [])
  /\ ki_url r <> None
  /\ ki_source r = None
  /\ (200 <= Z.of_nat (length (ki_content r)) <= 12000)%Z
  /\ no_double_ws (ki_content r) = true
  /\ (forall c, hd_error (ki_content r) = Some c -> is_ws c = false).

(** A row of [embeddings] as the admin route writes it for the tenant,
    beside the rows [krows] of [knowledge_items]: its content is the first
    8000 code units of the content of one of them. *)
Definition admin_emb (tenant : Tenant) (krows : list KnowledgeItem)
           (e : EmbeddingRecord) : Prop :=
  emb_tenant_id e = tenant_id tenant
  /\ exists k, In k krows /\ emb_content e = slice (ki_content k) 0 8000.

(** The calls of a crawl: fetches, embeddings and inserts. *)
Definition crawl_event (e : Event) : bool :=
  match e with
  | EvFetch _ | EvEmbed _ | EvInsertKnowledge _ | EvInsertEmbedding _ => true
  | _ => false
  end.

(** What the crawl of the admin route does to the world. It appends the
    calls [evs] to the log, the rows [krows] to [knowledge_items] and the
    rows [erows] to [embeddings]. The rows appended were sent; every row
    sent to [knowledge_items] is an [admin_row]; every row sent to
    [embeddings] goes with a row that [knowledge_items] took; and there
    are no more of the latter than of the former. *)
Inductive grows (tenant : Tenant) (w w' : World) : Prop :=
| mkGrows (krows : list KnowledgeItem) (erows : list EmbeddingRecord)
          (evs : list Event) :
    knowledge_items w' = knowledge_items w ++ krows ->
    embeddings w' = embeddings w ++ erows ->
    log w' = log w ++ evs ->
    incl krows (knowledge_sent evs) ->
    incl erows (embeddings_sent evs) ->
    Forall (admin_row tenant) (knowledge_sent evs) ->
    Forall (admin_emb tenant krows) (embeddings_sent evs) ->
    (length erows <= length (embeddings_sent evs))%nat ->
    (length (embeddings_sent evs) <= length krows)%nat ->
    (length krows <= length (knowledge_sent evs))%nat ->
    forallb crawl_event evs = true ->
    grows tenant w w'.

(** The rows of [embeddings] that are not of the tenant [t]. *)
Definition other_embeddings (t : jsstring) (rows : list EmbeddingRecord)
  : list EmbeddingRecord :=
  filter (fun r => negb (JsString.eqb (emb_tenant_id r) t)) rows.

(** The world in which the crawl of the admin route starts, from the
    world [w] of the request: after the lookup of the tenant and the two
    deletes, each of which the store may refuse. *)
Definition after_deletes (env : Env) (tenant : Tenant) (slug : json)
           (w : World) : World :=
  let t := tenant_id tenant in
  let w1 := logged w [EvTenantLookup slug] in
  let w2 :=
    mkWorld (knowledge_items w1)
            (if db_delete_error env w1 then embeddings w1
             else other_embeddings t (embeddings w1))
            (log w1 ++ [EvDeleteEmbeddings t]) in
  mkWorld (if db_delete_error env w2 then knowledge_items w2
           else others t (knowledge_items w2))
          (embeddings w2)
          (log w2 ++ [EvDeleteKnowledge t]).

(** The entries of [createdItems] are pages that were visited, each once,
    under the title of the page. *)
Definition items_ok (base : URL) (st : AdminScrape.CrawlState) : Prop :=
  NoDup (map fst (AdminScrape.createdItems st))
  /\ incl (map fst (AdminScrape.createdItems st)) (AdminScrape.visited st)
  /\ Forall (fun it => snd it = AdminScrape.page_title base (fst it))
            (AdminScrape.createdItems st).

(** [normalizeUrl(input)] gives [base]: the input parses, or it parses
    behind [https://]. *)
Definition resolves (env : Env) (input : jsstring) (base : URL) : Prop :=
  url_parse env input = Some base
  \/ (url_parse env input = None
      /\ url_parse env (lit "https://" ++ input) = Some base).

(** The same of the address of a request, a JSON value: it has a string,
    which [normalizeUrl] resolves to [base]. *)
Definition resolves_value (env : Env) (v : json) (base : URL) : Prop :=
  exists input, js_string env v = Some input /\ resolves env input base.

(** The address of a request cannot be resolved: it has no string, or its
    string does not parse, even behind [https://]. *)
Definition unresolved (env : Env) (v : json) : Prop :=
  match js_string env v with
  | None => True
  | Some input =>
      url_parse env input = None
      /\ url_parse env (lit "https://" ++ input) = None
  end.

(** The rows of the tenant [t] in the two tables. *)
Definition rows_of (t : jsstring) (rows : list KnowledgeItem) : list KnowledgeItem :=
  filter (fun r => JsString.eqb (ki_tenant_id r) t) rows.

Definition embeddings_of (t : jsstring) (rows : list EmbeddingRecord)
  : list EmbeddingRecord :=
  filter (fun r => JsString.eqb (emb_tenant_id r) t) rows.

(** The settings that [getTenantSettings] gives in the world [w]. *)
Definition settings_at (env : Env) (w : World) (t : jsstring) : TenantSettings :=
  match db_settings env w t with
  | Some s => s
  | None => Chat.default_settings
  end.

(** The world in which a chat handler has the tenant, the settings and the
    matches: after the two lookups and the calls [sevs] of the search. *)
Definition searched (w : World) (slug : json) (tenant : Tenant)
           (sevs : list Event) : World :=
  logged w (EvTenantLookup slug :: EvSettingsLookup (tenant_id tenant) :: sevs).

(** What the search of a chat handler can log and give, for the question
    [q] of the tenant [t], from the world [w]: the embedding of the
    question alone and no match, when the embedding fails; else the
    embedding and one vector search for this tenant and four matches,
    with the matches that the search gave, or none when it failed or
    gave [null]. *)
Definition search_outcome (env : Env) (w : World) (t : jsstring) (q : json)
           (sevs : list Event) (ms : list RagMatch) : Prop :=
  (sevs = [EvEmbed q] /\ ms = [] /\ ai_embedding env w q = None)
  \/ (sevs = [EvEmbed q; EvMatchEmbeddings t 4]
      /\ exists v,
           ai_embedding env w q = Some v
           /\ match db_match_embeddings env (logged w [EvEmbed q]) v 4 t with
              | inl _ => ms = []
              | inr None => ms = []
              | inr (Some data) => ms = data
              end).

(** The end of a chat handler that generates, from the world [w]: one call
    to the generation service, and the answer made of what it gives; or
    no call and an error, for a message that has no string. *)
Definition generated (env : Env) (w : World) (tenant : Tenant)
           (s : TenantSettings) (message : json) (kb : list jsstring)
           (wrap : jsstring -> Response) : Response * World :=
  match js_string env message with
  | None => (Chat.server_error cannot_convert, w)
  | Some question =>
      let p := mkPrompt (tenant_name tenant) (fallback_message s) question kb in
      (match ai_completion env w p with
       | Some (Some text) => wrap text
       | Some None => wrap (fallback_message s)
       | None => Chat.server_error (lit "completion failed")
       end,
       logged w [EvGenerate p])
  end.

(** A URL that the start page links to: one of the ten first links of a
    body that a fetch of the start page gave. *)
Definition linked (env : Env) (base u : URL) : Prop :=
  exists w0 html,
    net_fetch env w0 base = FetchResponse true (Some html)
    /\ In u (firstn 10 (AdminScrape.extractLinks env html base)).

(** The crawl of the admin route stays near the start page: what it has
    visited or queued is the start page or linked from it. *)
Definition near (env : Env) (base : URL) (st : AdminScrape.CrawlState) : Prop :=
  forall u,
    In u (AdminScrape.visited st) \/ In u (AdminScrape.queue st) ->
    u = base \/ linked env base u.

(** The three versions of the chat handler. *)
Inductive version : Type := Soft | Hard | Legacy.

Definition handler (v : version) : Env -> Chat.Request -> M Response :=
  match v with
  | Soft => ChatSoft.POST
  | Hard => ChatHard.POST
  | Legacy => ChatLegacy.POST
  end.

(** The slug that a version looks up: the first version has a default. *)
Definition slug_used (v : version) (req : Chat.Request) : option json :=
  match v with
  | Legacy => Some (ChatLegacy.slug_or_default req)
  | _ => Chat.slug_of req
  end.


(** An environment with another table of settings. *)
Definition with_settings (env : Env)
           (f : World -> jsstring -> option TenantSettings) : Env :=
  mkEnv (ADMIN_PASSWORD env) (url_parse env) (url_resolve env) (url_href env)
        (html_strip env) (html_hrefs env) (dom_anchors env) (dom_article env)
        (net_fetch env) (db_tenant env) f (db_delete_error env)
        (db_insert_knowledge_error env) (db_insert_embedding_error env)
        (db_match_embeddings env) (ai_embedding env) (ai_completion env)
        (num_string env).

(** A match that the vector search returned, in some call for four
    matches. *)
Definition returned (env : Env) (m : RagMatch) : Prop :=
  exists w0 v t data,
    db_match_embeddings env w0 v 4 t = inr (Some data) /\ In m data.

(** The matches with the similarity [q]. *)
Definition tied (q : Q) (l : list RagMatch) : list RagMatch :=
  filter (fun m => Qeq_bool (Chat.score m) q) l.

(** A chunk as the ingest script stores it: not empty, of at most 800 code
    units, and tidy. *)
Definition chunk_ok (c : jsstring) : Prop :=
  c <> [] /\ (length c <= 800)%nat /\ tidy c.

(** A row of [knowledge_items] as the ingest script writes it for the
    tenant, from one of the pages [urls]: without title and [url], with
    the page for [source] and a chunk for content. *)
Definition ingest_row (tenant : Tenant) (urls : list URL) (r : KnowledgeItem)
  : Prop :=
  ki_tenant_id r = tenant_id tenant
  /\ ki_title r = None /\ ki_url r = None
  /\ (exists u, ki_source r = Some u /\ In u urls)
  /\ chunk_ok (ki_content r).

(** What storing pages does to the world in the ingest script: it appends
    calls to the log, rows to [knowledge_items] and as many rows to
    [embeddings], with the same tenant and content, row by row; and, when
    a chunk was being stored as an error ended the run, maybe one more
    row [last] of [knowledge_items], without its embedding. *)
Inductive ingests (tenant : Tenant) (urls : list URL) (w w' : World)
          (last : list KnowledgeItem) : Prop :=
| mkIngests (krows : list KnowledgeItem) (erows : list EmbeddingRecord)
            (evs : list Event) :
    knowledge_items w' = knowledge_items w ++ krows ++ last ->
    embeddings w' = embeddings w ++ erows ->
    log w' = log w ++ evs ->
    map ki_content krows = map emb_content erows ->
    Forall (fun e => emb_tenant_id e = tenant_id tenant) erows ->
    Forall (ingest_row tenant urls) (krows ++ last) ->
    forallb crawl_event evs = true ->
    ingests tenant urls w w' last.

(** How a step of the ingest script may end: well, with every row paired;
    or with an error, with at most one row that is not paired; and it
    ends. *)
Definition ingest_outcome (tenant : Tenant) (urls : list URL) (w : World)
           (out : result unit * World) : Prop :=
  match out with
  | (Ok _, w') => ingests tenant urls w w' []
  | (Throw _, w') =>
      exists last, (length last <= 1)%nat /\ ingests tenant urls w w' last
  | (Diverge, _) => False
  end.

End Cover.

(* ================================================================== *)
(** ** The pages that call the routes *)
(* ================================================================== *)

Module Pages.
Import Cover.

(** Truthiness of a field of a JSON object, which may be missing. *)
Definition json_truthy (j : option json) : bool :=
  match j with
  | None | Some JNull => false
  | Some (JBool b) => b
  | Some (JNum q) => negb (Qeq_bool q 0)
  | Some (JStr s) => truthy s
  | Some (JArr _) | Some (JObj _) => true
  end.

(** [j ?? d] on a field that may be missing. *)
Definition json_or (j : option json) (d : json) : json :=
  match j with
  | None | Some JNull => d
  | Some v => v
  end.

(** What [await res.json()] gives: the JSON value of the body, or the
    error that the call throws on a body that is no JSON, with the message
    that the browser gives it. *)
Inductive Parsed : Type :=
| NoJson (message : jsstring)
| Json (data : json).

(** What the page has of a response: [res.status] and [await res.json()]. *)
Record Reply := mkReply { reply_status : nat; reply_json : Parsed }.

(** [res.ok]: the status is in the range 200-299. *)
Definition res_ok (r : Reply) : bool :=
  (200 <=? reply_status r)%nat && (reply_status r <=? 299)%nat.

(** [fetch(path, { method: "POST", body: JSON.stringify(b) })] as a page
    sees it: the call rejects, which is a thrown error, or it resolves
    with a reply; the world may change in between. The pages take the
    transport they call as a parameter. *)
Definition Transport : Type := json -> M Reply.

(** A handler behind a transport that loses nothing: the reply has the
    status and the body of the response of the handler. *)
Definition served (h : json -> M Response) : Transport :=
  fun b => res <- h b ;; ret (mkReply (status res) (Json (body res))).

(** The admin route and the chat route, on a request that has the body
    [b], no query string and no header of its own. *)
Definition admin_route (fuel : nat) (env : Env) (b : json) : M Response :=
  AdminScrape.POST fuel env (AdminScrape.mkRequest b).

Definition chat_route (v : version) (env : Env) (b : json) : M Response :=
  handler v env (Chat.mkRequest b None None None None).

(** The message of the [TypeError] of reading the member [k] of [null],
    which is the browser's own. *)
Definition NullRead : Type := string -> jsstring.

(** *** [src/app/admin/page.tsx] *)

(** What the admin page shows once [handleSubmit] is done. *)
Record AdminView := mkAdminView {
  loading : bool;
  result : option json;
  error : option json
}.

(** [handleSubmit]: the three fields of the form are strings. A rejected
    [fetch], a body that is no JSON and a body that is [null] end in the
    [catch], which shows the message of the error. Of a body that is
    [null] the page reads [data.ok] when the status is OK, and [data.error]
    when it is not. *)
Definition handleSubmit (send : Transport) (null_read : NullRead)
           (password slug url : jsstring) : M AdminView :=
  try_catch
    (res <- send (JObj [("password", JStr password); ("slug", JStr slug);
                        ("url", JStr url)]%string) ;;
     match reply_json res with
     | NoJson message => throw message
     | Json data =>
         if is_null data
         then throw (null_read (if res_ok res then "ok" else "error")%string)
         else if negb (res_ok res) || negb (json_truthy (field "ok" data))
         then ret (mkAdminView false None
                     (Some (json_or (field "error" data)
                                    (JStr (lit "Unbekannter Fehler")))))
         else ret (mkAdminView false (Some data) None)
     end)
    (fun message => ret (mkAdminView false None (Some (JStr message)))).

(** *** [src/app/demo/[slug]/page.tsx] and [src/app/embed/[slug]/page.tsx] *)

Inductive Role : Type := user | assistant.

Record Message := mkMessage { role : Role; text : json }.

(** The state of a chat widget. *)
Record Widget := mkWidget {
  input : jsstring;
  messages : list Message;
  isSending : bool
}.

(** [(textOverride ?? input).trim()] *)
Definition question (textOverride : option jsstring) (st : Widget) : jsstring :=
  trim (match textOverride with Some t => t | None => input st end).

(** The body that the widgets send: [{ slug, message: q }]. *)
Definition ask_chat (slug q : jsstring) : json :=
  JObj [("slug", JStr slug); ("message", JStr q)]%string.

Definition demo_apology : jsstring :=
  lit "Es ist ein Fehler aufgetreten. Bitte versuchen Sie es erneut oder kontaktieren Sie das Team direkt.".

Definition embed_apology : jsstring :=
  lit "Entschuldigung, ich konnte gerade keine Antwort erzeugen.".

Definition embed_failure : jsstring :=
  lit "Technischer Fehler: Die Anfrage konnte nicht verarbeitet werden.".

(** [send] of the demo page, over the transport [send]; the state is the
    one when [send] is done. A status that is not OK is thrown before the
    body is read; a rejected [fetch], a body that is no JSON and a body
    that is [null], of which the page reads [data.text], are thrown too,
    and the [catch] shows one text for all of them. *)
Definition demo_send (send : Transport) (null_read : NullRead)
           (slug : option jsstring)
           (textOverride : option jsstring) (st : Widget) : M Widget :=
  let q := question textOverride st in
  if negb (truthy q) || isSending st then ret st
  else
    match slug with
    | Some slug' =>
        if negb (truthy slug')
        then ret (mkWidget (input st)
                    (messages st
                     ++ [mkMessage assistant
                           (JStr (lit "Konfigurationsfehler: kein Tenant-Slug gesetzt."))])
                    (isSending st))
        else
          let asked := messages st ++ [mkMessage user (JStr q)] in
          try_catch
            (res <- send (ask_chat slug' q) ;;
             if negb (res_ok res) then throw (lit "Fehler bei der Anfrage.")
             else
               match reply_json res with
               | NoJson message => throw message
               | Json data =>
                   if is_null data then throw (null_read "text"%string)
                   else
                     ret (mkWidget []
                            (asked
                             ++ [mkMessage assistant
                                   (json_or (field "text" data)
                                            (JStr (lit "Keine Antwort.")))])
                            false)
               end)
            (fun _ =>
               ret (mkWidget []
                      (asked ++ [mkMessage assistant (JStr demo_apology)])
                      false))
    | None =>
        ret (mkWidget (input st)
               (messages st
                ++ [mkMessage assistant
                      (JStr (lit "Konfigurationsfehler: kein Tenant-Slug gesetzt."))])
               (isSending st))
    end.

(** [send] of the embedded widget: the slug is a parameter of the route,
    the status of the reply is not looked at, and [data?.text] reads a
    body that is [null] as one without text. A rejected [fetch] and a body
    that is no JSON end in the [catch]. *)
Definition embed_send (send : Transport) (slug : jsstring)
           (textOverride : option jsstring) (st : Widget) : M Widget :=
  let q := question textOverride st in
  if negb (truthy q) || isSending st then ret st
  else
    let asked := messages st ++ [mkMessage user (JStr q)] in
    try_catch
      (res <- send (ask_chat slug q) ;;
       match reply_json res with
       | NoJson message => throw message
       | Json data =>
           let answer :=
             match field "text" data with
             | Some (JStr t) => JStr t
             | _ => JStr embed_apology
             end in
           ret (mkWidget [] (asked ++ [mkMessage assistant answer]) false)
       end)
      (fun _ =>
         ret (mkWidget [] (asked ++ [mkMessage assistant (JStr embed_failure)])
                false)).

End Pages.

(* ================================================================== *)
(** * Facts *)
(* ================================================================== *)

(** ** Strings *)

Module JsStringFacts.

Lemma eqb_eq a b : JsString.eqb a b = true <-> a = b.
Proof.
  unfold JsString.eqb. destruct (list_eq_dec N.eq_dec a b); split; congruence.
Qed.

Lemma eqb_refl a : JsString.eqb a a = true.
Proof. now apply eqb_eq. Qed.

Lemma eqb_neq a b : JsString.eqb a b = false <-> a <> b.
Proof.
  unfold JsString.eqb. destruct (list_eq_dec N.eq_dec a b); split; congruence.
Qed.

Lemma truthy_nonempty s : truthy s = true <-> s <> [].
Proof. destruct s; simpl; split; congruence. Qed.

Lemma has_ink_nonempty s : has_ink s = true -> s <> [].
Proof. destruct s; simpl; congruence. Qed.

Lemma has_ink_app a b : has_ink (a ++ b) = has_ink a || has_ink b.
Proof. unfold has_ink. apply existsb_app. Qed.

Lemma has_ink_rev s : has_ink (rev s) = has_ink s.
Proof.
  induction s as [|c s IH]; simpl; [reflexivity|].
  rewrite has_ink_app, IH. simpl. rewrite orb_false_r. apply orb_comm.
Qed.

Lemma has_ink_drop_ws s : has_ink (drop_ws s) = has_ink s.
Proof.
  induction s as [|c s IH]; simpl; [reflexivity|].
  destruct (is_ws c) eqn:E; simpl; [exact IH | now rewrite E].
Qed.

Lemma has_ink_collapse b s : has_ink (collapse_from b s) = has_ink s.
Proof.
  revert b. induction s as [|c s IH]; intros b; simpl; [reflexivity|].
  destruct (is_ws c) eqn:E; simpl.
  - destruct b; simpl; apply IH.
  - now rewrite E, IH.
Qed.

(** White space normalisation neither removes nor invents ink. *)
Lemma has_ink_normalise s : has_ink (trim (collapse_ws s)) = has_ink s.
Proof.
  unfold trim, collapse_ws.
  now rewrite has_ink_rev, has_ink_drop_ws, has_ink_rev, has_ink_drop_ws,
    has_ink_collapse.
Qed.

Lemma drop_ws_length s : (length (drop_ws s) <= length s)%nat.
Proof.
  induction s as [|c s IH]; simpl; [lia|].
  destruct (is_ws c); simpl; lia.
Qed.

Lemma trim_length s : (length (trim s) <= length s)%nat.
Proof.
  unfold trim. rewrite length_rev.
  etransitivity; [apply drop_ws_length|]. rewrite length_rev.
  apply drop_ws_length.
Qed.

Lemma collapse_length b s : (length (collapse_from b s) <= length s)%nat.
Proof.
  revert b. induction s as [|c s IH]; intros b; simpl; [lia|].
  pose proof (IH true). pose proof (IH false).
  destruct (is_ws c); [destruct b|]; simpl; lia.
Qed.

Lemma normalise_length s : (length (trim (collapse_ws s)) <= length s)%nat.
Proof.
  etransitivity; [apply trim_length | apply collapse_length].
Qed.

(** A window never is longer than asked for. *)
Lemma slice_length s b e :
  (0 <= b)%Z -> (0 <= e)%Z ->
  (Z.of_nat (length (slice s b e)) <= Z.max 0 (e - b))%Z.
Proof.
  intros Hb He. unfold slice, clamp_index.
  rewrite length_firstn, length_skipn.
  destruct (b <? 0)%Z eqn:Eb; [apply Z.ltb_lt in Eb; lia|].
  destruct (e <? 0)%Z eqn:Ee; [apply Z.ltb_lt in Ee; lia|]. lia.
Qed.

(** A window from [0] is a prefix. *)
Lemma slice_prefix s n :
  (0 <= n)%Z -> slice s 0 n = firstn (Z.to_nat n) s.
Proof.
  intros Hn. unfold slice, clamp_index.
  destruct (n <? 0)%Z eqn:En; [apply Z.ltb_lt in En; lia|].
  simpl (0 <? 0)%Z. cbv iota.
  assert (H0 : Z.min 0 (Z.of_nat (length s)) = 0%Z) by lia.
  rewrite H0, Z.sub_0_r. simpl skipn.
  destruct (Z.min_spec n (Z.of_nat (length s))) as [[H ->]|[H ->]];
    [reflexivity|].
  rewrite Nat2Z.id, firstn_all. symmetry. apply firstn_all2. lia.
Qed.

(** The character at [p] is in every window that spans [p]. *)
Lemma slice_covers s (b e : Z) (p : nat) c :
  (0 <= b <= Z.of_nat p)%Z -> (Z.of_nat p < e)%Z ->
  nth_error s p = Some c -> In c (slice s b e).
Proof.
  intros Hb He Hp.
  assert (Hlen : (p < length s)%nat).
  { apply nth_error_Some. congruence. }
  unfold slice, clamp_index.
  destruct (b <? 0)%Z eqn:Eb; [apply Z.ltb_lt in Eb; lia|].
  destruct (e <? 0)%Z eqn:Ee; [apply Z.ltb_lt in Ee; lia|].
  set (from := Z.to_nat (Z.min b (Z.of_nat (length s)))).
  set (n := Z.to_nat (Z.min e (Z.of_nat (length s)) - Z.min b (Z.of_nat (length s)))).
  assert (Hfrom : (from <= p)%nat) by (unfold from; lia).
  assert (Hn : (p - from < n)%nat) by (unfold n, from; lia).
  apply (nth_error_In _ (p - from)).
  rewrite nth_error_firstn.
  destruct (Nat.ltb_spec (p - from) n); [|lia].
  rewrite nth_error_skipn.
  replace (from + (p - from))%nat with p by lia. exact Hp.
Qed.

End JsStringFacts.

(** ** The chunker *)

Module ChunkerFacts.
Import Chunker JsStringFacts.

Section Loop.
Variables (text : jsstring) (size overlap : Z).
Hypothesis overlap_nonneg : (0 <= overlap)%Z.
Hypothesis stride_pos : (0 < size - overlap)%Z.

(** The loop ends when the windows left to cut fit in the fuel. *)
Lemma chunk_loop_ends fuel : forall i out,
  (Z.of_nat (length text) <= i + Z.of_nat fuel * (size - overlap))%Z ->
  exists res, chunk_loop fuel text size overlap i out = Some res.
Proof.
  induction fuel as [|fuel IH]; intros i out Hfuel; simpl.
  - destruct (Z.ltb_spec i (Z.of_nat (length text))); [lia | eauto].
  - destruct (Z.ltb_spec i (Z.of_nat (length text))); [|eauto].
    apply IH. lia.
Qed.

(** The loop only pushes. *)
Lemma chunk_loop_extends fuel : forall i out res,
  chunk_loop fuel text size overlap i out = Some res ->
  exists more, res = out ++ more.
Proof.
  induction fuel as [|fuel IH]; intros i out res; simpl;
    destruct (i <? Z.of_nat (length text))%Z; intros H; try discriminate;
    try (injection H as <-; exists []; now rewrite app_nil_r).
  apply IH in H. destruct H as [more ->].
  exists (slice text i (i + size) :: more). now rewrite <- app_assoc.
Qed.

(** What holds of every window holds of every element pushed. *)
Lemma chunk_loop_all (P : jsstring -> Prop) fuel : forall i out res,
  (forall j, (0 <= j)%Z -> P (slice text j (j + size))) ->
  (0 <= i)%Z -> Forall P out ->
  chunk_loop fuel text size overlap i out = Some res -> Forall P res.
Proof.
  induction fuel as [|fuel IH]; intros i out res HP Hi Hout; simpl;
    destruct (i <? Z.of_nat (length text))%Z; intros H; try discriminate;
    try (injection H as <-; assumption).
  apply IH in H; auto; [lia|].
  apply Forall_app. split; [assumption|]. constructor; auto.
Qed.

(** A character that is not white space ends up in a pushed window. *)
Lemma chunk_loop_ink fuel : forall i out res p c,
  (0 <= i <= Z.of_nat p)%Z ->
  nth_error text p = Some c -> is_ws c = false ->
  chunk_loop fuel text size overlap i out = Some res ->
  Exists (fun w => has_ink w = true) res.
Proof.
  induction fuel as [|fuel IH]; intros i out res p c Hi Hp Hc; simpl.
  - assert (p < length text)%nat by (apply nth_error_Some; congruence).
    destruct (Z.ltb_spec i (Z.of_nat (length text))); [discriminate | lia].
  - assert (p < length text)%nat by (apply nth_error_Some; congruence).
    destruct (Z.ltb_spec i (Z.of_nat (length text))); [|lia].
    intros H1.
    destruct (Z.ltb_spec (Z.of_nat p) (i + size)) as [Hin|Hout].
    + apply chunk_loop_extends in H1. destruct H1 as [more ->].
      apply Exists_app. left. apply Exists_app. right. constructor.
      unfold has_ink. apply existsb_exists. exists c. split.
      * apply slice_covers with (p := p); auto.
      * now rewrite Hc.
    + eapply IH; [| exact Hp | exact Hc | exact H1]. lia.
Qed.

End Loop.

(** Ink in the text is ink at some index. *)
Lemma has_ink_nth s :
  has_ink s = true -> exists p c, nth_error s p = Some c /\ is_ws c = false.
Proof.
  unfold has_ink. intros H. apply existsb_exists in H.
  destruct H as [c [Hin Hc]]. apply In_nth_error in Hin.
  destruct Hin as [p Hp]. exists p, c. split; [assumption|].
  now destruct (is_ws c).
Qed.

(** The chunker on a text that is a single space: the only window is
    empty once trimmed, and is dropped. *)
Example chunk_blank : chunk [32%N] 800 150 = Some [].
Proof. reflexivity. Qed.

Example chunk_words :
  chunk (lit "  open  9-5 ") 800 150 = Some [lit "open 9-5"].
Proof. reflexivity. Qed.

(** C4, as stated: not every non-empty text gives a chunk. *)
Lemma chunk_blank_counterexample :
  ~ (forall text : jsstring, text <> [] ->
       exists cs, chunk text 800 150 = Some cs /\ cs <> []).
Proof.
  intros H. destruct (H [32%N]) as [cs [Hcs Hne]]; [discriminate|].
  rewrite chunk_blank in Hcs. injection Hcs as <-. now apply Hne.
Qed.

(** C4, amended: on every text the chunker with window 800 and overlap 150
    returns, every chunk it returns is a non-empty string of at most 800
    code units, and there is at least one chunk as soon as the text has a
    character that is not white space. The result is a function of the
    text alone. *)
Theorem chunk_800_150 (text : jsstring) :
  exists cs,
    chunk text 800 150 = Some cs
    /\ Forall (fun c => c <> [] /\ (length c <= 800)%nat) cs
    /\ (has_ink text = true -> cs <> []).
Proof.
  unfold chunk.
  destruct (@chunk_loop_ends text 800 150 (length text) 0 [])
    as [out Hout]; [lia|].
  rewrite Hout. eexists. split; [reflexivity|]. split.
  - assert (Hw : Forall (fun w => (length w <= 800)%nat) out).
    { eapply chunk_loop_all with (P := fun w => (length w <= 800)%nat);
        [| | | | exact Hout]; [lia| |lia|constructor].
      intros j Hj. pose proof (@slice_length text j (j + 800) Hj). lia. }
    apply Forall_forall. intros c Hc. apply filter_In in Hc.
    destruct Hc as [Hc Ht]. split; [now apply truthy_nonempty|].
    apply in_map_iff in Hc. destruct Hc as [w [<- Hin]].
    rewrite Forall_forall in Hw. specialize (Hw w Hin).
    pose proof (normalise_length w). lia.
  - intros Hink. apply has_ink_nth in Hink. destruct Hink as [p [c [Hp Hc]]].
    assert (Hex : Exists (fun w => has_ink w = true) out).
    { eapply chunk_loop_ink with (overlap := 150%Z) (p := p);
        [| | | exact Hp | exact Hc | exact Hout]; lia. }
    apply Exists_exists in Hex. destruct Hex as [w [Hin Hw]].
    intros Hnil.
    assert (Hf : In (trim (collapse_ws w))
                    (filter truthy (map (fun s => trim (collapse_ws s)) out))).
    { apply filter_In. split.
      - apply in_map_iff. eauto.
      - apply truthy_nonempty, has_ink_nonempty.
        now rewrite has_ink_normalise. }
    rewrite Hnil in Hf. contradiction.
Qed.

Lemma chunk_800_150_witness :
  exists cs, chunk (lit "a b") 800 150 = Some cs /\ cs <> [].
Proof.
  destruct (chunk_800_150 (lit "a b")) as [cs [H1 [_ H2]]].
  exists cs. split; [exact H1 | apply H2; reflexivity].
Defined.

End ChunkerFacts.

(** ** The chat route *)

Module ChatFacts.
Import Chat Props JsStringFacts.

(** Unfolds the effects of a handler down to the calls of the oracles. *)
Ltac run :=
  cbv beta iota delta
    [bind ret ask emit modify throw try_catch diverge
     Service.fetch Service.select_tenant Service.select_settings
     Service.create_embedding Service.match_embeddings
     Service.create_completion to_string
     getTenantBySlug getTenantSettings ragSearch search generate].

(** *** The ranker *)

Lemma insert_desc_perm x l : Permutation (insert_desc x l) (x :: l).
Proof.
  induction l as [|y r IH]; simpl; [reflexivity|].
  destruct (negb (Qle_bool (score y - score x) 0)); [|reflexivity].
  rewrite IH. apply perm_swap.
Qed.

Lemma sort_desc_perm l : Permutation (sort_desc l) l.
Proof.
  induction l as [|x r IH]; simpl; [reflexivity|].
  rewrite insert_desc_perm. now constructor.
Qed.

Lemma insert_desc_sorted x l :
  StronglySorted desc l -> StronglySorted desc (insert_desc x l).
Proof.
  induction 1 as [|y r Hr IH Hy]; simpl.
  - repeat constructor.
  - destruct (Qle_bool (score y - score x) 0) eqn:E; simpl.
    + apply Qle_bool_iff in E.
      assert (Hxy : desc x y) by (unfold desc; lra).
      constructor; [now constructor|].
      constructor; [exact Hxy|].
      rewrite Forall_forall in *. intros z Hz. specialize (Hy z Hz).
      unfold desc in *. lra.
    + assert (Hyx : desc y x).
      { unfold desc. destruct (Qlt_le_dec 0 (score y - score x)) as [H|H];
          [lra|]. apply Qle_bool_iff in H. congruence. }
      constructor; [exact IH|].
      rewrite Forall_forall in *. intros z Hz.
      apply (Permutation_in _ (insert_desc_perm x r)) in Hz.
      destruct Hz as [<-|Hz]; auto.
Qed.

Lemma sort_desc_sorted l : StronglySorted desc (sort_desc l).
Proof.
  induction l as [|x r IH]; simpl; [constructor|].
  now apply insert_desc_sorted.
Qed.

(** Sorting a sorted array leaves it as it is. *)
Lemma sort_desc_fixed l : StronglySorted desc l -> sort_desc l = l.
Proof.
  induction 1 as [|x r Hr IH Hx]; simpl; [reflexivity|].
  rewrite IH. destruct r as [|y r']; simpl; [reflexivity|].
  apply Forall_inv in Hx. unfold desc in Hx.
  assert (E : Qle_bool (score y - score x) 0 = true)
    by (apply Qle_bool_iff; lra).
  now rewrite E.
Qed.

Lemma sort_desc_idem l : sort_desc (sort_desc l) = sort_desc l.
Proof. apply sort_desc_fixed, sort_desc_sorted. Qed.

Lemma sort_desc_length l : length (sort_desc l) = length l.
Proof. apply Permutation_length, sort_desc_perm. Qed.

Lemma filter_nonempty (A : Type) (f : A -> bool) l :
  (0 <? length (filter f l))%nat = existsb f l.
Proof.
  induction l as [|a l IH]; simpl; [reflexivity|].
  destruct (f a); simpl; [reflexivity | exact IH].
Qed.

Lemma top_is_sorted_pool t k scored :
  ChatSoft.top t k scored = firstn k (sort_desc (pool t scored)).
Proof.
  unfold ChatSoft.top, ChatSoft.above, pool.
  rewrite sort_desc_length, filter_nonempty.
  destruct (existsb (at_least t) scored); [|reflexivity].
  now rewrite sort_desc_idem.
Qed.

(** *** The stages of a request *)

(** The settings never fail the request. *)
Lemma getTenantSettings_total env t w :
  exists s w', getTenantSettings env t w = (Ok s, w')
               /\ generations w' = generations w.
Proof.
  run. unfold generations. simpl.
  destruct (db_settings env w t); eexists; eexists; (split; [reflexivity|]);
    simpl; now rewrite filter_app, length_app, Nat.add_0_r.
Qed.

(** The search never fails the request, and does not generate. *)
Lemma search_total env t q w :
  exists ms w', search env t q w = (Ok ms, w')
                /\ generations w' = generations w.
Proof.
  run. unfold generations. simpl.
  destruct (ai_embedding env w q) as [v|]; simpl.
  - destruct (db_match_embeddings env _ v 4 t) as [e|[data|]];
      eexists; eexists; (split; [reflexivity|]); simpl;
      now rewrite !filter_app, !length_app, !Nat.add_0_r.
  - eexists; eexists; (split; [reflexivity|]); simpl;
      now rewrite !filter_app, !length_app, !Nat.add_0_r.
Qed.

(** A failed embedding call or a failed vector search leaves no match. *)
Lemma search_recovers env t q w :
  (ai_embedding env w q = None
   \/ exists v e, ai_embedding env w q = Some v /\
        db_match_embeddings env
          (mkWorld (knowledge_items w) (embeddings w) (log w ++ [EvEmbed q]))
          v 4 t = inl e) ->
  exists w', search env t q w = (Ok [], w').
Proof.
  run. intros [H|[v [e [H1 H2]]]].
  - rewrite H. eexists. reflexivity.
  - rewrite H1. simpl. rewrite H2. eexists. reflexivity.
Qed.

Lemma getTenantBySlug_log env slug w t w' :
  getTenantBySlug env slug w = (Ok t, w') ->
  generations w' = generations w.
Proof.
  run. unfold generations. destruct (db_tenant env w slug); intros H;
    inversion H; subst; simpl.
  now rewrite filter_app, length_app, Nat.add_0_r.
Qed.

(** The generation stage calls the service exactly once, for a message
    that has a string, and not at all for one that has none. *)
Lemma generate_calls env tenant s message kb w q :
  js_string env message = Some q ->
  generations (snd (generate env tenant s message kb w)) = S (generations w).
Proof.
  intros Hq. run. rewrite Hq. unfold generations.
  destruct (ai_completion env w _) as [[c|]|]; simpl;
    rewrite filter_app, length_app; simpl; lia.
Qed.

Lemma generate_no_string env tenant s message kb w :
  js_string env message = None ->
  generate env tenant s message kb w = (Throw cannot_convert, w).
Proof. intros Hq. run. now rewrite Hq. Qed.

Lemma unusable_not_scored matches :
  Forall unusable matches -> ChatSoft.scored matches = [].
Proof.
  induction 1 as [|m l Hm Hl IH]; [reflexivity|].
  unfold ChatSoft.scored in *. simpl. rewrite IH.
  unfold ChatSoft.usable, numeric.
  destruct Hm as [H|[H|H]]; rewrite H; simpl;
    try reflexivity; now rewrite andb_false_r.
Qed.

(** The soft handler, once the tenant, the settings and the matches are
    there. *)
Lemma soft_POST_stages env req w slug tenant settings matches w1 w2 w3 :
  is_null (req_body req) = false ->
  truthy_json (message_of req) = true ->
  slug_of req = Some slug -> truthy_json slug = true ->
  has_slice (message_of req) = true ->
  getTenantBySlug env slug w = (Ok tenant, w1) ->
  getTenantSettings env (tenant_id tenant) w1 = (Ok settings, w2) ->
  search env (tenant_id tenant) (message_of req) w2 = (Ok matches, w3) ->
  ChatSoft.POST env req w =
    let scored := ChatSoft.scored matches in
    if debug_on req
    then (Ok (mkResponse 200 (ChatSoft.debug_json slug tenant settings scored)), w3)
    else if (length scored =? 0)%nat
    then (Ok (answer (fallback_message settings) settings false), w3)
    else
      match generate env tenant settings (message_of req)
              (map kb_line (ChatSoft.top ChatSoft.MIN_SIMILARITY 4 scored)) w3 with
      | (Ok text, w4) => (Ok (answer text settings true), w4)
      | (Throw e, w4) => (Ok (server_error e), w4)
      | (Diverge, w4) => (Diverge, w4)
      end.
Proof.
  intros Hn Hm Hs Hs' Hsl Ht Hset Hsearch.
  unfold ChatSoft.POST, try_catch at 1, bind.
  rewrite Hn, Hm, Hs, Hs', Hsl. unfold negb. cbv beta iota.
  rewrite Ht, Hset, Hsearch. cbv beta iota zeta. unfold ret.
  destruct (debug_on req); [reflexivity|].
  destruct (length (ChatSoft.scored matches) =? 0)%nat; [reflexivity|].
  destruct (generate _ _ _ _ _ _) as [[text|e|] w4]; reflexivity.
Qed.

(** The first version of the handler, in the same stages. *)
Lemma legacy_POST_stages env req w tenant settings matches w1 w2 w3 :
  is_null (req_body req) = false ->
  truthy_json (message_of req) = true ->
  getTenantBySlug env (ChatLegacy.slug_or_default req) w = (Ok tenant, w1) ->
  getTenantSettings env (tenant_id tenant) w1 = (Ok settings, w2) ->
  search env (tenant_id tenant) (message_of req) w2 = (Ok matches, w3) ->
  ChatLegacy.POST env req w =
    let kb := if (0 <? length matches)%nat then map kb_line matches
              else [lit "- Es sind noch keine Wissensinhalte hinterlegt."] in
    match generate env tenant settings (message_of req) kb w3 with
    | (Ok text, w4) =>
        (Ok (mkResponse 200
               (JObj [("text", JStr text);
                      ("welcome_message", JStr (welcome_message settings))]%string)),
         w4)
    | (Throw e, w4) => (Ok (server_error e), w4)
    | (Diverge, w4) => (Diverge, w4)
    end.
Proof.
  intros Hn Hm Ht Hset Hsearch.
  unfold ChatLegacy.POST, try_catch at 1, bind.
  rewrite Hn, Hm. unfold negb. cbv beta iota.
  rewrite Ht, Hset, Hsearch. cbv beta iota zeta. unfold ret.
  destruct (generate _ _ _ _ _ _) as [[text|e|] w4]; reflexivity.
Qed.

(** The hard handler, in the same stages. *)
Lemma hard_POST_stages env req w slug tenant settings matches w1 w2 w3 :
  is_null (req_body req) = false ->
  truthy_json (message_of req) = true ->
  slug_of req = Some slug -> truthy_json slug = true ->
  has_slice (message_of req) = true ->
  getTenantBySlug env slug w = (Ok tenant, w1) ->
  getTenantSettings env (tenant_id tenant) w1 = (Ok settings, w2) ->
  search env (tenant_id tenant) (message_of req) w2 = (Ok matches, w3) ->
  ChatHard.POST env req w =
    let relevant := ChatHard.relevantMatches ChatHard.MIN_SIMILARITY matches in
    if debug_on req
    then (Ok (mkResponse 200
                (ChatHard.debug_json slug tenant settings matches relevant)), w3)
    else if (length relevant =? 0)%nat
    then (Ok (answer (fallback_message settings) settings false), w3)
    else
      match generate env tenant settings (message_of req)
              (map kb_line relevant) w3 with
      | (Ok text, w4) => (Ok (answer text settings true), w4)
      | (Throw e, w4) => (Ok (server_error e), w4)
      | (Diverge, w4) => (Diverge, w4)
      end.
Proof.
  intros Hn Hm Hs Hs' Hsl Ht Hset Hsearch.
  unfold ChatHard.POST, try_catch at 1, bind.
  rewrite Hn, Hm, Hs, Hs', Hsl. unfold negb. cbv beta iota.
  rewrite Ht, Hset, Hsearch. cbv beta iota zeta. unfold ret.
  destruct (debug_on req); [reflexivity|].
  destruct (length (ChatHard.relevantMatches _ matches) =? 0)%nat; [reflexivity|].
  destruct (generate _ _ _ _ _ _) as [[text|e|] w4]; reflexivity.
Qed.



(** A request without a message, or without a slug, stops the soft and the
    hard handler before any call. *)
Lemma soft_POST_bad_request env req w :
  is_null (req_body req) = false ->
  truthy_json (message_of req) = false \/ truthy_member (slug_of req) = false ->
  exists message, ChatSoft.POST env req w = (Ok (bad_request message), w).
Proof.
  unfold ChatSoft.POST, try_catch, bind, truthy_member. intros ->.
  destruct (truthy_json (message_of req)); simpl.
  - intros [H|H]; [discriminate|].
    destruct (slug_of req) as [slug|]; [rewrite H|]; simpl; eauto.
  - eauto.
Qed.

(** A body that is [null] ends the request with status 500, before any
    call. *)
Lemma soft_POST_null env req w :
  is_null (req_body req) = true ->
  ChatSoft.POST env req w = (Ok (server_error null_body), w).
Proof.
  unfold ChatSoft.POST, try_catch, bind, throw. now intros ->.
Qed.

(** So does a message that cannot be sliced. *)
Lemma soft_POST_no_slice env req w slug :
  is_null (req_body req) = false ->
  truthy_json (message_of req) = true ->
  slug_of req = Some slug -> truthy_json slug = true ->
  has_slice (message_of req) = false ->
  ChatSoft.POST env req w = (Ok (server_error no_slice), w).
Proof.
  unfold ChatSoft.POST, try_catch, bind, throw.
  now intros -> -> -> -> ->.
Qed.

Lemma hard_POST_bad_request env req w :
  is_null (req_body req) = false ->
  truthy_json (message_of req) = false \/ truthy_member (slug_of req) = false ->
  exists message, ChatHard.POST env req w = (Ok (bad_request message), w).
Proof.
  unfold ChatHard.POST, try_catch, bind, truthy_member. intros ->.
  destruct (truthy_json (message_of req)); simpl.
  - intros [H|H]; [discriminate|].
    destruct (slug_of req) as [slug|]; [rewrite H|]; simpl; eauto.
  - eauto.
Qed.

(** A body that is [null] ends the request with status 500, before any
    call. *)
Lemma hard_POST_null env req w :
  is_null (req_body req) = true ->
  ChatHard.POST env req w = (Ok (server_error null_body), w).
Proof.
  unfold ChatHard.POST, try_catch, bind, throw. now intros ->.
Qed.

(** So does a message that cannot be sliced. *)
Lemma hard_POST_no_slice env req w slug :
  is_null (req_body req) = false ->
  truthy_json (message_of req) = true ->
  slug_of req = Some slug -> truthy_json slug = true ->
  has_slice (message_of req) = false ->
  ChatHard.POST env req w = (Ok (server_error no_slice), w).
Proof.
  unfold ChatHard.POST, try_catch, bind, throw.
  now intros -> -> -> -> ->.
Qed.

Lemma legacy_POST_bad_request env req w :
  is_null (req_body req) = false ->
  truthy_json (message_of req) = false ->
  ChatLegacy.POST env req w = (Ok (bad_request (lit "message required")), w).
Proof.
  unfold ChatLegacy.POST, try_catch, bind. now intros -> ->.
Qed.

Lemma legacy_POST_null env req w :
  is_null (req_body req) = true ->
  ChatLegacy.POST env req w = (Ok (server_error null_body), w).
Proof.
  unfold ChatLegacy.POST, try_catch, bind, throw. now intros ->.
Qed.

(** A tenant that is not found ends the request with status 500. *)
Lemma soft_POST_no_tenant env req w slug e w1 :
  is_null (req_body req) = false ->
  truthy_json (message_of req) = true ->
  slug_of req = Some slug -> truthy_json slug = true ->
  has_slice (message_of req) = true ->
  getTenantBySlug env slug w = (Throw e, w1) ->
  ChatSoft.POST env req w = (Ok (server_error e), w1).
Proof.
  intros Hn Hm Hs Hs' Hsl Ht. unfold ChatSoft.POST, try_catch at 1, bind.
  rewrite Hn, Hm, Hs, Hs', Hsl. unfold negb. cbv beta iota. now rewrite Ht.
Qed.

Lemma hard_POST_no_tenant env req w slug e w1 :
  is_null (req_body req) = false ->
  truthy_json (message_of req) = true ->
  slug_of req = Some slug -> truthy_json slug = true ->
  has_slice (message_of req) = true ->
  getTenantBySlug env slug w = (Throw e, w1) ->
  ChatHard.POST env req w = (Ok (server_error e), w1).
Proof.
  intros Hn Hm Hs Hs' Hsl Ht. unfold ChatHard.POST, try_catch at 1, bind.
  rewrite Hn, Hm, Hs, Hs', Hsl. unfold negb. cbv beta iota. now rewrite Ht.
Qed.

Lemma legacy_POST_no_tenant env req w e w1 :
  is_null (req_body req) = false ->
  truthy_json (message_of req) = true ->
  getTenantBySlug env (ChatLegacy.slug_or_default req) w = (Throw e, w1) ->
  ChatLegacy.POST env req w = (Ok (server_error e), w1).
Proof.
  intros Hn Hm Ht. unfold ChatLegacy.POST, try_catch at 1, bind.
  rewrite Hn, Hm. unfold negb. cbv beta iota. now rewrite Ht.
Qed.




(** *** The log only grows *)





(** *** The claims on the chat route *)

Example soft_one_strong :
  map similarity (ChatSoft.top (1 # 2) 4 (ChatSoft.scored Sample.one_strong))
  = [Some (9 # 10)].
Proof. reflexivity. Qed.

Example soft_two_weak :
  map similarity (ChatSoft.top (1 # 2) 4 (ChatSoft.scored Sample.two_weak))
  = [Some (3 # 10); Some (2 # 10)].
Proof. reflexivity. Qed.

Example hard_two_weak :
  ChatHard.POST (Sample.env [] [] None Sample.two_weak) Sample.question
                Sample.empty_world
  = (Ok (answer (lit "Dazu habe ich nichts.") Sample.settings false),
     mkWorld [] []
       [EvTenantLookup (JStr (lit "demo")); EvSettingsLookup (lit "t1");
        EvEmbed (JStr (lit "What are your hours?")); EvMatchEmbeddings (lit "t1") 4]).
Proof. reflexivity. Qed.

(** C1, as stated, on the hard handler: the two matches of the second
    example are usable, none clears the threshold, and the ranker does
    not fall back on them; the handler, with its own threshold, answers
    with the fallback message. *)
Lemma hard_ranker_counterexample :
  ChatSoft.scored Sample.two_weak = Sample.two_weak
  /\ map similarity (ChatHard.relevantMatches (1 # 2) Sample.two_weak)
     <> [Some (3 # 10); Some (2 # 10)]
  /\ fst (ChatHard.POST (Sample.env [] [] None Sample.two_weak)
                        Sample.question Sample.empty_world)
     = Ok (answer (fallback_message Sample.settings) Sample.settings false).
Proof. split; [reflexivity|]. split; [discriminate | reflexivity]. Qed.

(** C1, amended. The soft ranker ([part_000]) returns the [k] first of the
    pool sorted by descending similarity, where the pool is the usable
    matches at or above the threshold when there is one and all the usable
    matches otherwise; it is silent only where no match is usable; with
    threshold 0.5 the scores 0.9, 0.3, 0.1 give 0.9 and the scores 0.3,
    0.2 give 0.3, 0.2. The hard ranker ([part_002]) returns exactly the
    matches whose similarity is a number at or above the threshold, and
    nothing where no match clears it. *)
Theorem soft_and_hard_rankers (t : Q) (k : nat) (matches : list RagMatch) :
  (exists ranked,
      Permutation ranked (pool t (ChatSoft.scored matches))
      /\ StronglySorted desc ranked
      /\ ChatSoft.top t k (ChatSoft.scored matches) = firstn k ranked)
  /\ (length (ChatSoft.top t k (ChatSoft.scored matches)) <= k)%nat
  /\ (ChatSoft.scored matches <> [] -> (0 < k)%nat ->
      ChatSoft.top t k (ChatSoft.scored matches) <> [])
  /\ map similarity (ChatSoft.top (1 # 2) 4 (ChatSoft.scored Sample.one_strong))
     = [Some (9 # 10)]
  /\ map similarity (ChatSoft.top (1 # 2) 4 (ChatSoft.scored Sample.two_weak))
     = [Some (3 # 10); Some (2 # 10)]
  /\ (forall m, In m (ChatHard.relevantMatches t matches) <->
                In m matches /\ exists q, similarity m = Some q /\ t <= q)
  /\ ((forall m q, In m matches -> similarity m = Some q -> ~ t <= q) ->
      ChatHard.relevantMatches t matches = []).
Proof.
  assert (Hhard : forall m, In m (ChatHard.relevantMatches t matches) <->
                In m matches /\ exists q, similarity m = Some q /\ t <= q).
  { intros m. unfold ChatHard.relevantMatches. rewrite filter_In.
    unfold numeric, at_least, score.
    split; intros [Hin H]; (split; [exact Hin|]).
    - destruct (similarity m) as [q|]; [|discriminate].
      exists q. split; [reflexivity|]. now apply Qle_bool_iff.
    - destruct H as [q [-> Hq]]. now apply Qle_bool_iff in Hq. }
  split; [|split; [|split; [|split; [|split; [|split]]]]].
  - exists (sort_desc (pool t (ChatSoft.scored matches))).
    split; [apply sort_desc_perm|]. split; [apply sort_desc_sorted|].
    apply top_is_sorted_pool.
  - rewrite top_is_sorted_pool. apply firstn_le_length.
  - intros Hne Hk. rewrite top_is_sorted_pool.
    assert (Hpool : pool t (ChatSoft.scored matches) <> []).
    { unfold pool. destruct (existsb _ _) eqn:E; [|exact Hne].
      rewrite <- filter_nonempty in E. intros Hnil. now rewrite Hnil in E. }
    assert (Hs : sort_desc (pool t (ChatSoft.scored matches)) <> []).
    { intros Hnil. apply Hpool. apply Permutation_nil.
      rewrite <- Hnil. apply sort_desc_perm. }
    destruct (sort_desc _); [congruence|]. destruct k; [lia|]. discriminate.
  - reflexivity.
  - reflexivity.
  - exact Hhard.
  - intros Hnone. destruct (ChatHard.relevantMatches t matches) as [|m l] eqn:E;
      [reflexivity|].
    destruct (proj1 (Hhard m)) as [Hin [q [Hq Hle]]];
      [now left|].
    exfalso. exact (Hnone m q Hin Hq Hle).
Qed.

Lemma soft_and_hard_rankers_witness :
  ChatSoft.top (1 # 2) 4 (ChatSoft.scored Sample.two_weak) <> [].
Proof.
  apply (proj1 (proj2 (proj2
           (soft_and_hard_rankers (1 # 2) 4 Sample.two_weak))));
    [discriminate | lia].
Defined.

Example legacy_on_no_match :
  ChatLegacy.POST (Sample.env [] [] None []) Sample.question Sample.empty_world
  = (Ok (mkResponse 200
           (JObj [("text", JStr (lit "Mo-Fr 9-5"));
                  ("welcome_message", JStr (lit "Willkommen"))]%string)),
     mkWorld [] []
       [EvTenantLookup (JStr (lit "demo")); EvSettingsLookup (lit "t1");
        EvEmbed (JStr (lit "What are your hours?")); EvMatchEmbeddings (lit "t1") 4;
        EvGenerate
          (mkPrompt (lit "Demo GmbH") (lit "Dazu habe ich nichts.")
             (lit "What are your hours?")
             [lit "- Es sind noch keine Wissensinhalte hinterlegt."])]).
Proof. reflexivity. Qed.

Example soft_debug_on_no_match :
  fst (ChatSoft.POST (Sample.env [] [] None []) Sample.question_debug
                     Sample.empty_world)
  = Ok (mkResponse 200
          (ChatSoft.debug_json (JStr (lit "demo")) Sample.tenant Sample.settings [])).
Proof. reflexivity. Qed.

(** C2, as stated: with no match at all, the first version of the handler
    calls the generation service and answers with its text, and the soft
    handler asked with [debug=1] answers with the raw data. *)
Lemma no_match_counterexample :
  (let out := ChatLegacy.POST (Sample.env [] [] None []) Sample.question
                              Sample.empty_world in
   generations (snd out) = 1%nat
   /\ exists r, fst out = Ok r
                /\ field "text" (body r) = Some (JStr (lit "Mo-Fr 9-5"))
                /\ field "from_kb" (body r) = None)
  /\ (let out := ChatSoft.POST (Sample.env [] [] None []) Sample.question_debug
                               Sample.empty_world in
      exists r, fst out = Ok r /\ field "text" (body r) = None).
Proof.
  split.
  - split; [reflexivity|]. eexists. split; [reflexivity|]. split; reflexivity.
  - eexists. split; reflexivity.
Qed.

(** C2, amended. Take a request whose body is not [null], with a message
    and a slug, whose tenant is found, and whose vector search leaves only
    matches with an empty content or without a numeric score (none at
    all when the embedding call or the vector search fails, see
    [search_recovers]). Up to there the generation service is not called.
    The soft handler ([part_000]), which gets as far as the search only
    with a message that it can slice, then answers with the tenant's
    fallback message and [from_kb = false], still without a call to the
    generation service, unless the request has [debug=1], where it
    answers with the raw data; a message that it cannot slice is answered
    with status 500 before any call. The first version ([part_001]) calls
    the generation service once, right after the search, where the
    message has a string: the prompt has that string for question, and
    for knowledge one line ["- " + content] for every match that the
    search returned, usable or not, and the placeholder line only when
    the search returned no match at all; its response has no [from_kb],
    and is made of the text that the service gives. A message without a
    string gets status 500 from it, without a call to the generation
    service. *)
Theorem no_knowledge_fallback env req w slug tenant settings matches w1 w2 w3 :
  is_null (req_body req) = false ->
  truthy_json (message_of req) = true ->
  slug_of req = Some slug -> truthy_json slug = true ->
  getTenantBySlug env slug w = (Ok tenant, w1) ->
  getTenantSettings env (tenant_id tenant) w1 = (Ok settings, w2) ->
  search env (tenant_id tenant) (message_of req) w2 = (Ok matches, w3) ->
  Forall unusable matches ->
  generations w3 = generations w
  /\ (has_slice (message_of req) = true -> debug_on req = false ->
      ChatSoft.POST env req w
      = (Ok (answer (fallback_message settings) settings false), w3))
  /\ (has_slice (message_of req) = true -> debug_on req = true ->
      ChatSoft.POST env req w
      = (Ok (mkResponse 200 (ChatSoft.debug_json slug tenant settings [])), w3))
  /\ (has_slice (message_of req) = false ->
      ChatSoft.POST env req w = (Ok (server_error no_slice), w))
  /\ (forall question,
        js_string env (message_of req) = Some question ->
        generations (snd (ChatLegacy.POST env req w)) = S (generations w)
        /\ exists p r,
             ChatLegacy.POST env req w = (Ok r, logged w3 [EvGenerate p])
             /\ prompt_question p = question
             /\ (matches = [] ->
                 prompt_kb p
                 = [lit "- Es sind noch keine Wissensinhalte hinterlegt."])
             /\ (matches <> [] -> prompt_kb p = map kb_line matches)
             /\ has_field "from_kb" (body r) = false
             /\ (forall text,
                   ai_completion env w3 p = Some (Some text) ->
                   r = mkResponse 200
                         (JObj [("text", JStr text);
                                ("welcome_message",
                                 JStr (welcome_message settings))]%string)))
  /\ (js_string env (message_of req) = None ->
      ChatLegacy.POST env req w = (Ok (server_error cannot_convert), w3)).
Proof.
  intros Hn Hm Hs Hs' Ht Hset Hsearch Hun.
  assert (Hgen : generations w3 = generations w).
  { destruct (getTenantSettings_total env (tenant_id tenant) w1)
      as [s' [w2' [E2 G2]]].
    destruct (search_total env (tenant_id tenant) (message_of req) w2)
      as [ms' [w3' [E3 G3]]].
    rewrite Hset in E2. rewrite Hsearch in E3.
    inversion E2; inversion E3; subst.
    rewrite G3, G2. exact (getTenantBySlug_log env slug w Ht). }
  split; [exact Hgen|].
  split.
  { intros Hsl Hd.
    rewrite (soft_POST_stages _ _ _ Hn Hm Hs Hs' Hsl Ht Hset Hsearch).
    rewrite (unusable_not_scored Hun). cbv zeta. now rewrite Hd. }
  split.
  { intros Hsl Hd.
    rewrite (soft_POST_stages _ _ _ Hn Hm Hs Hs' Hsl Ht Hset Hsearch).
    rewrite (unusable_not_scored Hun). cbv zeta. now rewrite Hd. }
  split; [intros Hsl; exact (soft_POST_no_slice env req w Hn Hm Hs Hs' Hsl)|].
  assert (Hslug : ChatLegacy.slug_or_default req = slug)
    by (unfold ChatLegacy.slug_or_default; now rewrite Hs).
  rewrite <- Hslug in Ht.
  rewrite (legacy_POST_stages _ _ _ Hn Hm Ht Hset Hsearch). cbv zeta.
  set (kb := if (0 <? length matches)%nat then map kb_line matches
             else [lit "- Es sind noch keine Wissensinhalte hinterlegt."]).
  split; [|intros Hq; now rewrite (@generate_no_string env tenant settings (message_of req) kb w3 Hq)].
  intros question Hq. split.
  { pose proof (@generate_calls env tenant settings (message_of req) kb w3
                  question Hq) as Hcalls.
    destruct (generate _ _ _ _ _ _) as [[text|e|] w4]; simpl in *;
      now rewrite Hcalls, Hgen. }
  set (p := mkPrompt (tenant_name tenant) (fallback_message settings)
                     question kb).
  exists p.
  assert (Hkb1 : matches = [] ->
                 prompt_kb p = [lit "- Es sind noch keine Wissensinhalte hinterlegt."])
    by (intros ->; reflexivity).
  assert (Hkb2 : matches <> [] -> prompt_kb p = map kb_line matches)
    by (destruct matches; [congruence | reflexivity]).
  unfold generate. run. rewrite Hq. fold p.
  destruct (ai_completion env w3 p) as [[c|]|] eqn:Ec; cbv beta iota;
    eexists; (split; [reflexivity|]);
    (split; [reflexivity|]); (split; [exact Hkb1|]); (split; [exact Hkb2|]);
    (split; [reflexivity|]); intros text Htext; congruence.
Qed.

Lemma no_knowledge_fallback_witness :
  ChatSoft.POST (Sample.env [] [] None Sample.junk) Sample.question
                Sample.empty_world
  = (Ok (answer (lit "Dazu habe ich nichts.") Sample.settings false),
     mkWorld [] []
       [EvTenantLookup (JStr (lit "demo")); EvSettingsLookup (lit "t1");
        EvEmbed (JStr (lit "What are your hours?"));
        EvMatchEmbeddings (lit "t1") 4]).
Proof.
  refine (proj1 (proj2
    (@no_knowledge_fallback (Sample.env [] [] None Sample.junk)
       Sample.question Sample.empty_world (JStr (lit "demo")) Sample.tenant
       Sample.settings Sample.junk
       (mkWorld [] [] [EvTenantLookup (JStr (lit "demo"))])
       (mkWorld [] []
          [EvTenantLookup (JStr (lit "demo")); EvSettingsLookup (lit "t1")])
       _ _ _ _ _ _ _ _ _)) _ _); try reflexivity.
  constructor; [right; right; reflexivity|].
  constructor; [left; reflexivity|]. constructor.
Defined.







Example soft_on_no_match :
  ChatSoft.POST (Sample.env [] [] None []) Sample.question Sample.empty_world
  = (Ok (answer (lit "Dazu habe ich nichts.") Sample.settings false),
     mkWorld [] []
       [EvTenantLookup (JStr (lit "demo")); EvSettingsLookup (lit "t1");
        EvEmbed (JStr (lit "What are your hours?")); EvMatchEmbeddings (lit "t1") 4]).
Proof. reflexivity. Qed.

End ChatFacts.

(** ** The admin scrape route *)

Module AdminFacts.
Import AdminScrape Props JsStringFacts.

Ltac run :=
  cbv beta iota delta
    [bind ret ask emit modify throw try_catch diverge
     Service.fetch Service.select_tenant
     Service.delete_embeddings Service.delete_knowledge_items
     Service.insert_knowledge_item Service.insert_embedding
     Service.create_embedding store_embedding
     getTenantBySlug normalizeUrl].

Lemma url_eqb_eq a b : Url.eqb a b = true <-> a = b.
Proof. unfold Url.eqb. destruct (Url.eq_dec a b); split; congruence. Qed.

Lemma has_In s u : has s u = true <-> In u s.
Proof.
  unfold has. rewrite existsb_exists. split.
  - intros [x [Hin Hx]]. apply url_eqb_eq in Hx. now subst.
  - intros H. exists u. split; [exact H | now apply url_eqb_eq].
Qed.

Lemma has_false s u : has s u = false <-> ~ In u s.
Proof.
  rewrite <- has_In. destruct (has s u); split; congruence.
Qed.

Lemma add_new s u : has s u = false -> Url.add s u = s ++ [u].
Proof. unfold Url.add. now intros ->. Qed.

Lemma same_origin_eq a b : same_origin a b = true <-> origin a = origin b.
Proof.
  unfold same_origin. apply eqb_eq.
Qed.

(** *** Running the effects *)

Lemma bind_ok (A B : Type) (m : M A) (k : A -> M B) w a w' :
  m w = (Ok a, w') -> bind m k w = k a w'.
Proof. unfold bind. now intros ->. Qed.

Lemma fetch_run env u w :
  Service.fetch env u w = (Ok (net_fetch env w u), logged w [EvFetch u]).
Proof. reflexivity. Qed.

Lemma fetched_app a b : fetched (a ++ b) = fetched a ++ fetched b.
Proof. apply flat_map_app. Qed.

(** The embedding block never throws, leaves [knowledge_items] alone, and
    sends at most one row, whose content is the first 8000 code units of
    the text. *)
Lemma store_embedding_cases env tenant text w :
  exists w' sent,
    store_embedding env tenant text w = (Ok tt, w')
    /\ knowledge_items w' = knowledge_items w
    /\ log w' = log w ++ EvEmbed (JStr (slice text 0 8000))
                         :: map EvInsertEmbedding sent
    /\ Forall (fun e => emb_content e = slice text 0 8000) sent.
Proof.
  run. destruct (ai_embedding env w (JStr (slice text 0 8000))) as [v|]; simpl.
  - destruct (db_insert_embedding_error env _ _) as [e|]; simpl;
      eexists;
      exists [mkEmbeddingRecord (tenant_id tenant) (slice text 0 8000) v];
      simpl; rewrite <- ?app_assoc; repeat split; repeat constructor.
  - eexists; exists []; repeat split; constructor.
Qed.

Lemma insert_knowledge_run env row w :
  Service.insert_knowledge_item env row w =
    match db_insert_knowledge_error env w row with
    | Some e => (Ok (Some e), logged w [EvInsertKnowledge row])
    | None =>
        (Ok None,
         mkWorld (knowledge_items w ++ [row]) (embeddings w)
                 (log w ++ [EvInsertKnowledge row]))
    end.
Proof.
  run. destruct (db_insert_knowledge_error env w row); reflexivity.
Qed.

(** *** The links *)

Lemma dedup_In l : forall acc u,
  In u (fold_left Url.add l acc) -> In u acc \/ In u l.
Proof.
  induction l as [|x l IH]; intros acc u H; simpl in *; [now left|].
  apply IH in H. destruct H as [H|H]; [|now right; right].
  unfold Url.add in H. destruct (has acc x); [now left|].
  apply in_app_or in H. destruct H as [H|[H|[]]]; [now left | now right; left].
Qed.

Lemma extractLinks_same_origin env html base :
  Forall (fun l => same_origin l base = true) (extractLinks env html base).
Proof.
  apply Forall_forall. intros u Hu. unfold extractLinks, dedup in Hu.
  apply dedup_In in Hu. destruct Hu as [[]|Hu].
  apply in_flat_map in Hu. destruct Hu as [href [_ Hu]].
  destruct (negb (truthy href)); [destruct Hu|].
  destruct (startsWith href (lit "#")); [destruct Hu|].
  destruct (startsWith href (lit "mailto:") || startsWith href (lit "tel:"));
    [destruct Hu|].
  destruct (url_resolve env href base) as [url|]; [|destruct Hu].
  destruct (same_origin url base) eqn:E; [|destruct Hu].
  destruct Hu as [<-|[]]. exact E.
Qed.

(** *** One turn of the loop *)

Lemma slice_slice text :
  slice (slice text 0 12000) 0 8000 = slice text 0 8000.
Proof.
  rewrite !slice_prefix by lia. rewrite firstn_firstn. f_equal.
Qed.

Lemma in_firstn (A : Type) (x : A) n l : In x (firstn n l) -> In x l.
Proof.
  intros H. rewrite <- (firstn_skipn n l). apply in_or_app. now left.
Qed.

Lemma filter_firstn_length (A : Type) (f : A -> bool) n l :
  (length (filter f (firstn n l)) <= n)%nat.
Proof.
  etransitivity; [apply filter_length_le|]. apply firstn_le_length.
Qed.

(** A page that was visited before is dropped from the queue. *)
Lemma iteration_seen env tenant base st w current rest :
  queue st = current :: rest -> has (visited st) current = true ->
  iteration env tenant base st w
  = (Ok (mkCrawl (visited st) rest (createdItems st)), w).
Proof. unfold iteration. now intros -> ->. Qed.

Lemma turn_skip base current rest st w evs :
  fetched evs = [] -> embeddings_sent evs = [] ->
  turn base current rest st (skip st current rest) w
       (logged w (EvFetch current :: evs)).
Proof.
  intros Hf He.
  apply (@mkTurn base current rest st (skip st current rest) w
           (logged w (EvFetch current :: evs)) [] evs [] []);
    simpl; rewrite ?app_nil_r; auto; [lia|].
  rewrite He. intros e [].
Qed.

(** A page that was not visited before: the turn throws, after the fetch,
    exactly when the body of an OK response cannot be read. *)
Lemma iteration_fresh env tenant base st w current rest :
  queue st = current :: rest -> has (visited st) current = false ->
  (net_fetch env w current = FetchResponse true None
   /\ iteration env tenant base st w
      = (Throw (lit "body failed"), logged w [EvFetch current]))
  \/ (readable env w current
      /\ exists st' w',
           iteration env tenant base st w = (Ok st', w')
           /\ turn base current rest st st' w w').
Proof.
  intros Hq Hv. unfold iteration, readable.
  rewrite Hq, Hv, (add_new _ _ Hv).
  rewrite (@bind_ok _ _ _ _ _ _ _ (fetch_run env current w)).
  destruct (net_fetch env w current) as [|[|] [html|]];
    try (right; split; [discriminate|]; eexists; eexists;
         split; [reflexivity|];
         apply (@turn_skip base current rest st w []); reflexivity);
    [|left; split; reflexivity].
  right. split; [discriminate|].
  destruct (negb (truthy (extractText env html))
            || (length (extractText env html) <? 200)%nat);
    try (eexists; eexists; split; [reflexivity|];
         apply (@turn_skip base current rest st w []); reflexivity).
  set (text := extractText env html).
  set (row := mkKnowledgeItem (tenant_id tenant) (Some (page_title base current))
                              (slice text 0 12000) (Some current) None).
  pose proof (insert_knowledge_run env row (logged w [EvFetch current]))
    as Hins.
  destruct (db_insert_knowledge_error env (logged w [EvFetch current]) row)
    as [err|].
  - rewrite (@bind_ok _ _ _ _ _ _ _ Hins).
    eexists; eexists; split; [reflexivity|].
    unfold logged. simpl. rewrite <- app_assoc.
    apply (@turn_skip base current rest st w [EvInsertKnowledge row]);
      reflexivity.
  - rewrite (@bind_ok _ _ _ _ _ _ _ Hins).
    match goal with
    | |- context [bind (store_embedding env tenant text) _ ?w1] =>
        destruct (store_embedding_cases env tenant text w1)
          as [w2 [sent [Hrun [Hki [Hlog Hsent]]]]];
        rewrite (@bind_ok _ _ _ _ _ _ _ Hrun)
    end.
    simpl in Hki, Hlog.
    assert (Hcontents : forall e,
      In e (embeddings_sent
              (EvInsertKnowledge row :: EvEmbed (JStr (slice text 0 8000))
                 :: map EvInsertEmbedding sent)) ->
      exists k, In k (knowledge_sent
              (EvInsertKnowledge row :: EvEmbed (JStr (slice text 0 8000))
                 :: map EvInsertEmbedding sent))
                /\ emb_content e = slice (ki_content k) 0 8000).
    { intros e He. exists row. split; [now left|].
      simpl. rewrite slice_slice.
      simpl in He. rewrite Forall_forall in Hsent. apply Hsent.
      clear - He. induction sent as [|x l IH]; simpl in *; [destruct He|].
      destruct He as [->|He]; [now left | right; auto]. }
    assert (Hfetched : fetched
              (EvInsertKnowledge row :: EvEmbed (JStr (slice text 0 8000))
                 :: map EvInsertEmbedding sent) = []).
    { simpl. clear. induction sent; simpl; auto. }
    destruct (Url.eqb current base) eqn:Hbase.
    + apply url_eqb_eq in Hbase.
      eexists; eexists; split; [reflexivity|].
      eapply (@mkTurn base current rest st _ w w2
                (filter (fun l => negb (has (visited st ++ [current]) l))
                        (firstn 10 (extractLinks env html base)))
                (EvInsertKnowledge row :: EvEmbed (JStr (slice text 0 8000))
                   :: map EvInsertEmbedding sent)
                [row] [(current, page_title base current)]);
        cbn [queue visited createdItems]; try reflexivity; auto.
      * apply filter_firstn_length.
      * apply Forall_forall. intros l Hl. apply filter_In in Hl.
        destruct Hl as [Hl _]. apply in_firstn in Hl.
        pose proof (extractLinks_same_origin env html base) as Hall.
        rewrite Forall_forall in Hall. now apply Hall.
      * rewrite Hlog. rewrite <- !app_assoc. reflexivity.
    + eexists; eexists; split; [reflexivity|].
      eapply (@mkTurn base current rest st _ w w2 []
                (EvInsertKnowledge row :: EvEmbed (JStr (slice text 0 8000))
                   :: map EvInsertEmbedding sent)
                [row] [(current, page_title base current)]);
        cbn [queue visited createdItems]; rewrite ?app_nil_r;
        try reflexivity; auto; try (simpl; lia).
      rewrite Hlog. rewrite <- !app_assoc. reflexivity.
Qed.

(** An entry is added to [createdItems] exactly for a stored page, and a
    page that is not stored changes neither the tables nor the rest of
    the queue. *)
Lemma iteration_counts env tenant base st w current rest :
  queue st = current :: rest -> has (visited st) current = false ->
  readable env w current ->
  exists st' w',
    iteration env tenant base st w = (Ok st', w')
    /\ createdItems st' =
         createdItems st
         ++ (if stored env tenant base current w
             then [(current, page_title base current)] else [])
    /\ (stored env tenant base current w = false ->
        st' = skip st current rest
        /\ knowledge_items w' = knowledge_items w
        /\ embeddings w' = embeddings w).
Proof.
  intros Hq Hv Hread. unfold iteration, stored. unfold readable in Hread.
  rewrite Hq, Hv, (add_new _ _ Hv).
  rewrite (@bind_ok _ _ _ _ _ _ _ (fetch_run env current w)).
  destruct (net_fetch env w current) as [|[|] [html|]];
    try congruence;
    try (eexists; eexists; split; [reflexivity|]; split;
         [now rewrite app_nil_r | intros _; repeat split]).
  cbv zeta.
  destruct (truthy (extractText env html)); cbn [negb orb andb];
    [|eexists; eexists; split; [reflexivity|]; split;
      [now rewrite app_nil_r | intros _; repeat split]].
  destruct (length (extractText env html) <? 200)%nat; cbn [negb orb andb];
    [eexists; eexists; split; [reflexivity|]; split;
      [now rewrite app_nil_r | intros _; repeat split]|].
  pose proof (insert_knowledge_run env
                (page_row tenant base current (extractText env html))
                (logged w [EvFetch current])) as Hins.
  unfold page_row in *.
  destruct (db_insert_knowledge_error env (logged w [EvFetch current]) _)
    as [err|].
  - rewrite (@bind_ok _ _ _ _ _ _ _ Hins).
    eexists; eexists; split; [reflexivity|]. split;
      [now rewrite app_nil_r | intros _; repeat split].
  - rewrite (@bind_ok _ _ _ _ _ _ _ Hins).
    match goal with
    | |- context [bind (store_embedding env tenant ?text) _ ?w1] =>
        destruct (store_embedding_cases env tenant text w1)
          as [w2 [sent [Hrun _]]];
        rewrite (@bind_ok _ _ _ _ _ _ _ Hrun)
    end.
    destruct (Url.eqb current base);
      (eexists; eexists; split; [reflexivity|]; split;
       [reflexivity | discriminate]).
Qed.


(** *** The loop *)

Lemma crawl_loop_step fuel env tenant base st w :
  crawl_loop (S fuel) env tenant base st w =
    if (0 <? length (queue st))%nat && (length (visited st) <? maxPages)%nat
    then bind (iteration env tenant base st)
              (fun st' => crawl_loop fuel env tenant base st') w
    else (Ok st, w).
Proof.
  simpl. destruct ((0 <? length (queue st))%nat
                   && (length (visited st) <? maxPages)%nat); reflexivity.
Qed.

Lemma has_app s u v : has (s ++ [v]) u = has s u || Url.eqb u v.
Proof. unfold has. rewrite existsb_app. simpl. now rewrite orb_false_r. Qed.

Lemma crawl_inv_start base w : crawl_inv base w (mkCrawl [] [base] []) w.
Proof.
  constructor; simpl.
  - constructor.
  - unfold maxPages. lia.
  - constructor.
  - repeat constructor.
  - right. split; reflexivity.
  - now rewrite app_nil_r.
  - exists []. now rewrite app_nil_r.
Qed.

Lemma bind_throw (A B : Type) (m : M A) (k : A -> M B) w e w' :
  m w = (Throw e, w') -> bind m k w = (Throw e, w').
Proof. unfold bind. now intros ->. Qed.

Lemma crawled_at_exit base w0 st w :
  crawl_inv base w0 st w ->
  (0 <? length (queue st))%nat && (length (visited st) <? maxPages)%nat = false ->
  crawled base w0 w (visited st).
Proof.
  intros [Hnd Hb Hv _ Hseed Hf _] Hguard. constructor; auto.
  destruct Hseed as [Hs|[Hs Hq]]; [exact Hs|].
  rewrite Hs, Hq in Hguard. discriminate.
Qed.

(** The loop ends in as many turns as [turns_left] tells, with a state or
    with the error of a body that could not be read, and what it visited
    is as [crawled] tells. *)
Lemma crawl_loop_inv env tenant base w0 : forall fuel st w,
  crawl_inv base w0 st w -> (turns_left base st <= fuel)%nat ->
  exists r w' v,
    crawl_loop fuel env tenant base st w = (r, w')
    /\ crawled base w0 w' v
    /\ ((exists st', r = Ok st' /\ visited st' = v /\ crawl_inv base w0 st' w')
        \/ exists e, r = Throw e).
Proof.
  induction fuel as [|fuel IH]; intros st w Hinv Hfuel.
  - unfold turns_left in Hfuel. destruct (queue st) eqn:Hq;
      [|simpl in Hfuel; lia].
    simpl. rewrite Hq. simpl. exists (Ok st), w, (visited st).
    split; [reflexivity|]. split.
    + apply crawled_at_exit; [exact Hinv | now rewrite Hq].
    + left. eauto.
  - rewrite crawl_loop_step.
    destruct ((0 <? length (queue st))%nat
              && (length (visited st) <? maxPages)%nat) eqn:Hguard.
    2:{ exists (Ok st), w, (visited st). split; [reflexivity|]. split.
        - now apply crawled_at_exit.
        - left. eauto. }
    apply andb_prop in Hguard. destruct Hguard as [Hne Hlt].
    apply Nat.ltb_lt in Hne, Hlt.
    destruct (queue st) as [|current rest] eqn:Hq; [simpl in Hne; lia|].
    destruct Hinv as [Hnd Hb Hv Hqs Hseed Hf [rows [Hrows Hkeys]]].
    rewrite Hq in Hqs. inversion Hqs as [|? ? Hcur Hrest]; subst.
    destruct (has (visited st) current) eqn:Hseen.
    + rewrite (@bind_ok _ _ _ _ _ _ _ (iteration_seen env tenant base st w Hq Hseen)).
      apply IH.
      * constructor; simpl; auto.
        -- destruct Hseed as [Hs|[Hs _]]; [now left|].
           rewrite Hs in Hseen. discriminate.
        -- exists rows. auto.
      * unfold turns_left in *. rewrite Hq in Hfuel. simpl in *. lia.
    + assert (Hnew : ~ In current (visited st)) by now apply has_false.
      assert (Hnd' : NoDup (visited st ++ [current])).
      { apply NoDup_app; [exact Hnd | repeat constructor; auto |].
        intros x Hx [<-|[]]. contradiction. }
      assert (Hseed' : In base (visited st ++ [current])).
      { apply in_or_app. destruct Hseed as [Hs|[_ Hs]]; [now left|].
        rewrite Hq in Hs. inversion Hs; subst. right. now left. }
      assert (Hv' : Forall (on_site base) (visited st ++ [current])).
      { apply Forall_app. split; [exact Hv | now constructor]. }
      destruct (iteration_fresh env tenant base st w Hq Hseen)
        as [[_ Hthrow]|[_ [st' [w' [Hrun Hturn]]]]].
      * rewrite (@bind_throw _ _ _ _ _ _ _ Hthrow).
        eexists; eexists; exists (visited st ++ [current]).
        split; [reflexivity|]. split; [|right; eauto].
        constructor; auto.
        -- simpl. rewrite fetched_app, Hf. simpl. now rewrite <- app_assoc.
        -- rewrite length_app. simpl. lia.
      * rewrite (@bind_ok _ _ _ _ _ _ _ Hrun).
        destruct Hturn as [links evs rows' its Tv Tq Tstart Tten Torigin
                                 Tlog Tonce Ttab Tcre Tkeys _].
        apply IH.
        -- constructor.
           ++ now rewrite Tv.
           ++ rewrite Tv, length_app. simpl. lia.
           ++ now rewrite Tv.
           ++ rewrite Tq. apply Forall_app. split; [exact Hrest|].
              eapply Forall_impl; [|exact Torigin].
              intros u Hu. now apply same_origin_eq.
           ++ left. now rewrite Tv.
           ++ rewrite Tlog, fetched_app. simpl. rewrite Tonce, Hf, Tv.
              now rewrite <- app_assoc.
           ++ exists (rows ++ rows'). rewrite Ttab, Hrows, Tcre, !map_app.
              rewrite Hkeys, Tkeys. now rewrite <- app_assoc.
        -- unfold turns_left in *. rewrite Tq, Tv, has_app, length_app.
           rewrite Hq in Hfuel. simpl in Hfuel.
           destruct Tstart as [-> | ->].
           ++ simpl. destruct (has (visited st) base); simpl; [lia|].
              destruct (Url.eqb base current); lia.
           ++ assert (Hb' : has (visited st) base = false)
                by now apply has_false.
              rewrite Hb' in *. simpl.
              assert (E : Url.eqb base base = true) by now apply url_eqb_eq.
              rewrite E. lia.
Qed.

(** Fuel for eleven turns is enough for the crawl. *)
Lemma crawl_loop_runs extra env tenant base w :
  exists r w' v,
    crawl_loop (11 + extra) env tenant base (mkCrawl [] [base] []) w = (r, w')
    /\ crawled base w w' v
    /\ ((exists st', r = Ok st' /\ visited st' = v /\ crawl_inv base w st' w')
        \/ exists e, r = Throw e).
Proof.
  apply crawl_loop_inv; [apply crawl_inv_start|].
  unfold turns_left. simpl. lia.
Qed.

(** *** The handler *)

Lemma tenant_lookup_cases env slug w :
  (exists t, getTenantBySlug env slug w = (Ok t, logged w [EvTenantLookup slug]))
  \/ (exists e, getTenantBySlug env slug w
                = (Throw e, logged w [EvTenantLookup slug])).
Proof.
  run. destruct (db_tenant env w slug); [left|right]; eauto.
Qed.

Lemma normalizeUrl_cases env input w :
  (exists base, normalizeUrl env input w = (Ok base, w))
  \/ (exists e, normalizeUrl env input w = (Throw e, w)).
Proof.
  run. destruct (url_parse env input); [left; eauto|].
  destruct (url_parse env _); [left|right]; eauto.
Qed.

Lemma delete_embeddings_run env t w :
  exists w', Service.delete_embeddings env t w = (Ok tt, w')
             /\ knowledge_items w' = knowledge_items w
             /\ log w' = log w ++ [EvDeleteEmbeddings t].
Proof.
  run. destruct (db_delete_error env w); eexists; repeat split.
Qed.

Lemma delete_knowledge_items_run env t w :
  exists w', Service.delete_knowledge_items env t w = (Ok tt, w')
             /\ (knowledge_items w' = knowledge_items w
                 \/ knowledge_items w' = others t (knowledge_items w))
             /\ log w' = log w ++ [EvDeleteKnowledge t].
Proof.
  run. destruct (db_delete_error env w); eexists; repeat split; simpl;
    [now left | now right].
Qed.

(** The handler, once the request is let in and the tenant is there. *)
Lemma POST_crawls fuel env req w slug targetUrl input tenant w1 base :
  is_null (req_body req) = false ->
  password_ok env (req_password req) = true ->
  req_slug req = Some slug -> req_url req = Some targetUrl ->
  truthy_json slug = true -> truthy_json targetUrl = true ->
  getTenantBySlug env slug w = (Ok tenant, w1) ->
  js_string env targetUrl = Some input ->
  normalizeUrl env input w1 = (Ok base, w1) ->
  exists w2 w3,
    Service.delete_embeddings env (tenant_id tenant) w1 = (Ok tt, w2)
    /\ Service.delete_knowledge_items env (tenant_id tenant) w2 = (Ok tt, w3)
    /\ POST fuel env req w =
         match crawl_loop fuel env tenant base (mkCrawl [] [base] []) w3 with
         | (Ok st, w4) => (Ok (mkResponse 200 (ok_json env tenant (createdItems st))), w4)
         | (Throw e, w4) => (Ok (mkResponse 500 (error_json e)), w4)
         | (Diverge, w4) => (Diverge, w4)
         end.
Proof.
  intros Hnl Hp Hs Hu Hs' Hu' Ht Hin Hn.
  destruct (delete_embeddings_run env (tenant_id tenant) w1) as [w2 [H2 _]].
  destruct (delete_knowledge_items_run env (tenant_id tenant) w2) as [w3 [H3 _]].
  exists w2, w3. split; [exact H2|]. split; [exact H3|].
  unfold POST, try_catch at 1. rewrite Hnl, Hp, Hs, Hu, Hs', Hu'.
  cbn [negb orb]. cbv iota.
  rewrite (@bind_ok _ _ _ _ _ _ _ Ht). unfold to_string. rewrite Hin.
  rewrite (@bind_ok _ _ _ _ _ _ _ (eq_refl : ret input w1 = (Ok input, w1))).
  rewrite (@bind_ok _ _ _ _ _ _ _ Hn),
    (@bind_ok _ _ _ _ _ _ _ H2), (@bind_ok _ _ _ _ _ _ _ H3).
  unfold bind.
  destruct (crawl_loop fuel env tenant base _ w3) as [[st|e|] w4]; reflexivity.
Qed.

(** A body that is [null] ends the request with status 500, before any
    call. *)
Lemma POST_null fuel env req w :
  is_null (req_body req) = true ->
  POST fuel env req w = (Ok (mkResponse 500 (error_json null_body)), w).
Proof.
  unfold POST, try_catch, throw. now intros ->.
Qed.

(** What stops the handler before the crawl. *)
Lemma POST_refuses fuel env req w :
  (exists slug targetUrl,
      is_null (req_body req) = false
      /\ password_ok env (req_password req) = true
      /\ req_slug req = Some slug /\ req_url req = Some targetUrl
      /\ truthy_json slug = true /\ truthy_json targetUrl = true)
  \/ (exists r, POST fuel env req w = (Ok r, w)
                /\ (status r = 401%nat \/ status r = 400%nat
                    \/ status r = 500%nat)).
Proof.
  destruct (is_null (req_body req)) eqn:Hnl;
    [right; rewrite (POST_null fuel env req w Hnl); eexists;
     split; [reflexivity | now right; right]|].
  unfold POST, try_catch. rewrite Hnl.
  destruct (password_ok env (req_password req)); cbn [negb];
    [|right; eexists; split; [reflexivity | now left]].
  destruct (req_slug req) as [slug|];
    [|right; eexists; split; [reflexivity | now right; left]].
  destruct (req_url req) as [targetUrl|];
    [|right; eexists; split; [reflexivity | now right; left]].
  destruct (truthy_json slug) eqn:Hs; cbn [negb orb];
    [|right; eexists; split; [reflexivity | now right; left]].
  destruct (truthy_json targetUrl) eqn:Hu; cbn [negb orb];
    [|right; eexists; split; [reflexivity | now right; left]].
  left. exists slug, targetUrl. repeat split; assumption.
Qed.

Lemma POST_no_tenant fuel env req w slug targetUrl e w1 :
  is_null (req_body req) = false ->
  password_ok env (req_password req) = true ->
  req_slug req = Some slug -> req_url req = Some targetUrl ->
  truthy_json slug = true -> truthy_json targetUrl = true ->
  getTenantBySlug env slug w = (Throw e, w1) ->
  POST fuel env req w = (Ok (mkResponse 500 (error_json e)), w1).
Proof.
  intros Hnl Hp Hs Hu Hs' Hu' Ht.
  unfold POST, try_catch at 1. rewrite Hnl, Hp, Hs, Hu, Hs', Hu'.
  cbn [negb orb]. cbv iota. unfold bind at 1. now rewrite Ht.
Qed.

Lemma POST_no_url fuel env req w slug targetUrl input tenant w1 e :
  is_null (req_body req) = false ->
  password_ok env (req_password req) = true ->
  req_slug req = Some slug -> req_url req = Some targetUrl ->
  truthy_json slug = true -> truthy_json targetUrl = true ->
  getTenantBySlug env slug w = (Ok tenant, w1) ->
  js_string env targetUrl = Some input ->
  normalizeUrl env input w1 = (Throw e, w1) ->
  POST fuel env req w = (Ok (mkResponse 500 (error_json e)), w1).
Proof.
  intros Hnl Hp Hs Hu Hs' Hu' Ht Hin Hn.
  unfold POST, try_catch at 1. rewrite Hnl, Hp, Hs, Hu, Hs', Hu'.
  cbn [negb orb]. cbv iota.
  rewrite (@bind_ok _ _ _ _ _ _ _ Ht). unfold to_string. rewrite Hin.
  rewrite (@bind_ok _ _ _ _ _ _ _ (eq_refl : ret input w1 = (Ok input, w1))).
  unfold bind at 1. now rewrite Hn.
Qed.

(** An address without a string ends the request after the lookup of the
    tenant. *)
Lemma POST_no_string fuel env req w slug targetUrl tenant w1 :
  is_null (req_body req) = false ->
  password_ok env (req_password req) = true ->
  req_slug req = Some slug -> req_url req = Some targetUrl ->
  truthy_json slug = true -> truthy_json targetUrl = true ->
  getTenantBySlug env slug w = (Ok tenant, w1) ->
  js_string env targetUrl = None ->
  POST fuel env req w = (Ok (mkResponse 500 (error_json cannot_convert)), w1).
Proof.
  intros Hnl Hp Hs Hu Hs' Hu' Ht Hin.
  unfold POST, try_catch at 1. rewrite Hnl, Hp, Hs, Hu, Hs', Hu'.
  cbn [negb orb]. cbv iota.
  rewrite (@bind_ok _ _ _ _ _ _ _ Ht). unfold to_string. rewrite Hin.
  reflexivity.
Qed.

(** *** The count of pages *)

Example scrape_two_pages :
  fst (POST 11 (Sample.env (Sample.letters 300) [lit "/about"; lit "mailto:x"] None [])
            Sample.scrape Sample.busy_world)
  = Ok (mkResponse 200
          (ok_json (Sample.env (Sample.letters 300) [lit "/about"; lit "mailto:x"] None [])
             Sample.tenant
             [(Sample.seed, lit "Website");
              (Sample.https_a "/about" "", lit "/about")])).
Proof. vm_compute. reflexivity. Qed.

Example scrape_refused_rows :
  fst (POST 11 (Sample.env (Sample.letters 300) [lit "/about"] (Some (lit "no")) [])
            Sample.scrape Sample.busy_world)
  = Ok (mkResponse 200
          (ok_json (Sample.env (Sample.letters 300) [lit "/about"] (Some (lit "no")) [])
             Sample.tenant [])).
Proof. vm_compute. reflexivity. Qed.

(** C10. The handler answers every request, given fuel for eleven turns of
    the crawl loop. In an answer with status 200, [pages_processed] is the
    number of entries of [items], and the entries of [items] are, in
    order, the addresses and titles of the rows that the run inserted
    into [knowledge_items], behind the rows [kept] that the delete left
    there (all the rows when it failed, the rows of the other tenants
    when it succeeded). In every turn
    of the loop a page that was not visited adds an entry exactly when it
    is stored: its fetch succeeds with an OK status, its text has 200
    code units or more and its insert into [knowledge_items] succeeds;
    what the embedding service and the insert into [embeddings] answer
    does not count. A body that cannot be read is left out: it ends the
    run with status 500. *)
Theorem pages_processed_counts extra env req w :
  (exists r w',
      POST (11 + extra) env req w = (Ok r, w')
      /\ (status r = 200%nat ->
          exists tenant items kept rows,
            body r = ok_json env tenant items
            /\ field "pages_processed" (body r) = Some (JNat (length items))
            /\ field "items" (body r) = Some (JArr (map (item_json env) items))
            /\ knowledge_items w' = kept ++ rows
            /\ (kept = knowledge_items w
                \/ kept = others (tenant_id tenant) (knowledge_items w))
            /\ map row_key rows = map item_key items))
  /\ (forall tenant base st current rest,
        queue st = current :: rest -> has (visited st) current = false ->
        readable env w current ->
        exists st' w',
          iteration env tenant base st w = (Ok st', w')
          /\ createdItems st' =
               createdItems st
               ++ (if stored env tenant base current w
                   then [(current, page_title base current)] else [])).
Proof.
  split.
  - destruct (POST_refuses (11 + extra) env req w)
      as [[slug [targetUrl [Hnl [Hp [Hs [Hu [Hs' Hu']]]]]]]|[r [E Hr]]].
    2:{ exists r, w. split; [exact E|]. intros H200.
        destruct Hr as [Hr|[Hr|Hr]]; rewrite Hr in H200; discriminate. }
    destruct (tenant_lookup_cases env slug w) as [[tenant Ht]|[e Ht]].
    2:{ rewrite (POST_no_tenant _ _ _ _ Hnl Hp Hs Hu Hs' Hu' Ht).
        eexists; eexists; split; [reflexivity | discriminate]. }
    destruct (js_string env targetUrl) as [input|] eqn:Hin.
    2:{ rewrite (POST_no_string _ _ _ _ Hnl Hp Hs Hu Hs' Hu' Ht Hin).
        eexists; eexists; split; [reflexivity | discriminate]. }
    destruct (normalizeUrl_cases env input (logged w [EvTenantLookup slug]))
      as [[base Hn]|[e Hn]].
    2:{ rewrite (POST_no_url _ _ _ _ Hnl Hp Hs Hu Hs' Hu' Ht Hin Hn).
        eexists; eexists; split; [reflexivity | discriminate]. }
    destruct (POST_crawls (11 + extra) _ _ _ Hnl Hp Hs Hu Hs' Hu' Ht Hin Hn)
      as [w2 [w3 [H2 [H3 ->]]]].
    destruct (crawl_loop_runs extra env tenant base w3)
      as [r [w4 [v [Hrun [_ [[st [-> [_ Hinv]]]|[e ->]]]]]]]; rewrite Hrun;
      [|eexists; eexists; split; [reflexivity | discriminate]].
    eexists; eexists; split; [reflexivity|]. intros _.
    destruct Hinv as [_ _ _ _ _ _ [rows [Hrows Hkeys]]].
    exists tenant, (createdItems st), (knowledge_items w3), rows.
    repeat split; auto.
    destruct (delete_embeddings_run env (tenant_id tenant)
                (logged w [EvTenantLookup slug])) as [w2' [E2 [K2 _]]].
    destruct (delete_knowledge_items_run env (tenant_id tenant) w2)
      as [w3' [E3 [K3 _]]].
    rewrite H2 in E2. rewrite H3 in E3. inversion E2; inversion E3; subst.
    rewrite K2 in K3. exact K3.
  - intros tenant base st current rest Hq Hv Hread.
    destruct (@iteration_counts env tenant base st w current rest Hq Hv Hread)
      as [st' [w' [H1 [H2 _]]]]. eauto.
Qed.

Lemma pages_processed_counts_witness :
  exists st' w',
    iteration (Sample.env (Sample.letters 300) [lit "/about"] None []) Sample.tenant
              Sample.seed (mkCrawl [] [Sample.seed] []) Sample.busy_world
    = (Ok st', w')
    /\ createdItems st' = [(Sample.seed, lit "Website")].
Proof.
  apply (proj2 (pages_processed_counts 0
                  (Sample.env (Sample.letters 300) [lit "/about"] None [])
                  Sample.scrape Sample.busy_world)
           Sample.tenant Sample.seed (mkCrawl [] [Sample.seed] [])
           Sample.seed []); try reflexivity.
  discriminate.
Defined.

(** *** A wrong password *)


Example wrong_password_on_busy_world :
  POST 11 (Sample.env (Sample.letters 300) [] None [])
       Sample.scrape_wrong_password Sample.busy_world
  = (Ok (mkResponse 401 (error_json (lit "Unauthorized"))), Sample.busy_world).
Proof. reflexivity. Qed.




End AdminFacts.

(** ** The ingest script *)

Module IngestFacts.
Import Ingest Props JsStringFacts.

Lemma enqueue_app maxPages visited links : forall toVisit,
  exists added,
    enqueue maxPages visited toVisit links = toVisit ++ added
    /\ incl added links
    /\ (added = []
        \/ (length visited + length (toVisit ++ added) <= maxPages)%nat).
Proof.
  unfold enqueue.
  induction links as [|l links IH]; intros toVisit; simpl.
  - exists []. rewrite app_nil_r. repeat split; [apply incl_refl | now left].
  - destruct (negb (has visited l) && negb (has toVisit l));
      [destruct (Nat.ltb_spec (length visited + length toVisit) maxPages)|].
    + destruct (IH (toVisit ++ [l])) as [added [E [Hincl Hlen]]].
      exists (l :: added). rewrite E, <- app_assoc. simpl.
      split; [reflexivity|]. split.
      * intros x [<-|Hx]; [now left | right; now apply Hincl].
      * right. destruct Hlen as [->|Hlen].
        -- rewrite length_app. simpl. lia.
        -- rewrite <- app_assoc in Hlen. exact Hlen.
    + destruct (IH toVisit) as [added [E [Hincl Hlen]]].
      exists added. split; [exact E|]. split; [|exact Hlen].
      intros x Hx. right. now apply Hincl.
    + destruct (IH toVisit) as [added [E [Hincl Hlen]]].
      exists added. split; [exact E|]. split; [|exact Hlen].
      intros x Hx. right. now apply Hincl.
Qed.

Lemma in_somes (A : Type) (x : A) l : In x (somes l) <-> In (Some x) l.
Proof.
  unfold somes. rewrite in_flat_map. split.
  - intros [[y|] [Hin Hx]]; [|destruct Hx].
    destruct Hx as [->|[]]. exact Hin.
  - intros H. exists (Some x). split; [exact H | now left].
Qed.

(** The links that are found are on the host of the start page, and have
    no fragment. *)
Lemma foundLinks_on_host env start normalized anchors :
  Forall (on_host start) (foundLinks env start normalized anchors).
Proof.
  apply Forall_forall. intros u Hu. unfold foundLinks in Hu.
  apply filter_In in Hu. destruct Hu as [Hu Hhost].
  apply in_somes in Hu. apply in_map_iff in Hu.
  destruct Hu as [v [Hv _]]. unfold normalizeUrl in Hv.
  inversion Hv; subst. split; [|reflexivity].
  unfold isSameHost in Hhost. apply eqb_eq in Hhost. now symmetry.
Qed.

(** One turn on a URL that was visited before. *)
Lemma site_turn_seen env start maxPages st w current rest :
  toVisit st = current :: rest ->
  has (visited st) (strip_hash current) = true ->
  iteration env start maxPages st w = (Ok (mkCrawl rest (visited st)), w).
Proof. unfold iteration, normalizeUrl. now intros -> ->. Qed.

(** One turn on a URL that was not visited before: the URL is marked and
    fetched once, and whatever the fetch and the DOM do, the turn ends
    well, with the rest of the queue and maybe more links. *)
Lemma site_turn_fresh env start maxPages st w current rest :
  toVisit st = current :: rest ->
  has (visited st) (strip_hash current) = false ->
  exists added,
    iteration env start maxPages st w
    = (Ok (mkCrawl (rest ++ added) (visited st ++ [strip_hash current])),
       logged w [EvFetch (strip_hash current)])
    /\ Forall (on_host start) added
    /\ (added = []
        \/ (length (visited st ++ [strip_hash current])
            + length (rest ++ added) <= maxPages)%nat).
Proof.
  intros Hq Hv. unfold iteration, normalizeUrl. rewrite Hq, Hv.
  rewrite (AdminFacts.add_new _ _ Hv). unfold try_catch.
  rewrite (@AdminFacts.bind_ok _ _ _ _ _ _ _
             (AdminFacts.fetch_run env (strip_hash current) w)).
  destruct (net_fetch env w (strip_hash current)) as [|[|] [html|]];
    try (exists []; rewrite app_nil_r; split; [reflexivity|];
         split; [constructor | now left]).
  destruct (dom_anchors env html (strip_hash current)) as [anchors|];
    try (exists []; rewrite app_nil_r; split; [reflexivity|];
         split; [constructor | now left]).
  destruct (enqueue_app maxPages (visited st ++ [strip_hash current])
              (foundLinks env start (strip_hash current) anchors) rest)
    as [added [E [Hincl Hlen]]].
  exists added. unfold ret. rewrite E. split; [reflexivity|].
  split; [|exact Hlen].
  pose proof (foundLinks_on_host env start (strip_hash current) anchors) as H.
  rewrite Forall_forall in *. intros x Hx. apply H. now apply Hincl.
Qed.

(** *** The loop *)

Lemma site_loop_step fuel env start maxPages st w :
  crawl_loop (S fuel) env start maxPages st w =
    if (0 <? length (toVisit st))%nat && (length (visited st) <? maxPages)%nat
    then bind (iteration env start maxPages st)
              (fun st' => crawl_loop fuel env start maxPages st') w
    else (Ok st, w).
Proof.
  simpl. destruct ((0 <? length (toVisit st))%nat
                   && (length (visited st) <? maxPages)%nat); reflexivity.
Qed.

Lemma site_inv_start start maxPages w :
  (1 <= maxPages)%nat -> site_inv start maxPages w (mkCrawl [start] []) w.
Proof.
  intros Hm. constructor; simpl.
  - constructor.
  - lia.
  - constructor.
  - repeat constructor.
  - exact Hm.
  - right. split; reflexivity.
  - now rewrite app_nil_r.
Qed.

Lemma site_loop_inv env start maxPages w0 :
  (1 <= maxPages)%nat ->
  forall fuel st w,
    site_inv start maxPages w0 st w ->
    (site_turns_left maxPages st <= fuel)%nat ->
    exists st' w',
      crawl_loop fuel env start maxPages st w = (Ok st', w')
      /\ site_inv start maxPages w0 st' w'
      /\ In (strip_hash start) (visited st').
Proof.
  intros Hm.
  assert (Hexit : forall st w,
    site_inv start maxPages w0 st w ->
    (0 <? length (toVisit st))%nat && (length (visited st) <? maxPages)%nat = false ->
    In (strip_hash start) (visited st)).
  { intros st w [_ _ _ _ _ [Hs|[Hv Hq]] _] Hguard; [exact Hs|].
    rewrite Hv, Hq in Hguard. simpl in Hguard.
    destruct (Nat.ltb_spec 0 maxPages); [discriminate | lia]. }
  induction fuel as [|fuel IH]; intros st w Hinv Hfuel.
  - unfold site_turns_left in Hfuel.
    assert (Hq : toVisit st = []).
    { destruct (toVisit st); [reflexivity|].
      simpl length in Hfuel.
      remember ((maxPages - length (visited st)) * (maxPages + 1))%nat as x.
      lia. }
    simpl. rewrite Hq. simpl. eexists; eexists; split; [reflexivity|].
    split; [exact Hinv|]. apply (Hexit st w Hinv). now rewrite Hq.
  - rewrite site_loop_step.
    destruct ((0 <? length (toVisit st))%nat
              && (length (visited st) <? maxPages)%nat) eqn:Hguard.
    2:{ eexists; eexists; split; [reflexivity|]. split; [exact Hinv|].
        exact (Hexit st w Hinv Hguard). }
    apply andb_prop in Hguard. destruct Hguard as [Hne Hlt].
    apply Nat.ltb_lt in Hne, Hlt.
    destruct (toVisit st) as [|current rest] eqn:Hq; [simpl in Hne; lia|].
    destruct Hinv as [Hnd Hb Hv Hqs Hqb Hseed Hf].
    rewrite Hq in Hqs, Hqb. inversion Hqs as [|? ? Hcur Hrest]; subst.
    simpl in Hqb.
    destruct (has (visited st) (strip_hash current)) eqn:Hseen.
    + rewrite (@AdminFacts.bind_ok _ _ _ _ _ _ _
                 (site_turn_seen env start maxPages st w Hq Hseen)).
      apply IH.
      * constructor; simpl; auto; [lia|].
        destruct Hseed as [Hs|[Hs _]]; [now left|].
        rewrite Hs in Hseen. discriminate.
      * unfold site_turns_left in *. rewrite Hq in Hfuel.
        cbn [toVisit visited length] in *.
        remember ((maxPages - length (visited st)) * (maxPages + 1))%nat as x.
        lia.
    + destruct (site_turn_fresh env start maxPages st w Hq Hseen)
        as [added [Hrun [Hadded Hlen]]].
      rewrite (@AdminFacts.bind_ok _ _ _ _ _ _ _ Hrun).
      apply AdminFacts.has_false in Hseen.
      assert (Hlen' : (length (rest ++ added) <= maxPages)%nat).
      { destruct Hlen as [->|Hlen]; [rewrite app_nil_r|]; lia. }
      apply IH.
      * constructor; simpl.
        -- apply NoDup_app; [exact Hnd | repeat constructor; auto |].
           intros x Hx [<-|[]]. contradiction.
        -- rewrite length_app. simpl. lia.
        -- apply Forall_app. split; [exact Hv|].
           constructor; [|constructor]. split; [exact Hcur | reflexivity].
        -- apply Forall_app. split; [exact Hrest|].
           eapply Forall_impl; [|exact Hadded]. now intros u [Hu _].
        -- exact Hlen'.
        -- left. apply in_or_app.
           destruct Hseed as [Hs|[_ Hs]]; [now left|].
           rewrite Hq in Hs. inversion Hs; subst. right. now left.
        -- rewrite AdminFacts.fetched_app. simpl. rewrite Hf.
           now rewrite <- app_assoc.
      * unfold site_turns_left in *.
        rewrite Hq in Hfuel. cbn [toVisit visited length] in *.
        rewrite (length_app (visited st)). cbn [length].
        remember (maxPages - (length (visited st) + 1))%nat as k.
        replace (maxPages - length (visited st))%nat with (S k) in Hfuel by lia.
        rewrite Nat.mul_succ_l in Hfuel.
        remember (k * (maxPages + 1))%nat as x.
        lia.
Qed.

(** Fuel for [maxPages * (maxPages + 1) + 1] turns is enough. *)
Lemma crawlSite_runs extra env startUrl start maxPages w :
  (1 <= maxPages)%nat -> url_parse env startUrl = Some start ->
  exists v w',
    crawlSite (maxPages * (maxPages + 1) + 1 + extra) env startUrl maxPages w
    = (Ok v, w')
    /\ In (strip_hash start) v
    /\ (length v <= maxPages)%nat
    /\ NoDup v
    /\ Forall (on_host start) v
    /\ fetched (log w') = fetched (log w) ++ v.
Proof.
  intros Hm Hparse. unfold crawlSite. rewrite Hparse.
  destruct (@site_loop_inv env start maxPages w Hm
              (maxPages * (maxPages + 1) + 1 + extra)
              (mkCrawl [start] []) w (site_inv_start start w Hm))
    as [st [w' [Hrun [Hinv Hseed]]]].
  { unfold site_turns_left. cbn [toVisit visited length].
    rewrite Nat.sub_0_r. lia. }
  rewrite (@AdminFacts.bind_ok _ _ _ _ _ _ _ Hrun).
  destruct Hinv as [Hnd Hb Hv _ _ _ Hf].
  exists (visited st), w'. repeat split; auto.
Qed.

(** *** The crawl, in the two programs *)

Example crawlSite_leaves_the_origin :
  fst (crawlSite 241 (Sample.env [] [lit "http://a.com/x"] None [])
                 (lit "https://a.com/") 15 Sample.empty_world)
  = Ok [Sample.seed; Sample.http_a "/x"].
Proof. vm_compute. reflexivity. Qed.

(** C3, as stated, on the ingest script: the start page [https://a.com/]
    links to [http://a.com/x], which is on the same host and of another
    origin, and the crawl visits it. *)
Lemma same_origin_counterexample :
  exists v w',
    crawlSite 241 (Sample.env [] [lit "http://a.com/x"] None [])
              (lit "https://a.com/") 15 Sample.empty_world = (Ok v, w')
    /\ In (Sample.http_a "/x") v
    /\ Sample.http_a "/x" <> Sample.seed
    /\ origin (Sample.http_a "/x") <> origin Sample.seed.
Proof.
  eexists; eexists. split; [vm_compute; reflexivity|].
  split; [right; now left|]. split; discriminate.
Qed.

(** C3, amended. The crawl loop of the admin route, from a start page,
    ends, with its state or with the error of a body that could not be
    read; it visits the start page, at most 8 URLs, each once; every URL
    it visits other than the start page has for [url.origin] the string
    that the start page has (which is ["null"] for every URL of an opaque
    origin, and the origin of the site for a [blob:] URL of the site);
    and the URLs it fetches are the URLs it visits, in order and once
    each. The crawl of the ingest script, from a start URL that parses,
    ends; it visits the start URL without its fragment, at most 15 URLs,
    each once; every URL it visits has the host name of the start URL,
    and no fragment, whatever its scheme and port are; and the URLs it
    fetches are the URLs it visits, in order and once each. *)
Theorem crawl_bounds extra env :
  (forall tenant base w,
      exists r w' v,
        AdminScrape.crawl_loop (11 + extra) env tenant base
          (AdminScrape.mkCrawl [] [base] []) w = (r, w')
        /\ ((exists st, r = Ok st /\ AdminScrape.visited st = v)
            \/ exists e, r = Throw e)
        /\ In base v
        /\ (length v <= 8)%nat
        /\ NoDup v
        /\ Forall (on_site base) v
        /\ fetched (log w') = fetched (log w) ++ v)
  /\ (forall startUrl start w,
        url_parse env startUrl = Some start ->
        exists v w',
          crawlSite (241 + extra) env startUrl 15 w = (Ok v, w')
          /\ In (strip_hash start) v
          /\ (length v <= 15)%nat
          /\ NoDup v
          /\ Forall (on_host start) v
          /\ fetched (log w') = fetched (log w) ++ v).
Proof.
  split.
  - intros tenant base w.
    destruct (AdminFacts.crawl_loop_runs extra env tenant base w)
      as [r [w' [v [Hrun [[Hf Hnd Hb Hseed Hv] Hr]]]]].
    exists r, w', v. split; [exact Hrun|]. split.
    + destruct Hr as [[st [-> [Hst _]]]|[e ->]]; [left | right]; eauto.
    + repeat split; auto.
  - intros startUrl start w Hparse.
    apply (@crawlSite_runs extra env startUrl start 15 w); [lia | exact Hparse].
Qed.

Lemma crawl_bounds_witness :
  exists v w',
    crawlSite 241 (Sample.env [] [lit "http://a.com/x"] None [])
              (lit "https://a.com/") 15 Sample.empty_world = (Ok v, w')
    /\ In Sample.seed v /\ (length v <= 15)%nat.
Proof.
  destruct (proj2 (crawl_bounds 0 (Sample.env [] [lit "http://a.com/x"] None []))
              (lit "https://a.com/") Sample.seed Sample.empty_world
              eq_refl)
    as [v [w' [H1 [H2 [H3 _]]]]].
  exists v, w'. repeat split; assumption.
Defined.

(** *** Storing the chunks *)

Ltac run :=
  cbv beta iota delta
    [bind ret ask emit modify throw try_catch diverge embed
     Service.fetch Service.insert_knowledge_item Service.insert_embedding
     Service.create_embedding store_chunk extractTextFromUrl].


(** The four ways for a chunk to go: each failure is thrown. *)
Lemma store_chunk_cases env tenant url c w :
  let row := chunk_row tenant url c in
  let w1 := logged w [EvInsertKnowledge row] in
  let w2 := mkWorld (knowledge_items w ++ [row]) (embeddings w)
                    (log w ++ [EvInsertKnowledge row]) in
  let w3 := logged w2 [EvEmbed (JStr c)] in
  store_chunk env tenant url c w =
    match db_insert_knowledge_error env w row with
    | Some e => (Throw e, w1)
    | None =>
        match ai_embedding env w2 (JStr c) with
        | None => (Throw (lit "embedding failed"), w3)
        | Some vec =>
            let erow := mkEmbeddingRecord (tenant_id tenant) c vec in
            match db_insert_embedding_error env w3 erow with
            | Some e => (Throw e, logged w3 [EvInsertEmbedding erow])
            | None =>
                (Ok tt,
                 mkWorld (knowledge_items w3) (embeddings w3 ++ [erow])
                         (log w3 ++ [EvInsertEmbedding erow]))
            end
        end
    end.
Proof.
  run. unfold chunk_row.
  destruct (db_insert_knowledge_error env w _); [reflexivity|]. simpl.
  destruct (ai_embedding env _ (JStr c)); [|reflexivity]. simpl.
  destruct (db_insert_embedding_error env _ _); reflexivity.
Qed.

(** The rows of a chunk that are sent to the two tables have the chunk for
    content. *)
Lemma store_chunk_sent env tenant url c w :
  exists evs,
    log (snd (store_chunk env tenant url c w)) = log w ++ evs
    /\ Forall (fun k => ki_content k = c) (knowledge_sent evs)
    /\ Forall (fun e => emb_content e = c) (embeddings_sent evs).
Proof.
  rewrite store_chunk_cases. cbv zeta.
  destruct (db_insert_knowledge_error env w _).
  - eexists. split; [reflexivity|]. simpl. repeat constructor.
  - destruct (ai_embedding env _ (JStr c)).
    + destruct (db_insert_embedding_error env _ _); simpl;
        rewrite <- !app_assoc; eexists; (split; [reflexivity|]);
        simpl; repeat constructor.
    + simpl. rewrite <- !app_assoc. eexists. split; [reflexivity|].
      simpl. repeat constructor.
Qed.







Example start_page_refused :
  AdminScrape.POST 11
    (Sample.env_page_refused Sample.seed (Sample.letters 300) [lit "/about"])
    Sample.scrape Sample.empty_world
  = (Ok (mkResponse 200
           (AdminScrape.ok_json
              (Sample.env_page_refused Sample.seed (Sample.letters 300)
                                       [lit "/about"])
              Sample.tenant [])),
     mkWorld [] []
       [EvTenantLookup (JStr (lit "demo")); EvDeleteEmbeddings (lit "t1");
        EvDeleteKnowledge (lit "t1"); EvFetch Sample.seed;
        EvInsertKnowledge
          (page_row Sample.tenant Sample.seed Sample.seed (Sample.letters 300))]).
Proof. vm_compute. reflexivity. Qed.




(** *** The content of the two rows *)

Lemma slice_short s n :
  (0 <= n)%Z -> (Z.of_nat (length s) <= n)%Z -> slice s 0 n = s.
Proof.
  intros Hn Hlen. rewrite slice_prefix by exact Hn.
  apply firstn_all2. lia.
Qed.

(** C9, as stated, on the admin route: for a page whose text has 8001
    code units, the row of [knowledge_items] has the whole text and the
    row of [embeddings] has its first 8000 code units. *)
Lemma admin_content_counterexample :
  let w' := snd (AdminScrape.POST 11 (Sample.env (Sample.letters 8001) [] None [])
                                  Sample.scrape Sample.empty_world) in
  exists k e,
    knowledge_items w' = [k] /\ embeddings w' = [e]
    /\ emb_content e <> ki_content k.
Proof.
  eexists; eexists. split; [vm_compute; reflexivity|].
  split; [vm_compute; reflexivity|].
  intros H. apply (f_equal (@length N)) in H. vm_compute in H. discriminate.
Qed.

(** C9, amended. In the admin route the row sent to [embeddings] for a
    page has for content the first 8000 code units of the content of the
    row sent to [knowledge_items] for that page (itself the first 12000
    code units of the text): the same text when that content has at most
    8000 code units, a proper prefix of it otherwise. In the ingest
    script the row sent to [embeddings] for a chunk has the content of
    the row sent to [knowledge_items] for that chunk. *)
Theorem embedding_content env tenant :
  (forall base st w current rest,
      AdminScrape.queue st = current :: rest ->
      has (AdminScrape.visited st) current = false ->
      readable env w current ->
      exists st' w' evs,
        AdminScrape.iteration env tenant base st w = (Ok st', w')
        /\ log w' = log w ++ evs
        /\ forall e, In e (embeddings_sent evs) ->
             exists k,
               In k (knowledge_sent evs)
               /\ emb_content e = slice (ki_content k) 0 8000
               /\ ((Z.of_nat (length (ki_content k)) <= 8000)%Z ->
                   emb_content e = ki_content k)
               /\ ((8000 < Z.of_nat (length (ki_content k)))%Z ->
                   emb_content e <> ki_content k))
  /\ (forall url c w,
        exists evs,
          log (snd (store_chunk env tenant url c w)) = log w ++ evs
          /\ forall e k, In e (embeddings_sent evs) -> In k (knowledge_sent evs) ->
               emb_content e = ki_content k).
Proof.
  split.
  - intros base st w current rest Hq Hv Hread.
    destruct (AdminFacts.iteration_fresh env tenant base st w Hq Hv)
      as [[Hno _]|[_ [st' [w' [Hrun Hturn]]]]]; [contradiction|].
    destruct Hturn as [links evs rows its _ _ _ _ _ Tlog _ _ _ _ Tcontents].
    exists st', w', (EvFetch current :: evs).
    split; [exact Hrun|]. split; [exact Tlog|].
    intros e He. simpl in He. destruct (Tcontents e He) as [k [Hk Hc]].
    exists k. split; [exact Hk|]. split; [exact Hc|]. split.
    + intros Hlen. rewrite Hc. apply slice_short; lia.
    + intros Hlen Heq. rewrite <- Heq in Hlen.
      rewrite Hc in Hlen.
      assert (H0 : (0 <= 0)%Z) by lia.
      assert (H8 : (0 <= 8000)%Z) by lia.
      pose proof (@slice_length (ki_content k) 0 8000 H0 H8). lia.
  - intros url c w.
    destruct (store_chunk_sent env tenant url c w) as [evs [Hlog [Hk He]]].
    exists evs. split; [exact Hlog|]. intros e k Hine Hink.
    rewrite Forall_forall in Hk, He.
    now rewrite (He e Hine), (Hk k Hink).
Qed.

Lemma embedding_content_witness :
  exists evs,
    log (snd (store_chunk (Sample.env [] [] None []) Sample.tenant Sample.seed
                          (lit "Open Monday-Friday, 9-5") Sample.empty_world))
    = log Sample.empty_world ++ evs
    /\ forall e k, In e (embeddings_sent evs) -> In k (knowledge_sent evs) ->
         emb_content e = ki_content k.
Proof.
  exact (proj2 (embedding_content (Sample.env [] [] None []) Sample.tenant)
           Sample.seed (lit "Open Monday-Friday, 9-5") Sample.empty_world).
Defined.

End IngestFacts.

(** ** White space, windows and titles *)

Module TextFacts.
Import Cover JsStringFacts.

Lemma drop_ws_suffix s : exists pre, s = pre ++ drop_ws s.
Proof.
  induction s as [|c s [pre IH]]; simpl; [now exists []|].
  destruct (is_ws c); [|now exists []].
  exists (c :: pre). simpl. now rewrite <- IH.
Qed.

Lemma drop_ws_head s c : hd_error (drop_ws s) = Some c -> is_ws c = false.
Proof.
  induction s as [|d s IH]; simpl; [discriminate|].
  destruct (is_ws d) eqn:E; [exact IH|]. simpl. intros H. congruence.
Qed.

(** What [trim] returns is a piece of its argument. *)
Lemma trim_segment s : exists pre post, s = pre ++ trim s ++ post.
Proof.
  unfold trim. destruct (drop_ws_suffix s) as [pre Hpre].
  destruct (drop_ws_suffix (rev (drop_ws s))) as [pre' Hpre'].
  exists pre, (rev pre').
  rewrite <- rev_app_distr, <- Hpre', rev_involutive. exact Hpre.
Qed.

Lemma trim_head s c : hd_error (trim s) = Some c -> is_ws c = false.
Proof.
  intros H. unfold trim in *.
  destruct (drop_ws_suffix (rev (drop_ws s))) as [pre' Hpre'].
  assert (E : drop_ws s = rev (drop_ws (rev (drop_ws s))) ++ rev pre').
  { rewrite <- rev_app_distr, <- Hpre'. now rewrite rev_involutive. }
  apply (@drop_ws_head s). rewrite E.
  destruct (rev (drop_ws (rev (drop_ws s)))); [discriminate | exact H].
Qed.

Lemma trim_last s c : hd_error (rev (trim s)) = Some c -> is_ws c = false.
Proof.
  unfold trim. rewrite rev_involutive. apply drop_ws_head.
Qed.

Lemma no_double_ws_app a b :
  no_double_ws (a ++ b) = true -> no_double_ws a = true /\ no_double_ws b = true.
Proof.
  induction a as [|c a IH]; simpl; [auto|].
  intros H. apply andb_prop in H. destruct H as [H1 H2].
  destruct (IH H2) as [Ha Hb]. split; [|exact Hb].
  rewrite Ha, andb_true_r.
  destruct a as [|d a]; simpl in *; [now rewrite andb_false_r | exact H1].
Qed.

Lemma collapse_true_head s c :
  hd_error (collapse_from true s) = Some c -> is_ws c = false.
Proof.
  induction s as [|d s IH]; simpl; [discriminate|].
  destruct (is_ws d) eqn:E; [exact IH|]. simpl. intros H. congruence.
Qed.

Lemma collapse_no_double b s : no_double_ws (collapse_from b s) = true.
Proof.
  revert b. induction s as [|c s IH]; intros b; simpl; [reflexivity|].
  destruct (is_ws c) eqn:E.
  - destruct b; [apply IH|]. simpl. rewrite IH, andb_true_r.
    destruct (collapse_from true s) as [|d r] eqn:Er; [reflexivity|].
    assert (Hd : is_ws d = false)
      by (apply (@collapse_true_head s); now rewrite Er).
    now rewrite Hd.
  - simpl. rewrite E, IH. reflexivity.
Qed.

Lemma collapse_spaces b s c :
  In c (collapse_from b s) -> is_ws c = true -> c = 32%N.
Proof.
  revert b. induction s as [|d s IH]; intros b; simpl; [intros []|].
  destruct (is_ws d) eqn:E.
  - destruct b; [apply IH|]. intros [<-|H]; [reflexivity | now apply (IH true)].
  - intros [<-|H] Hc; [congruence | now apply (IH false)].
Qed.

(** Collapsing and trimming gives a tidy text. *)
Lemma normalise_tidy s : tidy (trim (collapse_ws s)).
Proof.
  unfold collapse_ws.
  destruct (trim_segment (collapse_from false s)) as [pre [post E]].
  repeat split.
  - apply trim_head.
  - apply trim_last.
  - intros c Hin. apply (@collapse_spaces false s). rewrite E.
    apply in_or_app. right. apply in_or_app. now left.
  - pose proof (collapse_no_double false s) as H. rewrite E in H.
    apply no_double_ws_app in H. destruct H as [_ H].
    apply no_double_ws_app in H. tauto.
Qed.




End TextFacts.

(** ** The chunker, in closed form *)

Module WindowFacts.
Import Chunker Cover JsStringFacts TextFacts.

Lemma window_count_spec len stride :
  (0 <= len)%Z -> (0 < stride)%Z ->
  (len <= Z.of_nat (window_count len stride) * stride)%Z
  /\ ((0 < window_count len stride)%nat ->
      (Z.of_nat (window_count len stride) - 1) * stride < len)%Z
  /\ (Z.of_nat (window_count len stride) <= len)%Z.
Proof.
  intros Hlen Hs. unfold window_count.
  set (q := ((len + stride - 1) / stride)%Z).
  assert (Hq : (0 <= q)%Z) by (apply Z.div_pos; lia).
  pose proof (Z.mul_div_le (len + stride - 1) stride Hs) as Hlo.
  pose proof (Z.mul_succ_div_gt (len + stride - 1) stride Hs) as Hhi.
  fold q in Hlo, Hhi. rewrite Z2Nat.id by exact Hq.
  repeat split; try nia.
Qed.

Section Windows.
Variables (text : jsstring) (size overlap : Z).
Hypothesis stride_pos : (0 < size - overlap)%Z.

(** The loop pushes the windows at [k], [k + 1], ... times the stride, as
    long as they start inside the text. *)
Lemma chunk_loop_closed n : forall fuel k out,
  (n <= fuel)%nat ->
  (Z.of_nat (length text) <= Z.of_nat (k + n) * (size - overlap))%Z ->
  ((0 < n)%nat ->
   (Z.of_nat (k + n) - 1) * (size - overlap) < Z.of_nat (length text))%Z ->
  chunk_loop fuel text size overlap (Z.of_nat k * (size - overlap)) out
  = Some (out ++ map (fun j => slice text (Z.of_nat j * (size - overlap))
                                     (Z.of_nat j * (size - overlap) + size))
                     (seq k n)).
Proof.
  induction n as [|n IH]; intros fuel k out Hfuel Hend Hlast.
  - rewrite Nat.add_0_r in Hend. simpl. rewrite app_nil_r.
    destruct fuel; simpl;
      destruct (Z.ltb_spec (Z.of_nat k * (size - overlap))
                           (Z.of_nat (length text))); try lia; reflexivity.
  - destruct fuel as [|fuel]; [lia|].
    assert (Hk : (Z.of_nat k * (size - overlap) < Z.of_nat (length text))%Z).
    { specialize (Hlast ltac:(lia)). nia. }
    simpl chunk_loop.
    destruct (Z.ltb_spec (Z.of_nat k * (size - overlap))
                         (Z.of_nat (length text))); [|lia].
    replace (Z.of_nat k * (size - overlap) + (size - overlap))%Z
      with (Z.of_nat (S k) * (size - overlap))%Z by lia.
    rewrite IH.
    + simpl. now rewrite <- app_assoc.
    + lia.
    + now replace (S k + n)%nat with (k + S n)%nat by lia.
    + intros _. replace (S k + n)%nat with (k + S n)%nat by lia.
      apply Hlast. lia.
Qed.

Lemma chunk_closed :
  chunk text size overlap
  = Some (filter truthy
            (map (window text size overlap)
                 (seq 0 (window_count (Z.of_nat (length text)) (size - overlap))))).
Proof.
  destruct (@window_count_spec (Z.of_nat (length text)) (size - overlap))
    as [H1 [H2 H3]]; [lia | exact stride_pos |].
  unfold chunk.
  pose proof (@chunk_loop_closed
                (window_count (Z.of_nat (length text)) (size - overlap))
                (length text) 0 []) as H.
  simpl in H. rewrite H; [| lia | exact H1 | exact H2].
  now rewrite map_map.
Qed.

End Windows.

(** With an overlap that is not smaller than the window the loop does
    not move, whatever the number of turns it is given. *)
Lemma chunk_loop_stuck text size overlap fuel : forall i out,
  (size - overlap <= 0)%Z -> (i < Z.of_nat (length text))%Z ->
  chunk_loop fuel text size overlap i out = None.
Proof.
  induction fuel as [|fuel IH]; intros i out Hs Hi; simpl;
    (destruct (Z.ltb_spec i (Z.of_nat (length text))); [|lia]);
    [reflexivity|].
  apply IH; lia.
Qed.

(** X1. [chunk] in closed form. With a stride [size - overlap] that is
    positive, [chunk] returns, in order, the windows of [size] code units
    that start at 0, stride, 2 * stride, ... inside the text, each with
    its white space collapsed and trimmed, without those that are empty
    after that; so a text of [len] code units gives at most [len / stride]
    chunks, rounded up. *)
Theorem chunk_is_its_windows (text : jsstring) (size overlap : Z) :
  (0 < size - overlap)%Z ->
  exists cs,
    chunk text size overlap = Some cs
    /\ cs = filter truthy
              (map (window text size overlap)
                   (seq 0 (window_count (Z.of_nat (length text)) (size - overlap))))
    /\ (Z.of_nat (length cs) * (size - overlap)
        < Z.of_nat (length text) + (size - overlap))%Z.
Proof.
  intros Hs. eexists. split; [now apply chunk_closed|]. split; [reflexivity|].
  destruct (@window_count_spec (Z.of_nat (length text)) (size - overlap))
    as [H1 [H2 H3]]; [lia | exact Hs |].
  set (n := window_count (Z.of_nat (length text)) (size - overlap)) in *.
  assert (Hle : (length (filter truthy (map (window text size overlap) (seq 0 n)))
                 <= n)%nat).
  { etransitivity; [apply filter_length_le|].
    now rewrite length_map, length_seq. }
  destruct n as [|n]; [simpl in *; lia|].
  specialize (H2 ltac:(lia)). nia.
Qed.

Lemma chunk_is_its_windows_witness :
  exists cs,
    chunk (Sample.letters 1000) 800 150 = Some cs /\ (length cs <= 2)%nat.
Proof.
  destruct (@chunk_is_its_windows (Sample.letters 1000) 800 150)
    as [cs [H1 [_ H2]]]; [lia|].
  exists cs. split; [exact H1|].
  unfold Sample.letters in H2. rewrite repeat_length in H2. lia.
Defined.

(** X2. Every chunk is tidy: it neither starts nor ends with white space, and
    the only white space inside is a single space between two other
    characters. *)
Theorem chunk_tidy (text : jsstring) (size overlap : Z) :
  (0 < size - overlap)%Z ->
  exists cs, chunk text size overlap = Some cs /\ Forall tidy cs.
Proof.
  intros Hs. eexists. split; [now apply chunk_closed|].
  apply Forall_forall. intros c Hc. apply filter_In in Hc.
  destruct Hc as [Hc _]. apply in_map_iff in Hc. destruct Hc as [k [<- _]].
  apply normalise_tidy.
Qed.

Lemma chunk_tidy_witness :
  exists cs, chunk (lit " a   b ") 800 150 = Some cs /\ Forall tidy cs.
Proof. apply chunk_tidy. lia. Defined.



(** X4. With an overlap that is not smaller than the window, [chunk] never
    returns on a text that is not empty: the loop does not end, whatever
    the number of turns it is given. *)
Theorem chunk_never_ends (text : jsstring) (size overlap : Z) :
  text <> [] -> (size <= overlap)%Z ->
  (forall fuel, chunk_loop fuel text size overlap 0 [] = None)
  /\ chunk text size overlap = None.
Proof.
  intros Ht Hs.
  assert (H : forall fuel, chunk_loop fuel text size overlap 0 [] = None).
  { intros fuel. apply chunk_loop_stuck; [lia|].
    destruct text; [congruence | simpl; lia]. }
  split; [exact H|]. unfold chunk. now rewrite H.
Qed.

Lemma chunk_never_ends_witness : chunk (lit "a") 100 100 = None.
Proof.
  apply (@chunk_never_ends (lit "a") 100 100); [discriminate | lia].
Defined.

End WindowFacts.

(** ** The admin route: what a run writes *)

Module AdminMore.
Import AdminScrape Props Cover JsStringFacts TextFacts AdminFacts.

Lemma strip_slashes_nonempty s c :
  c <> 47%N -> In c s -> strip_trailing_slashes s <> [].
Proof.
  intros Hc Hin. unfold strip_trailing_slashes.
  assert (H : In c (drop_slashes (rev s))).
  { apply (proj1 (in_rev _ _)) in Hin. revert Hin.
    induction (rev s) as [|d r IH]; simpl; [intros []|].
    intros [<-|Hin].
    - destruct (N.eqb_spec d 47); [contradiction | now left].
    - destruct (d =? 47)%N; [now apply IH | now right]. }
  intros E. apply (proj1 (in_rev _ _)) in H. rewrite E in H. contradiction.
Qed.

(** The title of a page is never empty. *)
Lemma page_title_nonempty base current : page_title base current <> [].
Proof.
  unfold page_title. destruct (Url.eqb current base); [discriminate|].
  destruct (strip_trailing_slashes (pathname current)); simpl; discriminate.
Qed.

(** A window from the start of a text is a prefix of it. *)
Lemma slice_head text n :
  (0 <= n)%Z ->
  (exists rest, text = slice text 0 n ++ rest)
  /\ Z.of_nat (length (slice text 0 n)) = Z.min n (Z.of_nat (length text)).
Proof.
  intros Hn. rewrite slice_prefix by exact Hn. split.
  - exists (skipn (Z.to_nat n) text). now rewrite firstn_skipn.
  - rewrite length_firstn. lia.
Qed.

Lemma page_row_ok env tenant base current html :
  truthy (extractText env html) = true ->
  (length (extractText env html) <? 200)%nat = false ->
  admin_row tenant (page_row tenant base current (extractText env html)).
Proof.
  intros Ht Hlen. apply Nat.ltb_ge in Hlen.
  destruct (normalise_tidy (html_strip env html)) as [Hhd [_ [_ Hnd]]].
  fold (extractText env html) in Hhd, Hnd.
  destruct (@slice_head (extractText env html) 12000) as [[rest Hrest] Hl];
    [lia|].
  unfold admin_row, page_row. cbn [ki_tenant_id ki_title ki_url ki_source ki_content].
  repeat split.
  - exists (page_title base current). split; [reflexivity|].
    apply page_title_nonempty.
  - discriminate.
  - lia.
  - lia.
  - rewrite Hrest in Hnd. now apply no_double_ws_app in Hnd.
  - intros c Hc. apply Hhd. rewrite Hrest.
    destruct (slice (extractText env html) 0 12000); [discriminate | exact Hc].
Qed.

Lemma grows_refl tenant w : grows tenant w w.
Proof.
  apply (@mkGrows tenant w w [] [] []); rewrite ?app_nil_r; simpl; auto;
    intros x [].
Qed.

(** Calls that send no row. *)
Lemma grows_logged tenant w evs :
  knowledge_sent evs = [] -> embeddings_sent evs = [] ->
  forallb crawl_event evs = true -> grows tenant w (logged w evs).
Proof.
  intros Hk He H. apply (@mkGrows tenant w (logged w evs) [] [] evs);
    simpl; rewrite ?app_nil_r, ?Hk, ?He; simpl; auto; intros x [].
Qed.

Lemma admin_emb_more tenant a b e :
  admin_emb tenant a e \/ admin_emb tenant b e -> admin_emb tenant (a ++ b) e.
Proof.
  intros [[H1 [k [Hk H2]]]|[H1 [k [Hk H2]]]]; (split; [exact H1|]);
    exists k; (split; [apply in_or_app; auto | exact H2]).
Qed.

Lemma knowledge_sent_app a b :
  knowledge_sent (a ++ b) = knowledge_sent a ++ knowledge_sent b.
Proof. apply flat_map_app. Qed.

Lemma embeddings_sent_app a b :
  embeddings_sent (a ++ b) = embeddings_sent a ++ embeddings_sent b.
Proof. apply flat_map_app. Qed.

Lemma grows_trans tenant w1 w2 w3 :
  grows tenant w1 w2 -> grows tenant w2 w3 -> grows tenant w1 w3.
Proof.
  intros [k1 e1 v1 Hk1 He1 Hv1 Ik1 Ie1 Fk1 Fe1 L1 M1 N1 Q1]
         [k2 e2 v2 Hk2 He2 Hv2 Ik2 Ie2 Fk2 Fe2 L2 M2 N2 Q2].
  apply (@mkGrows tenant w1 w3 (k1 ++ k2) (e1 ++ e2) (v1 ++ v2));
    rewrite ?knowledge_sent_app, ?embeddings_sent_app.
  - now rewrite Hk2, Hk1, app_assoc.
  - now rewrite He2, He1, app_assoc.
  - now rewrite Hv2, Hv1, app_assoc.
  - apply incl_app_app; assumption.
  - apply incl_app_app; assumption.
  - apply Forall_app. auto.
  - apply Forall_app. split.
    + eapply Forall_impl; [|exact Fe1]. intros e H. apply admin_emb_more. auto.
    + eapply Forall_impl; [|exact Fe2]. intros e H. apply admin_emb_more. auto.
  - rewrite !length_app. lia.
  - rewrite !length_app. lia.
  - rewrite !length_app. lia.
  - rewrite forallb_app, Q1, Q2. reflexivity.
Qed.

(** The rows appended are rows of the tenant. *)
Lemma grows_rows tenant w w' krows erows :
  grows tenant w w' ->
  knowledge_items w' = knowledge_items w ++ krows ->
  embeddings w' = embeddings w ++ erows ->
  Forall (admin_row tenant) krows /\ Forall (admin_emb tenant krows) erows
  /\ (length erows <= length krows)%nat.
Proof.
  intros [k e v Hk He _ Ik Ie Fk Fe L M _ _] Hk' He'.
  rewrite Hk in Hk'. apply app_inv_head in Hk'. subst k.
  rewrite He in He'. apply app_inv_head in He'. subst e.
  rewrite Forall_forall in Fk, Fe. repeat split.
  - apply Forall_forall. intros x Hx. apply Fk, Ik, Hx.
  - apply Forall_forall. intros x Hx. apply Fe, Ie, Hx.
  - lia.
Qed.

(** The embedding block, after the row [row] was stored: at most one row
    is added to [embeddings], with the tenant of [row] and the first 8000
    code units of its content. *)
Lemma store_embedding_grows env tenant base current text w :
  admin_row tenant (page_row tenant base current text) ->
  exists w',
    store_embedding env tenant text
      (mkWorld (knowledge_items w ++ [page_row tenant base current text])
               (embeddings w)
               (log w ++ [EvFetch current;
                          EvInsertKnowledge (page_row tenant base current text)]))
    = (Ok tt, w')
    /\ grows tenant w w'.
Proof.
  intros Hrow.
  assert (Hemb : forall v,
    admin_emb tenant [page_row tenant base current text]
              (mkEmbeddingRecord (tenant_id tenant) (slice text 0 8000) v)).
  { intros v. split; [reflexivity|].
    exists (page_row tenant base current text). split; [now left|].
    simpl. now rewrite slice_slice. }
  assert (Hone : Forall (admin_row tenant) [page_row tenant base current text])
    by (constructor; [exact Hrow | constructor]).
  run. destruct (ai_embedding env _ (JStr (slice text 0 8000))) as [v|]; simpl.
  - destruct (db_insert_embedding_error env _ _) as [e|]; simpl;
      eexists; (split; [reflexivity|]).
    + apply (@mkGrows tenant w _ [page_row tenant base current text] []
               [EvFetch current;
                EvInsertKnowledge (page_row tenant base current text);
                EvEmbed (JStr (slice text 0 8000));
                EvInsertEmbedding
                  (mkEmbeddingRecord (tenant_id tenant) (slice text 0 8000) v)]);
        simpl; rewrite <- ?app_assoc, ?app_nil_r; auto;
        try apply incl_refl; intros x [].
    + apply (@mkGrows tenant w _ [page_row tenant base current text]
               [mkEmbeddingRecord (tenant_id tenant) (slice text 0 8000) v]
               [EvFetch current;
                EvInsertKnowledge (page_row tenant base current text);
                EvEmbed (JStr (slice text 0 8000));
                EvInsertEmbedding
                  (mkEmbeddingRecord (tenant_id tenant) (slice text 0 8000) v)]);
        simpl; rewrite <- ?app_assoc, ?app_nil_r; auto; apply incl_refl.
  - eexists. split; [reflexivity|].
    apply (@mkGrows tenant w _ [page_row tenant base current text] []
             [EvFetch current;
              EvInsertKnowledge (page_row tenant base current text);
              EvEmbed (JStr (slice text 0 8000))]);
      simpl; rewrite <- ?app_assoc, ?app_nil_r; auto;
      try apply incl_refl; intros x [].
Qed.

(** One turn of the loop, however it ends, only appends. *)
Lemma iteration_grows env tenant base st w r w' :
  iteration env tenant base st w = (r, w') -> grows tenant w w'.
Proof.
  unfold iteration.
  destruct (queue st) as [|current rest];
    [intros H; inversion H; apply grows_refl|].
  destruct (has (visited st) current);
    [intros H; inversion H; apply grows_refl|].
  rewrite (@bind_ok _ _ _ _ _ _ _ (fetch_run env current w)).
  destruct (net_fetch env w current) as [|[|] [html|]];
    try (intros H; inversion H; now apply grows_logged).
  cbv zeta.
  destruct (truthy (extractText env html)) eqn:Ht; cbn [negb orb];
    [|intros H; inversion H; now apply grows_logged].
  destruct (length (extractText env html) <? 200)%nat eqn:Hl;
    [intros H; inversion H; now apply grows_logged|].
  pose proof (page_row_ok env tenant base current html Ht Hl) as Hrow.
  pose proof (insert_knowledge_run env
                (page_row tenant base current (extractText env html))
                (logged w [EvFetch current])) as Hins.
  change (mkKnowledgeItem (tenant_id tenant) (Some (page_title base current))
            (slice (extractText env html) 0 12000) (Some current) None)
    with (page_row tenant base current (extractText env html)) in *.
  destruct (db_insert_knowledge_error env (logged w [EvFetch current]) _)
    as [err|].
  - rewrite (@bind_ok _ _ _ _ _ _ _ Hins).
    intros H; inversion H. unfold logged. simpl. rewrite <- app_assoc.
    apply (@mkGrows tenant w _ [] []
             [EvFetch current;
              EvInsertKnowledge
                (page_row tenant base current (extractText env html))]);
      simpl; rewrite ?app_nil_r; auto; intros x [].
  - rewrite (@bind_ok _ _ _ _ _ _ _ Hins).
    destruct (@store_embedding_grows env tenant base current
                (extractText env html) w Hrow) as [w2 [Hrun Hg]].
    unfold logged. simpl. rewrite <- app_assoc. simpl.
    rewrite (@bind_ok _ _ _ _ _ _ _ Hrun).
    destruct (Url.eqb current base); intros H; inversion H; subst; exact Hg.
Qed.

(** The loop, however it ends and whatever the number of turns it is
    given, only appends. *)
Lemma crawl_loop_grows env tenant base : forall fuel st w r w',
  crawl_loop fuel env tenant base st w = (r, w') -> grows tenant w w'.
Proof.
  induction fuel as [|fuel IH]; intros st w r w'.
  - simpl. destruct ((0 <? length (queue st))%nat
                     && (length (visited st) <? maxPages)%nat);
      intros H; inversion H; apply grows_refl.
  - rewrite crawl_loop_step.
    destruct ((0 <? length (queue st))%nat
              && (length (visited st) <? maxPages)%nat);
      [|intros H; inversion H; apply grows_refl].
    unfold bind.
    destruct (iteration env tenant base st w) as [[st1|e|] w1] eqn:Hit;
      intros H; apply iteration_grows in Hit.
    + apply IH in H. eapply grows_trans; eauto.
    + now inversion H; subst.
    + now inversion H; subst.
Qed.

(** What holds of the state at every turn holds at the end. *)
Lemma crawl_loop_keeps (I : CrawlState -> Prop) env tenant base :
  (forall st w st' w',
      I st -> iteration env tenant base st w = (Ok st', w') -> I st') ->
  forall fuel st w st' w',
    I st -> crawl_loop fuel env tenant base st w = (Ok st', w') -> I st'.
Proof.
  intros Hstep. induction fuel as [|fuel IH]; intros st w st' w' HI.
  - simpl. destruct ((0 <? length (queue st))%nat
                     && (length (visited st) <? maxPages)%nat);
      intros H; inversion H; now subst.
  - rewrite crawl_loop_step.
    destruct ((0 <? length (queue st))%nat
              && (length (visited st) <? maxPages)%nat);
      [|intros H; inversion H; now subst].
    unfold bind.
    destruct (iteration env tenant base st w) as [[st1|e|] w1] eqn:Hit;
      intros H; try discriminate.
    eapply IH; [|exact H]. eapply Hstep; eauto.
Qed.

Lemma items_ok_step env tenant base st w st' w' :
  items_ok base st -> iteration env tenant base st w = (Ok st', w') ->
  items_ok base st'.
Proof.
  intros [Hnd [Hincl Ht]] Hrun.
  destruct (queue st) as [|current rest] eqn:Hq.
  { unfold iteration in Hrun. rewrite Hq in Hrun. inversion Hrun; subst.
    repeat split; assumption. }
  destruct (has (visited st) current) eqn:Hv.
  { rewrite (iteration_seen env tenant base st w Hq Hv) in Hrun.
    inversion Hrun; subst. repeat split; assumption. }
  destruct (iteration_fresh env tenant base st w Hq Hv)
    as [[_ Hthrow]|[Hread [st1 [w1 [Hrun1 Hturn]]]]];
    [rewrite Hthrow in Hrun; discriminate|].
  destruct (@iteration_counts env tenant base st w current rest Hq Hv Hread)
    as [st2 [w2 [Hrun2 [Hitems _]]]].
  rewrite Hrun in Hrun1, Hrun2. inversion Hrun1; inversion Hrun2; subst.
  destruct Hturn as [links evs rows' its Tv _ _ _ _ _ _ _ _ _ _].
  unfold items_ok. rewrite Hitems, Tv.
  destruct (stored env tenant base current w).
  - rewrite map_app. simpl. repeat split.
    + apply NoDup_app; [exact Hnd | repeat constructor; auto |].
      intros x Hx [<-|[]]. apply Hincl in Hx.
      apply has_false in Hv. contradiction.
    + intros x Hx. apply in_app_or in Hx. apply in_or_app.
      destruct Hx as [Hx|Hx]; [left; now apply Hincl | now right].
    + apply Forall_app. split; [exact Ht | repeat constructor].
  - rewrite app_nil_r. repeat split; auto.
    intros x Hx. apply in_or_app. left. now apply Hincl.
Qed.

Lemma delete_embeddings_exact env t w :
  Service.delete_embeddings env t w
  = (Ok tt,
     mkWorld (knowledge_items w)
             (if db_delete_error env w then embeddings w
              else other_embeddings t (embeddings w))
             (log w ++ [EvDeleteEmbeddings t])).
Proof. run. destruct (db_delete_error env w); reflexivity. Qed.

Lemma delete_knowledge_items_exact env t w :
  Service.delete_knowledge_items env t w
  = (Ok tt,
     mkWorld (if db_delete_error env w then knowledge_items w
              else others t (knowledge_items w))
             (embeddings w)
             (log w ++ [EvDeleteKnowledge t])).
Proof. run. destruct (db_delete_error env w); reflexivity. Qed.

Lemma getTenantBySlug_exact env slug w :
  getTenantBySlug env slug w
  = (match db_tenant env w slug with
     | Some t => Ok t
     | None => Throw (lit "Tenant not found")
     end, logged w [EvTenantLookup slug]).
Proof. run. destruct (db_tenant env w slug); reflexivity. Qed.

Lemma normalizeUrl_exact env input w :
  normalizeUrl env input w
  = (match url_parse env input with
     | Some u => Ok u
     | None =>
         match url_parse env (lit "https://" ++ input) with
         | Some u => Ok u
         | None => Throw (lit "Invalid URL")
         end
     end, w).
Proof.
  run. destruct (url_parse env input); [reflexivity|].
  destruct (url_parse env _); reflexivity.
Qed.

(** The start of the crawl is [items_ok]. *)
Lemma items_ok_start base : items_ok base (mkCrawl [] [base] []).
Proof. repeat split; simpl; try constructor. intros x []. Qed.

Lemma near_start env base : near env base (mkCrawl [] [base] []).
Proof. intros u [[]|[<-|[]]]. now left. Qed.

(** One turn keeps the crawl near the start page: links are queued from
    the start page only. *)
Lemma near_step env tenant base st w st' w' :
  near env base st -> iteration env tenant base st w = (Ok st', w') ->
  near env base st'.
Proof.
  intros Hnear. unfold iteration.
  destruct (queue st) as [|current rest] eqn:Hq;
    [intros H; inversion H; now subst|].
  assert (Hrest : forall u, In u rest -> u = base \/ linked env base u).
  { intros u Hu. apply Hnear. right. rewrite Hq. now right. }
  assert (Hcur : current = base \/ linked env base current).
  { apply Hnear. right. rewrite Hq. now left. }
  destruct (has (visited st) current) eqn:Hv.
  { intros H; inversion H. intros u [Hu|Hu]; simpl in Hu; auto. }
  rewrite (add_new _ _ Hv).
  assert (Hvis : forall u, In u (visited st ++ [current]) ->
                           u = base \/ linked env base u).
  { intros u Hu. apply in_app_or in Hu. destruct Hu as [Hu|[<-|[]]]; auto. }
  assert (Hskip : near env base (mkCrawl (visited st ++ [current]) rest
                                         (createdItems st))).
  { intros u [Hu|Hu]; simpl in Hu; auto. }
  rewrite (@bind_ok _ _ _ _ _ _ _ (fetch_run env current w)).
  destruct (net_fetch env w current) as [|[|] [html|]] eqn:Hfetch;
    try (intros H; inversion H; subst; exact Hskip);
    try (intros H; discriminate H).
  cbv zeta.
  destruct (negb (truthy (extractText env html))
            || (length (extractText env html) <? 200)%nat);
    [intros H; inversion H; subst; exact Hskip|].
  unfold bind.
  destruct (Service.insert_knowledge_item env _ _) as [[[err|]|e|] w1];
    try (intros H; inversion H; subst; exact Hskip);
    try (intros H; discriminate H).
  destruct (store_embedding env tenant (extractText env html) w1)
    as [[[]|e|] w2]; try (intros H; discriminate H).
  destruct (Url.eqb current base) eqn:Hbase; intros H; inversion H; subst;
    [|intros u [Hu|Hu]; simpl in Hu; auto].
  apply url_eqb_eq in Hbase. subst current.
  intros u [Hu|Hu]; simpl in Hu; auto.
  apply in_app_or in Hu. destruct Hu as [Hu|Hu]; auto.
  apply filter_In in Hu. destruct Hu as [Hu _].
  right. exists w, html. split; assumption.
Qed.

(** What stops the handler before the tenant is looked up. *)
Lemma POST_early fuel env req w :
  (exists slug targetUrl,
      is_null (req_body req) = false
      /\ password_ok env (req_password req) = true
      /\ req_slug req = Some slug /\ req_url req = Some targetUrl
      /\ truthy_json slug = true /\ truthy_json targetUrl = true)
  \/ (is_null (req_body req) = false
      /\ password_ok env (req_password req) = false
      /\ POST fuel env req w
         = (Ok (mkResponse 401 (error_json (lit "Unauthorized"))), w))
  \/ (is_null (req_body req) = false
      /\ password_ok env (req_password req) = true
      /\ (truthy_member (req_slug req) = false
          \/ truthy_member (req_url req) = false)
      /\ POST fuel env req w
         = (Ok (mkResponse 400 (error_json (lit "slug and url are required"))), w))
  \/ (is_null (req_body req) = true
      /\ POST fuel env req w = (Ok (mkResponse 500 (error_json null_body)), w)).
Proof.
  destruct (is_null (req_body req)) eqn:Hnl;
    [right; right; right; split; [reflexivity | now apply POST_null]|].
  unfold POST, try_catch. rewrite Hnl.
  destruct (password_ok env (req_password req)); cbn [negb];
    [|right; left; repeat split].
  destruct (req_slug req) as [slug|];
    [|right; right; left; repeat split; now left].
  destruct (req_url req) as [targetUrl|];
    [|right; right; left; repeat split; now right].
  destruct (truthy_json slug) eqn:Hs; cbn [negb orb];
    [|right; right; left; repeat split; now left].
  destruct (truthy_json targetUrl) eqn:Hu; cbn [negb orb];
    [|right; right; left; repeat split; now right].
  left. exists slug, targetUrl. repeat split; assumption.
Qed.

(** The handler once the request is let in: it stops with status 500
    before any delete when the tenant or the address cannot be resolved,
    and else deletes and crawls. *)
Lemma POST_run extra env req w slug targetUrl :
  is_null (req_body req) = false ->
  password_ok env (req_password req) = true ->
  req_slug req = Some slug -> req_url req = Some targetUrl ->
  truthy_json slug = true -> truthy_json targetUrl = true ->
  ((db_tenant env w slug = None \/ unresolved env targetUrl)
   /\ exists msg,
        POST (11 + extra) env req w
        = (Ok (mkResponse 500 (error_json msg)), logged w [EvTenantLookup slug]))
  \/ (exists tenant base r w4,
        db_tenant env w slug = Some tenant
        /\ resolves_value env targetUrl base
        /\ grows tenant (after_deletes env tenant slug w) w4
        /\ POST (11 + extra) env req w = (Ok r, w4)
        /\ ((exists st,
               r = mkResponse 200 (ok_json env tenant (createdItems st))
               /\ crawl_inv base (after_deletes env tenant slug w) st w4
               /\ items_ok base st /\ near env base st
               /\ In base (visited st))
            \/ exists e, r = mkResponse 500 (error_json e))).
Proof.
  intros Hnl Hp Hs Hu Hs' Hu'.
  pose proof (getTenantBySlug_exact env slug w) as Ht.
  destruct (db_tenant env w slug) as [tenant|] eqn:Hdb.
  2:{ left. split; [now left|]. eexists.
      apply (POST_no_tenant _ _ _ _ Hnl Hp Hs Hu Hs' Hu' Ht). }
  destruct (js_string env targetUrl) as [input|] eqn:Hin.
  2:{ left. split; [right; unfold unresolved; now rewrite Hin|]. eexists.
      apply (POST_no_string _ _ _ _ Hnl Hp Hs Hu Hs' Hu' Ht Hin). }
  pose proof (normalizeUrl_exact env input (logged w [EvTenantLookup slug]))
    as Hn.
  assert (Hcrawl : forall base,
    normalizeUrl env input (logged w [EvTenantLookup slug])
    = (Ok base, logged w [EvTenantLookup slug]) ->
    exists r w4,
      grows tenant (after_deletes env tenant slug w) w4
      /\ POST (11 + extra) env req w = (Ok r, w4)
      /\ ((exists st,
             r = mkResponse 200 (ok_json env tenant (createdItems st))
             /\ crawl_inv base (after_deletes env tenant slug w) st w4
             /\ items_ok base st /\ near env base st
             /\ In base (visited st))
          \/ exists e, r = mkResponse 500 (error_json e))).
  { intros base Hbase.
    destruct (POST_crawls (11 + extra) _ _ _ Hnl Hp Hs Hu Hs' Hu' Ht Hin Hbase)
      as [w2 [w3 [H2 [H3 ->]]]].
    rewrite delete_embeddings_exact in H2. injection H2 as <-.
    rewrite delete_knowledge_items_exact in H3. injection H3 as H3.
    assert (E3 : w3 = after_deletes env tenant slug w)
      by (rewrite <- H3; reflexivity).
    clear H3. subst w3.
    destruct (crawl_loop_runs extra env tenant base (after_deletes env tenant slug w))
      as [r [w4 [v [Hrun [Hcr Hr]]]]].
    pose proof (crawl_loop_grows _ _ _ _ _ _ Hrun) as Hg.
    rewrite Hrun.
    destruct Hr as [[st [-> [Hv Hinv]]]|[e ->]].
    - eexists; exists w4. split; [exact Hg|]. split; [reflexivity|].
      left. exists st. split; [reflexivity|]. split; [exact Hinv|].
      split; [|split].
      + eapply crawl_loop_keeps with (I := items_ok base);
          [| apply items_ok_start | exact Hrun].
        intros; eapply items_ok_step; eauto.
      + eapply crawl_loop_keeps with (I := near env base);
          [| apply near_start | exact Hrun].
        intros; eapply near_step; eauto.
      + rewrite Hv. exact (crawled_seed Hcr).
    - eexists; exists w4. split; [exact Hg|]. split; [reflexivity|].
      right. eauto. }
  destruct (url_parse env input) as [base|] eqn:Hparse.
  { right. destruct (Hcrawl base Hn) as [r [w4 H]]. exists tenant, base, r, w4.
    split; [reflexivity|].
    split; [exists input; split; [exact Hin | now left] | exact H]. }
  destruct (url_parse env (lit "https://" ++ input)) as [base|] eqn:Hparse'.
  { right. destruct (Hcrawl base Hn) as [r [w4 H]]. exists tenant, base, r, w4.
    split; [reflexivity|].
    split; [exists input; split; [exact Hin | right; now split] | exact H]. }
  left. split; [right; unfold unresolved; rewrite Hin; now split|]. eexists.
  apply (POST_no_url _ _ _ _ Hnl Hp Hs Hu Hs' Hu' Ht Hin Hn).
Qed.

Lemma password_ok_complete env req p :
  req_password req = Some (JStr p) -> ADMIN_PASSWORD env = Some p -> p <> [] ->
  password_ok env (req_password req) = true.
Proof.
  intros -> Hs Hp. unfold password_ok. rewrite Hs, eqb_refl.
  destruct p; [congruence | reflexivity].
Qed.

(** A request that has a password has a body that is not [null]. *)
Lemma password_ok_body env req :
  password_ok env (req_password req) = true -> is_null (req_body req) = false.
Proof.
  unfold req_password. destruct (req_body req); try reflexivity. discriminate.
Qed.

(** X5. A request with the right password but without a slug or without an
    address, or with one that is falsy, gets status 400, and the world
    after it is the world before it: nothing was looked up, deleted,
    fetched or inserted. *)
Theorem incomplete_request_is_inert fuel env req w p :
  req_password req = Some (JStr p) -> ADMIN_PASSWORD env = Some p -> p <> [] ->
  truthy_member (req_slug req) = false \/ truthy_member (req_url req) = false ->
  POST fuel env req w
  = (Ok (mkResponse 400 (error_json (lit "slug and url are required"))), w).
Proof.
  intros Hreq Hsecret Hp Hmiss.
  pose proof (password_ok_complete env req Hreq Hsecret Hp) as Hok.
  pose proof (password_ok_body env req Hok) as Hnl.
  destruct (POST_early fuel env req w)
    as [[slug [url [_ [_ [Hs [Hu [Hs' Hu']]]]]]]|[[_ [Hno _]]|[[_ [_ [_ H]]]|[Hn _]]]].
  - rewrite Hs, Hu in Hmiss. simpl in Hmiss. rewrite Hs', Hu' in Hmiss.
    destruct Hmiss; discriminate.
  - congruence.
  - exact H.
  - congruence.
Qed.

Lemma incomplete_request_is_inert_witness :
  POST 11 (Sample.env (Sample.letters 300) [] None [])
       (mkRequest (Sample.scrape_body (lit "secret") (lit "demo") []))
       Sample.busy_world
  = (Ok (mkResponse 400 (error_json (lit "slug and url are required"))),
     Sample.busy_world).
Proof.
  apply (@incomplete_request_is_inert 11 _ _ _ (lit "secret"));
    [reflexivity | reflexivity | discriminate | right; reflexivity].
Defined.



(** The three ways a request can go. *)
Lemma POST_total extra env req w :
  (exists code msg,
      POST (11 + extra) env req w = (Ok (mkResponse code (error_json msg)), w)
      /\ (code = 401%nat \/ code = 400%nat
          \/ (code = 500%nat /\ is_null (req_body req) = true)))
  \/ (exists slug msg,
        req_slug req = Some slug
        /\ POST (11 + extra) env req w
           = (Ok (mkResponse 500 (error_json msg)), logged w [EvTenantLookup slug]))
  \/ (exists slug targetUrl tenant base r w4,
        req_slug req = Some slug
        /\ req_url req = Some targetUrl
        /\ db_tenant env w slug = Some tenant
        /\ resolves_value env targetUrl base
        /\ grows tenant (after_deletes env tenant slug w) w4
        /\ POST (11 + extra) env req w = (Ok r, w4)
        /\ ((exists st,
               r = mkResponse 200 (ok_json env tenant (createdItems st))
               /\ crawl_inv base (after_deletes env tenant slug w) st w4
               /\ items_ok base st /\ near env base st
               /\ In base (visited st))
            \/ exists e, r = mkResponse 500 (error_json e))).
Proof.
  destruct (POST_early (11 + extra) env req w)
    as [[slug [url [Hnl [Hp [Hs [Hu [Hs' Hu']]]]]]]|
        [[_ [_ H]]|[[_ [_ [_ H]]]|[Hnl H]]]].
  - destruct (POST_run extra env req w Hnl Hp Hs Hu Hs' Hu')
      as [[_ [msg H]]|[tenant [base [r [w4 [Hdb [Hres [Hg [Hrun Hr]]]]]]]]].
    + right. left. exists slug, msg. split; assumption.
    + right. right. exists slug, url, tenant, base, r, w4.
      repeat split; assumption.
  - left. eexists; eexists. split; [exact H | now left].
  - left. eexists; eexists. split; [exact H | now right; left].
  - left. eexists; eexists. split; [exact H | right; right; now split].
Qed.

(** X7. The handler answers every request, and [ok] tells the status: a
    response with status 200 has [ok: true], no [error] and a count of at
    most 8 pages; every other response has status 400, 401 or 500, with
    [ok: false] and an [error] that is a string. *)
Theorem ok_tells_the_status extra env req w :
  exists r w',
    POST (11 + extra) env req w = (Ok r, w')
    /\ ((status r = 200%nat
         /\ field "ok" (body r) = Some (JBool true)
         /\ field "error" (body r) = None
         /\ exists n, field "pages_processed" (body r) = Some (JNat n)
                      /\ (n <= 8)%nat)
        \/ ((status r = 400 \/ status r = 401 \/ status r = 500)%nat
            /\ field "ok" (body r) = Some (JBool false)
            /\ exists msg, field "error" (body r) = Some (JStr msg))).
Proof.
  destruct (POST_total extra env req w)
    as [[code [msg [H Hc]]]|[[slug [msg [_ H]]]|
        [slug [url [tenant [base [r [w4 [_ [_ [_ [_ [_ [H Hr]]]]]]]]]]]]]].
  - eexists; eexists. split; [exact H|]. right. simpl.
    split; [tauto|]. split; [reflexivity | eauto].
  - eexists; eexists. split; [exact H|]. right. simpl.
    split; [tauto|]. split; [reflexivity | eauto].
  - exists r, w4. split; [exact H|].
    destruct Hr as [[st [-> [Hinv [[Hnd [Hincl _]] _]]]]|[e ->]].
    + left. simpl. repeat split. exists (length (createdItems st)).
      split; [reflexivity|].
      rewrite <- (length_map fst).
      etransitivity; [apply (NoDup_incl_length Hnd Hincl)|].
      apply (inv_bound Hinv).
    + right. simpl. split; [tauto|]. split; [reflexivity | eauto].
Qed.

Lemma rows_of_others t u rows :
  t <> u -> rows_of t (others u rows) = rows_of t rows.
Proof.
  intros Hne. unfold rows_of, others. induction rows as [|r rows IH]; simpl;
    [reflexivity|].
  destruct (JsString.eqb (ki_tenant_id r) u) eqn:Eu; simpl.
  - apply eqb_eq in Eu.
    assert (E : JsString.eqb (ki_tenant_id r) t = false)
      by (apply eqb_neq; congruence).
    now rewrite E.
  - now rewrite IH.
Qed.

Lemma embeddings_of_others t u rows :
  t <> u -> embeddings_of t (other_embeddings u rows) = embeddings_of t rows.
Proof.
  intros Hne. unfold embeddings_of, other_embeddings.
  induction rows as [|r rows IH]; simpl; [reflexivity|].
  destruct (JsString.eqb (emb_tenant_id r) u) eqn:Eu; simpl.
  - apply eqb_eq in Eu.
    assert (E : JsString.eqb (emb_tenant_id r) t = false)
      by (apply eqb_neq; congruence).
    now rewrite E.
  - now rewrite IH.
Qed.

Lemma rows_of_admin_rows tenant t krows :
  Forall (admin_row tenant) krows ->
  rows_of t krows = if JsString.eqb (tenant_id tenant) t then krows else [].
Proof.
  intros H. unfold rows_of. induction H as [|r rows [Hr _] _ IH]; simpl.
  - now destruct (JsString.eqb (tenant_id tenant) t).
  - rewrite Hr, IH. now destruct (JsString.eqb (tenant_id tenant) t).
Qed.

Lemma embeddings_of_admin_rows tenant t krows erows :
  Forall (admin_emb tenant krows) erows ->
  embeddings_of t erows = if JsString.eqb (tenant_id tenant) t then erows else [].
Proof.
  intros H. unfold embeddings_of. induction H as [|r rows [Hr _] _ IH]; simpl.
  - now destruct (JsString.eqb (tenant_id tenant) t).
  - rewrite Hr, IH. now destruct (JsString.eqb (tenant_id tenant) t).
Qed.

Lemma after_deletes_tables env tenant slug w :
  (knowledge_items (after_deletes env tenant slug w) = knowledge_items w
   \/ knowledge_items (after_deletes env tenant slug w)
      = others (tenant_id tenant) (knowledge_items w))
  /\ (embeddings (after_deletes env tenant slug w) = embeddings w
      \/ embeddings (after_deletes env tenant slug w)
         = other_embeddings (tenant_id tenant) (embeddings w))
  /\ log (after_deletes env tenant slug w)
     = log w ++ [EvTenantLookup slug; EvDeleteEmbeddings (tenant_id tenant);
                 EvDeleteKnowledge (tenant_id tenant)].
Proof.
  unfold after_deletes. cbv zeta. cbn [knowledge_items embeddings log logged].
  repeat split.
  - destruct (db_delete_error env _); [now left | now right].
  - destruct (db_delete_error env (logged w [EvTenantLookup slug]));
      [now left | now right].
  - now rewrite <- !app_assoc.
Qed.

(** X8. The rows of the other tenants are never touched. Whatever the request
    and whatever the services answer, the rows of the two tables that
    belong to a tenant other than the one that the slug of the request
    names are, after the request, the same rows in the same order. *)
Theorem other_tenants_untouched extra env req w :
  exists r w',
    POST (11 + extra) env req w = (Ok r, w')
    /\ forall t,
         (forall slug tenant,
             req_slug req = Some slug -> db_tenant env w slug = Some tenant ->
             tenant_id tenant <> t) ->
         rows_of t (knowledge_items w') = rows_of t (knowledge_items w)
         /\ embeddings_of t (embeddings w') = embeddings_of t (embeddings w).
Proof.
  destruct (POST_total extra env req w)
    as [[code [msg [H Hc]]]|[[slug [msg [_ H]]]|
        [slug [url [tenant [base [r [w4 [Hs [_ [Hdb [_ [Hg [H _]]]]]]]]]]]]]].
  - eexists; eexists. split; [exact H|]. intros; split; reflexivity.
  - eexists; eexists. split; [exact H|]. intros; split; reflexivity.
  - exists r, w4. split; [exact H|]. intros t Hother.
    specialize (Hother slug tenant Hs Hdb).
    assert (Hne : JsString.eqb (tenant_id tenant) t = false)
      by now apply eqb_neq.
    assert (Hg' := Hg).
    destruct Hg' as [krows erows evs Hk He _ _ _ _ _ _ _ _ _].
    destruct (@grows_rows tenant _ w4 krows erows Hg Hk He) as [Fk [Fe _]].
    destruct (after_deletes_tables env tenant slug w) as [Hk0 [He0 _]].
    rewrite Hk, He. unfold rows_of, embeddings_of. rewrite !filter_app.
    fold (rows_of t krows) (embeddings_of t erows).
    rewrite (rows_of_admin_rows t Fk), (embeddings_of_admin_rows t Fe), Hne.
    rewrite !app_nil_r. split.
    + destruct Hk0 as [-> | ->]; [reflexivity|].
      apply rows_of_others. congruence.
    + destruct He0 as [-> | ->]; [reflexivity|].
      apply embeddings_of_others. congruence.
Qed.


(** X10. What the handler sends to the store. While it answers a request, every
    row that it sends to [knowledge_items] is a row of the tenant that the
    slug names, with a title, the address of the page and 200 to 12000
    code units of text that does not start with white space and has no
    two white spaces in a row; every row that it sends to [embeddings] is
    of the same tenant and holds the first 8000 code units of a row that
    [knowledge_items] has taken; so no more rows are sent to [embeddings]
    than to [knowledge_items]. *)
Theorem rows_sent_are_well_formed extra env req w :
  exists r w' evs,
    POST (11 + extra) env req w = (Ok r, w')
    /\ log w' = log w ++ evs
    /\ (length (embeddings_sent evs) <= length (knowledge_sent evs))%nat
    /\ ((knowledge_sent evs = [] /\ embeddings_sent evs = [])
        \/ exists slug tenant,
             req_slug req = Some slug /\ db_tenant env w slug = Some tenant
             /\ Forall (admin_row tenant) (knowledge_sent evs)
             /\ Forall (fun e =>
                          emb_tenant_id e = tenant_id tenant
                          /\ exists k,
                               In k (knowledge_items w')
                               /\ In k (knowledge_sent evs)
                               /\ emb_content e = slice (ki_content k) 0 8000)
                       (embeddings_sent evs)).
Proof.
  destruct (POST_total extra env req w)
    as [[code [msg [H Hc]]]|[[slug [msg [Hs H]]]|
        [slug [url [tenant [base [r [w4 [Hs [_ [Hdb [_ [Hg [H _]]]]]]]]]]]]]].
  - eexists; exists w, []. split; [exact H|]. split; [now rewrite app_nil_r|].
    split; [reflexivity | now left].
  - eexists; eexists; exists [EvTenantLookup slug]. split; [exact H|].
    split; [reflexivity|]. split; [reflexivity | now left].
  - destruct Hg as [krows erows evs Hk _ Hl Ik _ Fk Fe _ M N _].
    destruct (after_deletes_tables env tenant slug w) as [_ [_ Hl0]].
    exists r, w4.
    exists ([EvTenantLookup slug; EvDeleteEmbeddings (tenant_id tenant);
             EvDeleteKnowledge (tenant_id tenant)] ++ evs).
    split; [exact H|]. split; [now rewrite Hl, Hl0, <- app_assoc|].
    rewrite knowledge_sent_app, embeddings_sent_app. simpl. split.
    + lia.
    + right. exists slug, tenant. repeat split; auto.
      eapply Forall_impl; [|exact Fe].
      intros e [He [k [Hin Hc]]]. split; [exact He|]. exists k.
      repeat split; auto. rewrite Hk. apply in_or_app. now right.
Qed.

Lemma rows_of_others_same t rows : rows_of t (others t rows) = [].
Proof.
  unfold rows_of, others. induction rows as [|r rows IH]; simpl; [reflexivity|].
  destruct (JsString.eqb (ki_tenant_id r) t) eqn:E; simpl; [exact IH|].
  now rewrite E.
Qed.

Lemma embeddings_of_others_same t rows :
  embeddings_of t (other_embeddings t rows) = [].
Proof.
  unfold embeddings_of, other_embeddings.
  induction rows as [|r rows IH]; simpl; [reflexivity|].
  destruct (JsString.eqb (emb_tenant_id r) t) eqn:E; simpl; [exact IH|].
  now rewrite E.
Qed.

Lemma after_deletes_clean env tenant slug w :
  (forall w0, db_delete_error env w0 = false) ->
  knowledge_items (after_deletes env tenant slug w)
  = others (tenant_id tenant) (knowledge_items w)
  /\ embeddings (after_deletes env tenant slug w)
     = other_embeddings (tenant_id tenant) (embeddings w).
Proof.
  intros Hdel. unfold after_deletes. cbv zeta.
  cbn [knowledge_items embeddings log logged]. rewrite !Hdel.
  split; reflexivity.
Qed.

(** X11. A run replaces the knowledge of the tenant. Where the store does not
    refuse the deletes, after a response with status 200 the rows of the
    tenant in [knowledge_items] are exactly the pages that [items] lists,
    in the same order, with their address and title; and the rows of the
    tenant in [embeddings] are no more than those, each with the first
    8000 code units of one of them. Nothing of what the tenant had before
    is left. *)
Theorem scrape_replaces_the_knowledge extra env req w :
  (forall w0, db_delete_error env w0 = false) ->
  exists r w',
    POST (11 + extra) env req w = (Ok r, w')
    /\ (status r = 200%nat ->
        exists tenant items,
          body r = ok_json env tenant items
          /\ map row_key (rows_of (tenant_id tenant) (knowledge_items w'))
             = map item_key items
          /\ Forall (admin_emb tenant
                       (rows_of (tenant_id tenant) (knowledge_items w')))
                    (embeddings_of (tenant_id tenant) (embeddings w'))
          /\ (length (embeddings_of (tenant_id tenant) (embeddings w'))
              <= length items)%nat).
Proof.
  intros Hdel.
  destruct (POST_total extra env req w)
    as [[code [msg [H Hc]]]|[[slug [msg [Hs H]]]|
        [slug [url [tenant [base [r [w4 [Hs [_ [Hdb [_ [Hg [H Hr]]]]]]]]]]]]]].
  - eexists; eexists. split; [exact H|]. simpl. intros E.
    destruct Hc as [-> | [-> | [-> _]]]; discriminate.
  - eexists; eexists. split; [exact H|]. discriminate.
  - exists r, w4. split; [exact H|].
    destruct Hr as [[st [-> [Hinv _]]]|[e ->]]; [|discriminate].
    intros _. exists tenant, (createdItems st). split; [reflexivity|].
    destruct (inv_rows Hinv) as [rows [Hrows Hkeys]].
    assert (Hg' := Hg).
    destruct Hg' as [krows erows evs Hk He _ _ _ _ _ _ _ _ _].
    destruct (@grows_rows tenant _ w4 krows erows Hg Hk He) as [Fk [Fe Hlen]].
    assert (krows = rows) by (rewrite Hk in Hrows; now apply app_inv_head in Hrows).
    subst rows.
    assert (Ek : rows_of (tenant_id tenant) (knowledge_items w4) = krows).
    { rewrite Hk, (proj1 (after_deletes_clean env tenant slug w Hdel)).
      unfold rows_of at 1. rewrite filter_app.
      fold (rows_of (tenant_id tenant) (others (tenant_id tenant) (knowledge_items w)))
           (rows_of (tenant_id tenant) krows).
      rewrite rows_of_others_same, (rows_of_admin_rows _ Fk), eqb_refl.
      reflexivity. }
    assert (Ee : embeddings_of (tenant_id tenant) (embeddings w4) = erows).
    { rewrite He, (proj2 (after_deletes_clean env tenant slug w Hdel)).
      unfold embeddings_of at 1. rewrite filter_app.
      fold (embeddings_of (tenant_id tenant)
              (other_embeddings (tenant_id tenant) (embeddings w)))
           (embeddings_of (tenant_id tenant) erows).
      rewrite embeddings_of_others_same, (embeddings_of_admin_rows _ Fe), eqb_refl.
      reflexivity. }
    rewrite Ek, Ee. repeat split; auto.
    rewrite <- (length_map item_key), <- Hkeys, length_map. exact Hlen.
Qed.

Lemma scrape_replaces_the_knowledge_witness :
  exists r w' tenant items,
    POST 11 (Sample.env (Sample.letters 300) [lit "/about"; lit "mailto:x"] None [])
         Sample.scrape Sample.busy_world = (Ok r, w')
    /\ body r = ok_json (Sample.env (Sample.letters 300) [lit "/about"; lit "mailto:x"] None [])
                        tenant items
    /\ map row_key (rows_of (tenant_id tenant) (knowledge_items w'))
       = map item_key items.
Proof.
  destruct (@scrape_replaces_the_knowledge 0
              (Sample.env (Sample.letters 300) [lit "/about"; lit "mailto:x"] None [])
              Sample.scrape Sample.busy_world) as [r [w' [H1 H2]]];
    [reflexivity|].
  assert (H200 : status r = 200%nat).
  { pose proof AdminFacts.scrape_two_pages as E.
    change 11%nat with (11 + 0)%nat in E at 1. rewrite H1 in E.
    simpl in E. now inversion E. }
  destruct (H2 H200) as [tenant [items [Hb [Hk _]]]].
  exists r, w', tenant, items. repeat split; assumption.
Defined.

(** X12. The pages that the answer lists. In a response with status 200,
    [items] lists at most 8 pages, no page twice; each was fetched while
    the request was answered and has for [url.origin] the string that
    the address of the request has, as [normalizeUrl] resolved it; and
    each has for title
    ["Website"] when it is that address, else its path without trailing
    slashes, or ["/"]. *)
Theorem items_are_pages_of_the_site extra env req w :
  exists r w',
    POST (11 + extra) env req w = (Ok r, w')
    /\ (status r = 200%nat ->
        exists tenant targetUrl base items,
          req_url req = Some targetUrl
          /\ resolves_value env targetUrl base
          /\ body r = ok_json env tenant items
          /\ (length items <= 8)%nat
          /\ NoDup (map fst items)
          /\ Forall (fun it => on_site base (fst it)) items
          /\ (exists v, fetched (log w') = fetched (log w) ++ v
                        /\ incl (map fst items) v)
          /\ Forall (fun it => snd it = page_title base (fst it)) items).
Proof.
  destruct (POST_total extra env req w)
    as [[code [msg [H Hc]]]|[[slug [msg [Hs H]]]|
        [slug [url [tenant [base [r [w4 [Hs [Hu [Hdb [Hres [Hg [H Hr]]]]]]]]]]]]]].
  - eexists; eexists. split; [exact H|]. simpl. intros E.
    destruct Hc as [-> | [-> | [-> _]]]; discriminate.
  - eexists; eexists. split; [exact H|]. discriminate.
  - exists r, w4. split; [exact H|].
    destruct Hr as [[st [-> [Hinv [[Hnd [Hincl Ht]] _]]]]|[e ->]]; [|discriminate].
    intros _. exists tenant, url, base, (createdItems st).
    repeat split; auto.
    + rewrite <- (length_map fst).
      etransitivity; [apply (NoDup_incl_length Hnd Hincl)|].
      apply (inv_bound Hinv).
    + apply Forall_forall. intros it Hit.
      pose proof (inv_visited Hinv) as Hv. rewrite Forall_forall in Hv.
      apply Hv, Hincl. now apply in_map.
    + exists (visited st). split; [|exact Hincl].
      rewrite (inv_fetched Hinv).
      destruct (after_deletes_tables env tenant slug w) as [_ [_ ->]].
      rewrite fetched_app. simpl. now rewrite app_nil_r.
Qed.

(** X13. The crawl is one level deep. Every address that the admin route
    fetches while it answers a request is the start address, as
    [normalizeUrl] resolved it, or one of the ten first links of a body
    that a fetch of the start address gave; links of other pages are not
    followed. *)
Theorem crawl_is_one_level_deep extra env req w :
  exists r w' v,
    POST (11 + extra) env req w = (Ok r, w')
    /\ fetched (log w') = fetched (log w) ++ v
    /\ (status r = 200%nat ->
        exists targetUrl base,
          req_url req = Some targetUrl
          /\ resolves_value env targetUrl base
          /\ In base v
          /\ Forall (fun u => u = base \/ linked env base u) v).
Proof.
  destruct (POST_total extra env req w)
    as [[code [msg [H Hc]]]|[[slug [msg [Hs H]]]|
        [slug [url [tenant [base [r [w4 [Hs [Hurl [Hdb [Hres [Hg [H Hr]]]]]]]]]]]]]].
  - eexists; exists w, []. split; [exact H|].
    split; [now rewrite app_nil_r|]. simpl. intros E.
    destruct Hc as [-> | [-> | [-> _]]]; discriminate.
  - eexists; eexists; exists []. split; [exact H|]. simpl.
    rewrite fetched_app. split; [reflexivity | discriminate].
  - assert (Hlog : fetched (log (after_deletes env tenant slug w))
                   = fetched (log w)).
    { destruct (after_deletes_tables env tenant slug w) as [_ [_ ->]].
      rewrite fetched_app. simpl. now rewrite app_nil_r. }
    destruct Hr as [[st [-> [Hinv [_ [Hnear Hseed]]]]]|[e ->]].
    + exists (mkResponse 200 (ok_json env tenant (createdItems st))), w4,
        (visited st).
      split; [exact H|]. split; [now rewrite (inv_fetched Hinv), Hlog|].
      intros _. exists url, base. repeat split; auto.
      apply Forall_forall. intros u Hu. apply Hnear. now left.
    + destruct Hg as [krows erows evs _ _ Hl _ _ _ _ _ _ Hq].
      exists (mkResponse 500 (error_json e)), w4, (fetched evs).
      split; [exact H|]. split; [|discriminate].
      now rewrite Hl, fetched_app, Hlog.
Qed.

End AdminMore.

(** ** The chat route: calls, outcomes and defaults *)

Module ChatMore.
Import Chat Props Cover JsStringFacts ChatFacts.

Lemma logged_logged w a b : logged (logged w a) b = logged w (a ++ b).
Proof. unfold logged. simpl. now rewrite <- app_assoc. Qed.

Lemma chat_tenant_exact env slug w :
  getTenantBySlug env slug w
  = (match db_tenant env w slug with
     | Some t => Ok t
     | None => Throw (lit "Tenant not found")
     end, logged w [EvTenantLookup slug]).
Proof. run. destruct (db_tenant env w slug); reflexivity. Qed.

Lemma chat_settings_exact env t w :
  getTenantSettings env t w
  = (Ok (settings_at env w t), logged w [EvSettingsLookup t]).
Proof. run. unfold settings_at. destruct (db_settings env w t); reflexivity. Qed.

Lemma search_exact env t q w :
  exists ms sevs,
    search env t q w = (Ok ms, logged w sevs)
    /\ search_outcome env w t q sevs ms.
Proof.
  unfold search_outcome. run. unfold logged.
  destruct (ai_embedding env w q) as [v|] eqn:Ev; simpl.
  - destruct (db_match_embeddings env _ v 4 t) as [e|[data|]] eqn:Em; simpl;
      eexists; exists [EvEmbed q; EvMatchEmbeddings t 4];
      (split; [now rewrite <- app_assoc|]); right;
      (split; [reflexivity|]); exists v; (split; [reflexivity|]);
      now rewrite Em.
  - exists [], [EvEmbed q]. split; [reflexivity|]. left. auto.
Qed.

Lemma generate_exact env tenant s message kb w wrap :
  (match generate env tenant s message kb w with
   | (Ok text, w4) => (Ok (wrap text), w4)
   | (Throw e, w4) => (Ok (server_error e), w4)
   | (Diverge, w4) => (Diverge, w4)
   end)
  = (Ok (fst (generated env w tenant s message kb wrap)),
     snd (generated env w tenant s message kb wrap)).
Proof.
  unfold generated. run. cbv zeta.
  destruct (js_string env message); [|reflexivity].
  destruct (ai_completion env w _) as [[c|]|]; reflexivity.
Qed.

(** The stages up to the matches, for a request with a message and a
    slug whose tenant is found. *)
Lemma chat_stages env w slug tenant q :
  db_tenant env w slug = Some tenant ->
  exists ms sevs,
    getTenantBySlug env slug w = (Ok tenant, logged w [EvTenantLookup slug])
    /\ getTenantSettings env (tenant_id tenant) (logged w [EvTenantLookup slug])
       = (Ok (settings_at env (logged w [EvTenantLookup slug]) (tenant_id tenant)),
          logged w [EvTenantLookup slug; EvSettingsLookup (tenant_id tenant)])
    /\ search env (tenant_id tenant) q
         (logged w [EvTenantLookup slug; EvSettingsLookup (tenant_id tenant)])
       = (Ok ms, searched w slug tenant sevs)
    /\ search_outcome env
         (logged w [EvTenantLookup slug; EvSettingsLookup (tenant_id tenant)])
         (tenant_id tenant) q sevs ms.
Proof.
  intros Hdb.
  destruct (search_exact env (tenant_id tenant) q
              (logged w [EvTenantLookup slug; EvSettingsLookup (tenant_id tenant)]))
    as [ms [sevs [Hsearch Hout]]].
  exists ms, sevs. split; [|split; [|split]].
  - rewrite chat_tenant_exact, Hdb. reflexivity.
  - rewrite chat_settings_exact, logged_logged. reflexivity.
  - rewrite Hsearch, logged_logged. reflexivity.
  - exact Hout.
Qed.

Lemma chat_no_tenant env w slug :
  db_tenant env w slug = None ->
  getTenantBySlug env slug w
  = (Throw (lit "Tenant not found"), logged w [EvTenantLookup slug]).
Proof. intros Hdb. now rewrite chat_tenant_exact, Hdb. Qed.

(** The soft handler, from the request to the response. *)
Lemma soft_POST_anatomy env req w :
  (exists e, ChatSoft.POST env req w = (Ok (server_error e), w)
             /\ (is_null (req_body req) = true
                 \/ has_slice (message_of req) = false))
  \/ (exists m, ChatSoft.POST env req w = (Ok (bad_request m), w)
             /\ (truthy_json (message_of req) = false
                 \/ truthy_member (slug_of req) = false))
  \/ (exists slug,
        truthy_json (message_of req) = true
        /\ slug_of req = Some slug /\ truthy_json slug = true
        /\ db_tenant env w slug = None
        /\ ChatSoft.POST env req w
           = (Ok (server_error (lit "Tenant not found")),
              logged w [EvTenantLookup slug]))
  \/ (exists slug tenant ms sevs,
        truthy_json (message_of req) = true
        /\ slug_of req = Some slug /\ truthy_json slug = true
        /\ db_tenant env w slug = Some tenant
        /\ search_outcome env
             (logged w [EvTenantLookup slug; EvSettingsLookup (tenant_id tenant)])
             (tenant_id tenant) (message_of req) sevs ms
        /\ ChatSoft.POST env req w
           = let s := settings_at env (logged w [EvTenantLookup slug])
                                  (tenant_id tenant) in
             let w3 := searched w slug tenant sevs in
             let scored := ChatSoft.scored ms in
             if debug_on req
             then (Ok (mkResponse 200
                         (ChatSoft.debug_json slug tenant s scored)), w3)
             else if (length scored =? 0)%nat
             then (Ok (answer (fallback_message s) s false), w3)
             else
               let g := generated env w3 tenant s (message_of req)
                          (map kb_line
                               (ChatSoft.top ChatSoft.MIN_SIMILARITY 4 scored))
                          (fun text => answer text s true) in
               (Ok (fst g), snd g)).
Proof.
  destruct (is_null (req_body req)) eqn:Hn;
    [left; exists null_body; split; [now apply soft_POST_null | now left]|].
  destruct (truthy_json (message_of req)) eqn:Hm;
    [|right; left; destruct (@soft_POST_bad_request env req w Hn) as [m H]; eauto].
  destruct (slug_of req) as [slug|] eqn:Hs;
    [|right; left; destruct (@soft_POST_bad_request env req w Hn) as [m H];
      [right; now rewrite Hs | exists m; split; [exact H | now right]]].
  destruct (truthy_json slug) eqn:Hs';
    [|right; left; destruct (@soft_POST_bad_request env req w Hn) as [m H];
      [right; now rewrite Hs | exists m; split; [exact H | now right]]].
  destruct (has_slice (message_of req)) eqn:Hsl;
    [|left; exists no_slice; split;
      [exact (soft_POST_no_slice env req w Hn Hm Hs Hs' Hsl) | now right]].
  right. right. destruct (db_tenant env w slug) as [tenant|] eqn:Hdb.
  - right.
    destruct (chat_stages env w slug (message_of req) Hdb)
      as [ms [sevs [Ht [Hset [Hsearch Hout]]]]].
    exists slug, tenant, ms, sevs. repeat (split; [assumption || reflexivity|]).
    rewrite (soft_POST_stages _ _ _ Hn Hm Hs Hs' Hsl Ht Hset Hsearch). cbv zeta.
    destruct (debug_on req); [reflexivity|].
    destruct (length (ChatSoft.scored ms) =? 0)%nat; [reflexivity|].
    apply generate_exact.
  - left. exists slug. repeat (split; [assumption || reflexivity|]).
    apply (soft_POST_no_tenant _ _ _ Hn Hm Hs Hs' Hsl (chat_no_tenant env w slug Hdb)).
Qed.

(** The hard handler, from the request to the response. *)
Lemma hard_POST_anatomy env req w :
  (exists e, ChatHard.POST env req w = (Ok (server_error e), w)
             /\ (is_null (req_body req) = true
                 \/ has_slice (message_of req) = false))
  \/ (exists m, ChatHard.POST env req w = (Ok (bad_request m), w)
             /\ (truthy_json (message_of req) = false
                 \/ truthy_member (slug_of req) = false))
  \/ (exists slug,
        truthy_json (message_of req) = true
        /\ slug_of req = Some slug /\ truthy_json slug = true
        /\ db_tenant env w slug = None
        /\ ChatHard.POST env req w
           = (Ok (server_error (lit "Tenant not found")),
              logged w [EvTenantLookup slug]))
  \/ (exists slug tenant ms sevs,
        truthy_json (message_of req) = true
        /\ slug_of req = Some slug /\ truthy_json slug = true
        /\ db_tenant env w slug = Some tenant
        /\ search_outcome env
             (logged w [EvTenantLookup slug; EvSettingsLookup (tenant_id tenant)])
             (tenant_id tenant) (message_of req) sevs ms
        /\ ChatHard.POST env req w
           = let s := settings_at env (logged w [EvTenantLookup slug])
                                  (tenant_id tenant) in
             let w3 := searched w slug tenant sevs in
             let relevant :=
               ChatHard.relevantMatches ChatHard.MIN_SIMILARITY ms in
             if debug_on req
             then (Ok (mkResponse 200
                         (ChatHard.debug_json slug tenant s ms relevant)), w3)
             else if (length relevant =? 0)%nat
             then (Ok (answer (fallback_message s) s false), w3)
             else
               let g := generated env w3 tenant s (message_of req)
                          (map kb_line relevant)
                          (fun text => answer text s true) in
               (Ok (fst g), snd g)).
Proof.
  destruct (is_null (req_body req)) eqn:Hn;
    [left; exists null_body; split; [now apply hard_POST_null | now left]|].
  destruct (truthy_json (message_of req)) eqn:Hm;
    [|right; left; destruct (@hard_POST_bad_request env req w Hn) as [m H]; eauto].
  destruct (slug_of req) as [slug|] eqn:Hs;
    [|right; left; destruct (@hard_POST_bad_request env req w Hn) as [m H];
      [right; now rewrite Hs | exists m; split; [exact H | now right]]].
  destruct (truthy_json slug) eqn:Hs';
    [|right; left; destruct (@hard_POST_bad_request env req w Hn) as [m H];
      [right; now rewrite Hs | exists m; split; [exact H | now right]]].
  destruct (has_slice (message_of req)) eqn:Hsl;
    [|left; exists no_slice; split;
      [exact (hard_POST_no_slice env req w Hn Hm Hs Hs' Hsl) | now right]].
  right. right. destruct (db_tenant env w slug) as [tenant|] eqn:Hdb.
  - right.
    destruct (chat_stages env w slug (message_of req) Hdb)
      as [ms [sevs [Ht [Hset [Hsearch Hout]]]]].
    exists slug, tenant, ms, sevs. repeat (split; [assumption || reflexivity|]).
    rewrite (hard_POST_stages _ _ _ Hn Hm Hs Hs' Hsl Ht Hset Hsearch). cbv zeta.
    destruct (debug_on req); [reflexivity|].
    destruct (length (ChatHard.relevantMatches _ ms) =? 0)%nat; [reflexivity|].
    apply generate_exact.
  - left. exists slug. repeat (split; [assumption || reflexivity|]).
    apply (hard_POST_no_tenant _ _ _ Hn Hm Hs Hs' Hsl (chat_no_tenant env w slug Hdb)).
Qed.

(** The first version of the handler, from the request to the response. *)
Lemma legacy_POST_anatomy env req w :
  (is_null (req_body req) = true
   /\ ChatLegacy.POST env req w = (Ok (server_error null_body), w))
  \/ (truthy_json (message_of req) = false
   /\ ChatLegacy.POST env req w
      = (Ok (bad_request (lit "message required")), w))
  \/ (truthy_json (message_of req) = true
      /\ db_tenant env w (ChatLegacy.slug_or_default req) = None
      /\ ChatLegacy.POST env req w
         = (Ok (server_error (lit "Tenant not found")),
            logged w [EvTenantLookup (ChatLegacy.slug_or_default req)]))
  \/ (exists tenant ms sevs,
        truthy_json (message_of req) = true
        /\ db_tenant env w (ChatLegacy.slug_or_default req) = Some tenant
        /\ search_outcome env
             (logged w [EvTenantLookup (ChatLegacy.slug_or_default req);
                        EvSettingsLookup (tenant_id tenant)])
             (tenant_id tenant) (message_of req) sevs ms
        /\ ChatLegacy.POST env req w
           = let slug := ChatLegacy.slug_or_default req in
             let s := settings_at env (logged w [EvTenantLookup slug])
                                  (tenant_id tenant) in
             let w3 := searched w slug tenant sevs in
             let kb :=
               if (0 <? length ms)%nat then map kb_line ms
               else [lit "- Es sind noch keine Wissensinhalte hinterlegt."] in
             let g := generated env w3 tenant s (message_of req) kb
                        (fun text =>
                           mkResponse 200
                             (JObj [("text", JStr text);
                                    ("welcome_message",
                                     JStr (welcome_message s))]%string)) in
             (Ok (fst g), snd g)).
Proof.
  destruct (is_null (req_body req)) eqn:Hn;
    [left; split; [reflexivity | now apply legacy_POST_null]|].
  right.
  destruct (truthy_json (message_of req)) eqn:Hm;
    [|left; split; [reflexivity | now apply legacy_POST_bad_request]].
  right.
  destruct (db_tenant env w (ChatLegacy.slug_or_default req)) as [tenant|] eqn:Hdb.
  - right.
    destruct (chat_stages env w (ChatLegacy.slug_or_default req)
                (message_of req) Hdb)
      as [ms [sevs [Ht [Hset [Hsearch Hout]]]]].
    exists tenant, ms, sevs. repeat (split; [assumption || reflexivity|]).
    rewrite (legacy_POST_stages _ _ _ Hn Hm Ht Hset Hsearch). cbv zeta.
    apply (generate_exact env tenant _ (message_of req) _ _
             (fun text =>
                mkResponse 200
                  (JObj [("text", JStr text);
                         ("welcome_message", JStr (welcome_message _))]%string))).
  - left. repeat (split; [reflexivity|]).
    apply (legacy_POST_no_tenant _ _ _ Hn Hm (chat_no_tenant env w _ Hdb)).
Qed.

(** The soft ranker is silent only where nothing is usable. *)
Lemma top_nonempty t k scored :
  scored <> [] -> (0 < k)%nat -> ChatSoft.top t k scored <> [].
Proof.
  intros Hne Hk. rewrite top_is_sorted_pool.
  assert (Hpool : pool t scored <> []).
  { unfold pool. destruct (existsb _ _) eqn:E; [|exact Hne].
    rewrite <- filter_nonempty in E. intros Hnil. now rewrite Hnil in E. }
  assert (Hs : sort_desc (pool t scored) <> []).
  { intros Hnil. apply Hpool. apply Permutation_nil.
    rewrite <- Hnil. apply sort_desc_perm. }
  destruct (sort_desc _); [congruence|]. destruct k; [lia|]. discriminate.
Qed.

Lemma length_eqb_0 (A : Type) (l : list A) :
  (length l =? 0)%nat = false -> l <> [].
Proof. destruct l; [discriminate | discriminate]. Qed.

(** What the three versions have in common, from the request to the
    response: an error before any call, for a body that is [null] and,
    in the soft and the hard handler, for a message that cannot be
    sliced; or a refusal before any call; or a tenant that is not found;
    or the two lookups and the search, followed either by an answer
    without generation or by one call to the generation service. *)
Lemma handler_anatomy v env req w :
  (exists e, handler v env req w = (Ok (server_error e), w)
             /\ (is_null (req_body req) = true
                 \/ (v <> Legacy /\ has_slice (message_of req) = false)))
  \/ (exists m, handler v env req w = (Ok (bad_request m), w)
             /\ (truthy_json (message_of req) = false
                 \/ (v <> Legacy /\ truthy_member (slug_of req) = false)))
  \/ (exists slug,
        slug_used v req = Some slug
        /\ db_tenant env w slug = None
        /\ handler v env req w
           = (Ok (server_error (lit "Tenant not found")),
              logged w [EvTenantLookup slug]))
  \/ (exists slug tenant ms sevs,
        slug_used v req = Some slug
        /\ db_tenant env w slug = Some tenant
        /\ search_outcome env
             (logged w [EvTenantLookup slug; EvSettingsLookup (tenant_id tenant)])
             (tenant_id tenant) (message_of req) sevs ms
        /\ let s := settings_at env (logged w [EvTenantLookup slug])
                                (tenant_id tenant) in
           let w3 := searched w slug tenant sevs in
           (v <> Legacy
            /\ exists r,
                 handler v env req w = (Ok r, w3)
                 /\ ((debug_on req = true
                      /\ exists fields,
                           r = mkResponse 200 (JObj fields)
                           /\ field "text" (JObj fields) = None
                           /\ field "welcome_message" (JObj fields) = None
                           /\ field "from_kb" (JObj fields) = None
                           /\ field "settings" (JObj fields)
                              = Some (settings_json s))
                     \/ (debug_on req = false
                         /\ r = answer (fallback_message s) s false)))
           \/ (exists kb wrap,
                 (v <> Legacy -> debug_on req = false)
                 /\ (forall text,
                       status (wrap text) = 200%nat
                       /\ field "text" (body (wrap text)) = Some (JStr text)
                       /\ field "welcome_message" (body (wrap text))
                          = Some (JStr (welcome_message s))
                       /\ field "from_kb" (body (wrap text))
                          = if match v with Legacy => true | _ => false end
                            then None else Some (JBool true))
                 /\ kb = match v with
                         | Soft =>
                             map kb_line
                                 (ChatSoft.top ChatSoft.MIN_SIMILARITY 4
                                               (ChatSoft.scored ms))
                         | Hard =>
                             map kb_line
                                 (ChatHard.relevantMatches
                                    ChatHard.MIN_SIMILARITY ms)
                         | Legacy =>
                             if (0 <? length ms)%nat then map kb_line ms
                             else [lit "- Es sind noch keine Wissensinhalte hinterlegt."]
                         end
                 /\ kb <> []
                 /\ handler v env req w
                    = (Ok (fst (generated env w3 tenant s (message_of req) kb wrap)),
                       snd (generated env w3 tenant s (message_of req) kb wrap)))).
Proof.
  destruct v; simpl handler; simpl slug_used.
  - destruct (soft_POST_anatomy env req w)
      as [[e [H Hwhy]]|[[m [H Hwhy]]|[[slug [_ [Hs [_ [Hdb H]]]]]|
          [slug [tenant [ms [sevs [_ [Hs [_ [Hdb [Hout H]]]]]]]]]]]].
    + left. exists e. split; [exact H|].
      destruct Hwhy as [Hw|Hw];
        [now left | right; split; [discriminate | exact Hw]].
    + right. left. exists m. split; [exact H|].
      destruct Hwhy as [Hw|Hw];
        [now left | right; split; [discriminate | exact Hw]].
    + right. right. left. exists slug. auto.
    + right. right. right. exists slug, tenant, ms, sevs.
      repeat (split; [assumption|]). cbv zeta in *.
      destruct (debug_on req) eqn:Hd.
      { left. split; [discriminate|]. eexists. split; [exact H|]. left.
        split; [reflexivity|]. eexists. repeat split. }
      destruct (length (ChatSoft.scored ms) =? 0)%nat eqn:Hn.
      { left. split; [discriminate|]. eexists. split; [exact H|]. right.
        split; reflexivity. }
      right. eexists; eexists. split; [reflexivity|].
      split; [|split; [reflexivity|split; [|exact H]]].
      * intros text. repeat split.
      * intros E. apply map_eq_nil in E. revert E.
        apply top_nonempty; [now apply length_eqb_0 | lia].
  - destruct (hard_POST_anatomy env req w)
      as [[e [H Hwhy]]|[[m [H Hwhy]]|[[slug [_ [Hs [_ [Hdb H]]]]]|
          [slug [tenant [ms [sevs [_ [Hs [_ [Hdb [Hout H]]]]]]]]]]]].
    + left. exists e. split; [exact H|].
      destruct Hwhy as [Hw|Hw];
        [now left | right; split; [discriminate | exact Hw]].
    + right. left. exists m. split; [exact H|].
      destruct Hwhy as [Hw|Hw];
        [now left | right; split; [discriminate | exact Hw]].
    + right. right. left. exists slug. auto.
    + right. right. right. exists slug, tenant, ms, sevs.
      repeat (split; [assumption|]). cbv zeta in *.
      destruct (debug_on req) eqn:Hd.
      { left. split; [discriminate|]. eexists. split; [exact H|]. left.
        split; [reflexivity|]. eexists. repeat split. }
      destruct (length (ChatHard.relevantMatches ChatHard.MIN_SIMILARITY ms)
                =? 0)%nat eqn:Hn.
      { left. split; [discriminate|]. eexists. split; [exact H|]. right.
        split; reflexivity. }
      right. eexists; eexists. split; [reflexivity|].
      split; [|split; [reflexivity|split; [|exact H]]].
      * intros text. repeat split.
      * intros E. apply map_eq_nil in E. revert E. now apply length_eqb_0.
  - destruct (legacy_POST_anatomy env req w)
      as [[Hn H]|[[Hm H]|[[_ [Hdb H]]|[tenant [ms [sevs [_ [Hdb [Hout H]]]]]]]]].
    + left. eexists. split; [exact H | now left].
    + right. left. eexists. split; [exact H | now left].
    + right. right. left. eexists. eauto.
    + right. right. right.
      exists (ChatLegacy.slug_or_default req), tenant, ms, sevs.
      repeat (split; [assumption || reflexivity|]). cbv zeta in *.
      right. eexists; eexists. split; [congruence|].
      split; [|split; [reflexivity|split; [|exact H]]].
      * intros text. repeat split.
      * destruct ms; simpl; discriminate.
Qed.



(** X15. The chat handlers only read: whatever the request and whatever the
    services answer, the three versions return a response and leave
    [knowledge_items] and [embeddings] as they were. *)
Theorem chat_never_writes v env req w :
  exists r w',
    handler v env req w = (Ok r, w')
    /\ knowledge_items w' = knowledge_items w
    /\ embeddings w' = embeddings w.
Proof.
  destruct (handler_anatomy v env req w)
    as [[e [H _]]|[[m [H _]]|[[slug [Hs [Hdb H]]]|
        [slug [tenant [ms [sevs [Hs [Hdb [Hout H]]]]]]]]]].
  - eexists; eexists. split; [exact H|]. split; reflexivity.
  - eexists; eexists. split; [exact H|]. split; reflexivity.
  - eexists; eexists. split; [exact H|]. split; reflexivity.
  - cbv zeta in H.
    destruct H as [[Hv [r [H Hr]]]|[kb [wrap [_ [_ [_ [_ H]]]]]]];
      eexists; eexists; (split; [exact H|]); unfold generated; cbv zeta;
      try destruct (js_string env (message_of req)); split; reflexivity.
Qed.

Lemma generations_logged w evs :
  generations (logged w evs)
  = (generations w + length (filter is_generate evs))%nat.
Proof. unfold generations, logged. simpl. now rewrite filter_app, length_app. Qed.

Lemma search_outcome_quiet env w t q sevs ms :
  search_outcome env w t q sevs ms -> filter is_generate sevs = [].
Proof. intros [[-> _]|[-> _]]; reflexivity. Qed.

(** X16. The answer follows the completion. A response of the three versions
    either comes without a call to the generation service, or after
    exactly one call, the last call of the request, and then it is what
    that call gave: its text with status 200 (and [from_kb: true] in the
    soft and the hard handler); the fallback message of the prompt, still
    with status 200 and [from_kb: true], when the completion has no
    content; status 500 when the call failed. *)
Theorem answer_follows_the_completion v env req w :
  exists r w',
    handler v env req w = (Ok r, w')
    /\ (generations w' = generations w
        \/ exists p wg,
             log w' = log wg ++ [EvGenerate p]
             /\ generations wg = generations w
             /\ match ai_completion env wg p with
                | Some (Some text) =>
                    status r = 200%nat
                    /\ field "text" (body r) = Some (JStr text)
                    /\ (v <> Legacy ->
                        field "from_kb" (body r) = Some (JBool true))
                | Some None =>
                    status r = 200%nat
                    /\ field "text" (body r) = Some (JStr (prompt_fallback p))
                    /\ (v <> Legacy ->
                        field "from_kb" (body r) = Some (JBool true))
                | None =>
                    status r = 500%nat
                    /\ field "ok" (body r) = Some (JBool false)
                end).
Proof.
  destruct (handler_anatomy v env req w)
    as [[e [H _]]|[[m [H _]]|[[slug [Hs [Hdb H]]]|
        [slug [tenant [ms [sevs [Hs [Hdb [Hout H]]]]]]]]]].
  - eexists; eexists. split; [exact H|]. now left.
  - eexists; eexists. split; [exact H|]. now left.
  - eexists; eexists. split; [exact H|]. left.
    rewrite generations_logged. simpl. lia.
  - cbv zeta in H.
    assert (Hq : generations (searched w slug tenant sevs) = generations w).
    { unfold searched. rewrite generations_logged. simpl.
      rewrite (search_outcome_quiet Hout). simpl. lia. }
    destruct H as [[Hv [r [H Hr]]]|[kb [wrap [_ [Hwrap [_ [_ H]]]]]]].
    + exists r. eexists. split; [exact H|]. now left.
    + unfold generated in H. cbv zeta in H.
      destruct (js_string env (message_of req)) as [question|];
        cbn [fst snd] in H;
        [|eexists; eexists; split; [exact H|]; now left].
      eexists; eexists. split; [exact H|]. right.
      eexists; exists (searched w slug tenant sevs).
      split; [reflexivity|]. split; [exact Hq|].
      destruct (ai_completion env (searched w slug tenant sevs) _)
        as [[text|]|].
      * destruct (Hwrap text) as [H1 [H2 [_ H4]]].
        repeat split; auto. intros Hv. rewrite H4. now destruct v.
      * cbn [prompt_fallback].
        destruct (Hwrap (fallback_message
                           (settings_at env (logged w [EvTenantLookup slug])
                                        (tenant_id tenant))))
          as [H1 [H2 [_ H4]]].
        repeat split; auto. intros Hv. rewrite H4. now destruct v.
      * split; reflexivity.
Qed.

(** X17. Without a row of settings the defaults are used. Where the store has
    no settings for the tenant, an answer of the three versions with
    status 200 (for the soft and the hard handler: without [debug=1])
    carries the default welcome message, and an answer with
    [from_kb: false] has for text the default fallback message. *)
Theorem missing_settings_give_defaults v env req w :
  (forall w0 t, db_settings env w0 t = None) ->
  exists r w',
    handler v env req w = (Ok r, w')
    /\ (status r = 200%nat -> v = Legacy \/ debug_on req = false ->
        field "welcome_message" (body r)
        = Some (JStr (lit "Wie kann ich Ihnen helfen?")))
    /\ (field "from_kb" (body r) = Some (JBool false) ->
        field "text" (body r)
        = Some (JStr (lit "Leider habe ich hierzu noch keine Informationen hinterlegt.")))
    /\ (status r = 200%nat -> v <> Legacy -> debug_on req = true ->
        field "settings" (body r) = Some (settings_json default_settings)).
Proof.
  intros Hnone.
  assert (Hs0 : forall w0 t, settings_at env w0 t = default_settings)
    by (intros; unfold settings_at; now rewrite Hnone).
  destruct (handler_anatomy v env req w)
    as [[e [H _]]|[[m [H _]]|[[slug [Hs [Hdb H]]]|
        [slug [tenant [ms [sevs [Hs [Hdb [Hout H]]]]]]]]]].
  - eexists; eexists. split; [exact H|]. repeat split; discriminate.
  - eexists; eexists. split; [exact H|]. repeat split; discriminate.
  - eexists; eexists. split; [exact H|]. repeat split; discriminate.
  - cbv zeta in H. rewrite Hs0 in H.
    destruct H as [[Hv [r [H Hr]]]|[kb [wrap [Hd [Hwrap [_ [_ H]]]]]]].
    + exists r. eexists. split; [exact H|].
      destruct Hr as [[Hd [fields [-> [F1 [F2 [F3 F4]]]]]]|[Hd ->]].
      * cbn [body]. repeat split.
        -- intros _ [Hl|Hl]; congruence.
        -- rewrite F3. discriminate.
        -- intros _ _ _. exact F4.
      * repeat split; try reflexivity. intros _ _ Hd'. congruence.
    + eexists; eexists. split; [exact H|].
      unfold generated. cbv zeta.
      destruct (js_string env (message_of req)) as [question|]; cbn [fst];
        [|repeat split; discriminate].
      destruct (ai_completion env _ _) as [[text|]|].
      * destruct (Hwrap text) as [H1 [H2 [H3 H4]]].
        repeat split; auto;
          try (rewrite H4; destruct v; discriminate);
          intros _ Hv Hd'; specialize (Hd Hv); congruence.
      * destruct (Hwrap (fallback_message default_settings)) as [H1 [H2 [H3 H4]]].
        repeat split; auto;
          try (rewrite H4; destruct v; discriminate);
          intros _ Hv Hd'; specialize (Hd Hv); congruence.
      * repeat split; discriminate.
Qed.

Lemma missing_settings_give_defaults_witness :
  exists r w',
    handler Soft (with_settings (Sample.env [] [] None []) (fun _ _ => None))
            Sample.question Sample.empty_world = (Ok r, w')
    /\ (field "from_kb" (body r) = Some (JBool false) ->
        field "text" (body r)
        = Some (JStr (lit "Leider habe ich hierzu noch keine Informationen hinterlegt."))).
Proof.
  destruct (@missing_settings_give_defaults Soft
              (with_settings (Sample.env [] [] None []) (fun _ _ => None))
              Sample.question Sample.empty_world) as [r [w' [H1 [_ [H2 _]]]]];
    [reflexivity|].
  exists r, w'. split; assumption.
Defined.

Lemma trim_ink c : trim c <> [] -> has_ink c = true.
Proof.
  intros Hne. rewrite <- (has_ink_drop_ws c), <- (has_ink_rev (drop_ws c)).
  rewrite <- (has_ink_drop_ws (rev (drop_ws c))).
  rewrite <- (has_ink_rev (drop_ws (rev (drop_ws c)))).
  fold (trim c). destruct (trim c) as [|x r] eqn:E; [congruence|].
  assert (Hx : is_ws x = false)
    by (apply (@TextFacts.trim_head c); now rewrite E).
  simpl. now rewrite Hx.
Qed.

Lemma usable_spec m :
  ChatSoft.usable m = true ->
  similarity m <> None /\ exists c, content m = Some c /\ has_ink c = true.
Proof.
  unfold ChatSoft.usable, numeric. intros H. apply andb_prop in H.
  destruct H as [H1 H2]. split; [destruct (similarity m); congruence|].
  destruct (content m) as [c|]; [|discriminate]. exists c.
  split; [reflexivity|]. apply andb_prop in H2. destruct H2 as [_ H2].
  apply trim_ink. destruct (trim c); [discriminate | discriminate].
Qed.

Lemma top_In t k scored m : In m (ChatSoft.top t k scored) -> In m scored.
Proof.
  rewrite top_is_sorted_pool. intros H. apply AdminFacts.in_firstn in H.
  apply (Permutation_in _ (sort_desc_perm _)) in H. unfold pool in H.
  destruct (existsb _ _); [now apply filter_In in H | exact H].
Qed.

Lemma search_outcome_returned env w t q sevs ms m :
  search_outcome env w t q sevs ms -> In m ms -> returned env m.
Proof.
  intros [[_ [-> _]]|[_ [v [_ H]]]] Hin; [destruct Hin|].
  destruct (db_match_embeddings env (logged w [EvEmbed q]) v 4 t)
    as [e|[data|]] eqn:E; subst; try destruct Hin.
  exists (logged w [EvEmbed q]), v, t, data. split; assumption.
Qed.

Lemma hard_relevant_spec t ms m :
  In m (ChatHard.relevantMatches t ms) ->
  In m ms /\ exists q, similarity m = Some q /\ t <= q.
Proof.
  unfold ChatHard.relevantMatches. rewrite filter_In.
  unfold numeric, at_least, score. intros [Hin H]. split; [exact Hin|].
  destruct (similarity m) as [q|]; [|discriminate].
  exists q. split; [reflexivity|]. now apply Qle_bool_iff.
Qed.

(** X18. The knowledge in the prompt. When the soft handler calls the
    generation service, the prompt has one to four lines of knowledge,
    each the content of a match that the vector search returned, with a
    numeric similarity and a content that is not blank. When the hard
    handler does, every line of knowledge is made of a match that the
    vector search returned with a similarity of 0.75 or more. *)
Theorem prompt_knowledge_lines env req w :
  (exists r w' evs,
      ChatSoft.POST env req w = (Ok r, w')
      /\ log w' = log w ++ evs
      /\ forall p, In (EvGenerate p) evs ->
           (1 <= length (prompt_kb p) <= 4)%nat
           /\ Forall (fun line =>
                        exists m c,
                          line = lit "- " ++ c /\ content m = Some c
                          /\ has_ink c = true /\ similarity m <> None
                          /\ returned env m)
                     (prompt_kb p))
  /\ (exists r w' evs,
      ChatHard.POST env req w = (Ok r, w')
      /\ log w' = log w ++ evs
      /\ forall p, In (EvGenerate p) evs ->
           prompt_kb p <> []
           /\ Forall (fun line =>
                        exists m q,
                          line = kb_line m /\ similarity m = Some q
                          /\ 75 # 100 <= q /\ returned env m)
                     (prompt_kb p)).
Proof.
  assert (Hquiet : forall slug t q sevs ms p w0,
    search_outcome env w0 t q sevs ms ->
    ~ In (EvGenerate p) (EvTenantLookup slug :: EvSettingsLookup t :: sevs)).
  { intros slug t q sevs ms p w0 [[-> _]|[-> _]] Hin; simpl in Hin;
      repeat (destruct Hin as [Hin|Hin]; [discriminate|]); exact Hin. }
  split.
  - destruct (handler_anatomy Soft env req w)
      as [[e [H _]]|[[m [H _]]|[[slug [Hs [Hdb H]]]|
          [slug [tenant [ms [sevs [Hs [Hdb [Hout H]]]]]]]]]]; simpl handler in H.
    + eexists; exists w, []. split; [exact H|].
      split; [now rewrite app_nil_r|]. intros p [].
    + eexists; exists w, []. split; [exact H|].
      split; [now rewrite app_nil_r|]. intros p [].
    + eexists; eexists; eexists. split; [exact H|]. split; [reflexivity|].
      intros p [Hin|[]]. discriminate.
    + cbv zeta in H.
      destruct H as [[Hv [r [H Hr]]]|[kb [wrap [_ [_ [Hkb [Hne H]]]]]]].
      * exists r. eexists; eexists. split; [exact H|]. split; [reflexivity|].
        intros p Hin. exfalso. exact (Hquiet _ _ _ _ _ _ _ Hout Hin).
      * unfold generated in H. cbv zeta in H.
        destruct (js_string env (message_of req)) as [question|];
          cbn [fst snd] in H;
          [|eexists; eexists; eexists; split; [exact H|]; split;
            [reflexivity|]; intros p Hin; exfalso;
            exact (Hquiet _ _ _ _ _ _ _ Hout Hin)].
        eexists; eexists; eexists. split; [exact H|]. split.
        { unfold searched. rewrite logged_logged. reflexivity. }
        intros p Hin.
        apply in_app_or in Hin. destruct Hin as [Hin|[Hin|[]]];
          [exfalso; exact (Hquiet _ _ _ _ _ _ _ Hout Hin)|].
        injection Hin as <-. cbn [prompt_kb]. split.
        { split; [destruct kb; [congruence | simpl; lia]|].
          rewrite Hkb, length_map, top_is_sorted_pool. apply firstn_le_length. }
        rewrite Hkb. apply Forall_forall. intros line Hline.
        apply in_map_iff in Hline. destruct Hline as [m [<- Hm]].
        apply top_In in Hm. apply filter_In in Hm. destruct Hm as [Hm Hu].
        destruct (usable_spec _ Hu) as [Hsim [c [Hc Hink]]].
        exists m, c. unfold kb_line. rewrite Hc. repeat split; auto.
        exact (@search_outcome_returned _ _ _ _ _ _ m Hout Hm).
  - destruct (handler_anatomy Hard env req w)
      as [[e [H _]]|[[m [H _]]|[[slug [Hs [Hdb H]]]|
          [slug [tenant [ms [sevs [Hs [Hdb [Hout H]]]]]]]]]]; simpl handler in H.
    + eexists; exists w, []. split; [exact H|].
      split; [now rewrite app_nil_r|]. intros p [].
    + eexists; exists w, []. split; [exact H|].
      split; [now rewrite app_nil_r|]. intros p [].
    + eexists; eexists; eexists. split; [exact H|]. split; [reflexivity|].
      intros p [Hin|[]]. discriminate.
    + cbv zeta in H.
      destruct H as [[Hv [r [H Hr]]]|[kb [wrap [_ [_ [Hkb [Hne H]]]]]]].
      * exists r. eexists; eexists. split; [exact H|]. split; [reflexivity|].
        intros p Hin. exfalso. exact (Hquiet _ _ _ _ _ _ _ Hout Hin).
      * unfold generated in H. cbv zeta in H.
        destruct (js_string env (message_of req)) as [question|];
          cbn [fst snd] in H;
          [|eexists; eexists; eexists; split; [exact H|]; split;
            [reflexivity|]; intros p Hin; exfalso;
            exact (Hquiet _ _ _ _ _ _ _ Hout Hin)].
        eexists; eexists; eexists. split; [exact H|]. split.
        { unfold searched. rewrite logged_logged. reflexivity. }
        intros p Hin.
        apply in_app_or in Hin. destruct Hin as [Hin|[Hin|[]]];
          [exfalso; exact (Hquiet _ _ _ _ _ _ _ Hout Hin)|].
        injection Hin as <-. cbn [prompt_kb]. split; [exact Hne|].
        rewrite Hkb. apply Forall_forall. intros line Hline.
        apply in_map_iff in Hline. destruct Hline as [m [<- Hm]].
        apply hard_relevant_spec in Hm. destruct Hm as [Hm [q [Hq Hle]]].
        exists m, q. repeat split; auto.
        exact (@search_outcome_returned _ _ _ _ _ _ m Hout Hm).
Qed.

Lemma insert_desc_tied q x l : tied q (insert_desc x l) = tied q (x :: l).
Proof.
  unfold tied. induction l as [|y r IH]; [reflexivity|].
  simpl insert_desc.
  destruct (Qle_bool (score y - score x) 0) eqn:E; [reflexivity|].
  cbn [negb]. simpl filter in *. rewrite IH.
  destruct (Qeq_bool (score y) q) eqn:Ey; [|reflexivity].
  destruct (Qeq_bool (score x) q) eqn:Ex; [|reflexivity].
  apply Qeq_bool_iff in Ey, Ex.
  assert (H : Qle_bool (score y - score x) 0 = true)
    by (apply Qle_bool_iff; lra).
  congruence.
Qed.

Lemma sort_desc_tied q l : tied q (sort_desc l) = tied q l.
Proof.
  induction l as [|x r IH]; [reflexivity|].
  simpl sort_desc. rewrite insert_desc_tied. unfold tied in *. simpl.
  now rewrite IH.
Qed.

(** X19. The ranking is stable. Sorting by descending similarity keeps the
    matches of equal similarity in the order in which the vector search
    returned them; so the soft ranker, among the matches of its pool with
    the same similarity, takes the first ones, in that order. *)
Theorem ranking_is_stable (t q : Q) (k : nat) (l : list RagMatch) :
  tied q (sort_desc l) = tied q l
  /\ exists rest, tied q (pool t l) = tied q (ChatSoft.top t k l) ++ rest.
Proof.
  split; [apply sort_desc_tied|].
  rewrite top_is_sorted_pool, <- (sort_desc_tied q (pool t l)).
  exists (tied q (skipn k (sort_desc (pool t l)))).
  unfold tied. rewrite <- filter_app. now rewrite firstn_skipn.
Qed.

(** The first version looks up its slug first. *)
Lemma chat_call_order_legacy env req w :
  is_null (req_body req) = false ->
  truthy_json (message_of req) = true ->
  exists r w' rest,
    ChatLegacy.POST env req w = (Ok r, w')
    /\ log w' = log w ++ EvTenantLookup (ChatLegacy.slug_or_default req) :: rest.
Proof.
  intros Hn Hm.
  destruct (legacy_POST_anatomy env req w)
    as [[Hn' _]|[[Hm' _]|[[_ [Hdb H]]|[tenant [ms [sevs [_ [Hdb [Hout H]]]]]]]]].
  - congruence.
  - congruence.
  - eexists; eexists; exists []. split; [exact H | reflexivity].
  - cbv zeta in H. unfold generated in H. cbv zeta in H.
    destruct (js_string env (message_of req)) as [question|];
      cbn [fst snd] in H;
      eexists; eexists; eexists; (split; [exact H|]);
      unfold searched; cbn [log logged]; rewrite <- ?app_assoc; reflexivity.
Qed.

(** A body that has a member is not [null]. *)
Lemma member_body k b v : member k b = Some v -> is_null b = false.
Proof. unfold member. destruct b; try reflexivity. discriminate. Qed.

(** X20. An empty field of the body is not replaced. A request whose body has
    an empty [message] gets status 400 from the three versions, whatever
    the query string has. A request with a message whose body has an
    empty [slug] gets status 400 and ["slug required"] from the soft and
    from the hard handler, whatever the query string and the header have;
    the first version looks up the empty slug, not its default. *)
Theorem empty_body_fields_are_not_replaced v env req w :
  (body_message req = Some (JStr []) ->
   handler v env req w = (Ok (bad_request (lit "message required")), w))
  /\ (truthy_json (message_of req) = true -> body_slug req = Some (JStr []) ->
      match v with
      | Legacy =>
          exists r w' rest,
            handler v env req w = (Ok r, w')
            /\ log w' = log w ++ EvTenantLookup (JStr []) :: rest
      | _ =>
          handler v env req w = (Ok (bad_request (lit "slug required")), w)
      end).
Proof.
  split.
  - intros Hb. pose proof (member_body _ _ Hb) as Hn.
    assert (Hm : truthy_json (message_of req) = false)
      by (unfold message_of; now rewrite Hb).
    destruct v; simpl handler.
    + unfold ChatSoft.POST, try_catch. now rewrite Hn, Hm.
    + unfold ChatHard.POST, try_catch. now rewrite Hn, Hm.
    + now apply legacy_POST_bad_request.
  - intros Hm Hb. pose proof (member_body _ _ Hb) as Hn.
    assert (Hs : slug_of req = Some (JStr []))
      by (unfold slug_of; now rewrite Hb).
    destruct v; simpl handler.
    + unfold ChatSoft.POST, try_catch. now rewrite Hn, Hm, Hs.
    + unfold ChatHard.POST, try_catch. now rewrite Hn, Hm, Hs.
    + destruct (chat_call_order_legacy env req w Hn Hm) as [r [w' [rest H]]].
      assert (Hd : ChatLegacy.slug_or_default req = JStr [])
        by (unfold ChatLegacy.slug_or_default; now rewrite Hs).
      rewrite Hd in H. eauto.
Qed.

(** X21. [from_kb] tells whether the answer was generated. In the soft and in
    the hard handler, an answer with status 200 to a request without
    [debug=1] has [from_kb: true] exactly when the generation service was
    called, once, for this request, and [from_kb: false] exactly when it
    was not called. *)
Theorem from_kb_tells_whether_generated v env req w :
  v <> Legacy ->
  exists r w',
    handler v env req w = (Ok r, w')
    /\ (status r = 200%nat -> debug_on req = false ->
        (field "from_kb" (body r) = Some (JBool true)
         /\ generations w' = S (generations w))
        \/ (field "from_kb" (body r) = Some (JBool false)
            /\ generations w' = generations w)).
Proof.
  intros Hv.
  destruct (handler_anatomy v env req w)
    as [[e [H _]]|[[m [H _]]|[[slug [Hs [Hdb H]]]|
        [slug [tenant [ms [sevs [Hs [Hdb [Hout H]]]]]]]]]].
  - eexists; eexists. split; [exact H|]. discriminate.
  - eexists; eexists. split; [exact H|]. discriminate.
  - eexists; eexists. split; [exact H|]. discriminate.
  - cbv zeta in H.
    assert (Hq : generations (searched w slug tenant sevs) = generations w).
    { unfold searched. rewrite generations_logged. simpl.
      rewrite (search_outcome_quiet Hout). simpl. lia. }
    destruct H as [[_ [r [H Hr]]]|[kb [wrap [_ [Hwrap [_ [_ H]]]]]]].
    + exists r. eexists. split; [exact H|]. intros _ Hd.
      destruct Hr as [[Hd' _]|[_ ->]]; [congruence|]. right. auto.
    + eexists; eexists. split; [exact H|].
      unfold generated. cbv zeta.
      destruct (js_string env (message_of req)) as [question|];
        cbn [fst snd]; [|discriminate].
      rewrite generations_logged, Hq. simpl.
      destruct (ai_completion env _ _) as [[text|]|]; try discriminate;
        intros _ _; left; (split; [|lia]).
      * destruct (Hwrap text) as [_ [_ [_ ->]]]. now destruct v.
      * destruct (Hwrap (fallback_message
                           (settings_at env (logged w [EvTenantLookup slug])
                                        (tenant_id tenant))))
          as [_ [_ [_ ->]]]. now destruct v.
Qed.

Lemma from_kb_tells_whether_generated_witness :
  exists r w',
    handler Soft (Sample.env [] [] None Sample.one_strong) Sample.question
            Sample.empty_world = (Ok r, w')
    /\ (field "from_kb" (body r) = Some (JBool true)
        /\ generations w' = S (generations Sample.empty_world)
        \/ field "from_kb" (body r) = Some (JBool false)
           /\ generations w' = generations Sample.empty_world).
Proof.
  destruct (@from_kb_tells_whether_generated Soft
              (Sample.env [] [] None Sample.one_strong) Sample.question
              Sample.empty_world) as [r [w' [H1 H2]]]; [discriminate|].
  exists r, w'. split; [exact H1|].
  assert (E := H1). vm_compute in E. inversion E; subst.
  apply H2; reflexivity.
Defined.

Lemma empty_body_fields_are_not_replaced_witness :
  handler Soft (Sample.env [] [] None [])
          (Chat.mkRequest (Sample.chat_body [] (lit "Hi")) None
                          (Some (lit "demo")) None (Some (lit "demo")))
          Sample.empty_world
  = (Ok (bad_request (lit "slug required")), Sample.empty_world).
Proof.
  apply (proj2 (empty_body_fields_are_not_replaced Soft
                  (Sample.env [] [] None [])
                  (Chat.mkRequest (Sample.chat_body [] (lit "Hi")) None
                                  (Some (lit "demo")) None (Some (lit "demo")))
                  Sample.empty_world)); reflexivity.
Defined.

End ChatMore.

(** ** The ingest script: what a run writes *)

Module IngestMore.
Import Ingest Props Cover JsStringFacts TextFacts WindowFacts IngestFacts.

(** The chunks of a text are [chunk_ok]. *)
Lemma chunk_pieces_ok text :
  exists cs, chunk text 800 150 = Some cs /\ Forall chunk_ok cs.
Proof.
  unfold chunk. rewrite chunk_closed by lia. eexists. split; [reflexivity|].
  apply Forall_forall. intros c Hc. apply filter_In in Hc.
  destruct Hc as [Hc Ht]. apply in_map_iff in Hc. destruct Hc as [k [<- _]].
  split; [now apply truthy_nonempty|]. split; [|apply normalise_tidy].
  unfold window. etransitivity; [apply normalise_length|].
  assert (H0 : (0 <= Z.of_nat k * (800 - 150))%Z) by lia.
  pose proof (@slice_length text (Z.of_nat k * (800 - 150))
                (Z.of_nat k * (800 - 150) + 800) H0). lia.
Qed.

Lemma ingests_refl tenant urls w : ingests tenant urls w w [].
Proof.
  apply (@mkIngests tenant urls w w [] [] [] []); rewrite ?app_nil_r; auto.
Qed.

Lemma ingests_logged tenant urls w evs :
  forallb crawl_event evs = true -> ingests tenant urls w (logged w evs) [].
Proof.
  intros H. apply (@mkIngests tenant urls w (logged w evs) [] [] [] evs);
    simpl; rewrite ?app_nil_r; auto.
Qed.

Lemma ingests_trans tenant urls w1 w2 w3 last :
  ingests tenant urls w1 w2 [] -> ingests tenant urls w2 w3 last ->
  ingests tenant urls w1 w3 last.
Proof.
  intros [k1 e1 v1 Hk1 He1 Hv1 Hc1 Ft1 Fr1 Q1] [k2 e2 v2 Hk2 He2 Hv2 Hc2 Ft2 Fr2 Q2].
  rewrite app_nil_r in Hk1, Fr1.
  apply (@mkIngests tenant urls w1 w3 last (k1 ++ k2) (e1 ++ e2) (v1 ++ v2)).
  - now rewrite Hk2, Hk1, <- !app_assoc.
  - now rewrite He2, He1, app_assoc.
  - now rewrite Hv2, Hv1, app_assoc.
  - now rewrite !map_app, Hc1, Hc2.
  - apply Forall_app. auto.
  - rewrite <- app_assoc. apply Forall_app. auto.
  - now rewrite forallb_app, Q1, Q2.
Qed.

(** A step that ends well, and then another one. *)
Lemma ingest_outcome_after tenant urls w1 w2 out :
  ingests tenant urls w1 w2 [] -> ingest_outcome tenant urls w2 out ->
  ingest_outcome tenant urls w1 out.
Proof.
  intros H12. destruct out as [[[]|e|] w3]; simpl; [| |auto].
  - now apply ingests_trans.
  - intros [last [Hl H]]. exists last. split; [exact Hl|].
    now apply ingests_trans with w2.
Qed.

Lemma for_each_outcome (A : Type) tenant urls (f : A -> M unit) l :
  (forall a w, In a l -> ingest_outcome tenant urls w (f a w)) ->
  forall w, ingest_outcome tenant urls w (for_each l f w).
Proof.
  induction l as [|a l IH]; intros Hf w.
  - simpl. apply ingests_refl.
  - simpl. unfold bind.
    pose proof (Hf a w (or_introl eq_refl)) as Ha.
    destruct (f a w) as [[[]|e|] w1]; simpl in Ha; [|exact Ha|exact Ha].
    apply ingest_outcome_after with w1; [exact Ha|].
    apply IH. intros b w0 Hb. apply Hf. now right.
Qed.

Lemma chunk_row_ok tenant urls url c :
  In url urls -> chunk_ok c -> ingest_row tenant urls (chunk_row tenant url c).
Proof.
  intros Hu Hc. unfold ingest_row, chunk_row. simpl.
  repeat split; try apply Hc. exists url. auto.
Qed.

(** A chunk is stored with its embedding, or the error ends the run with
    at most the row of [knowledge_items]. *)
Lemma store_chunk_outcome env tenant urls url c w :
  In url urls -> chunk_ok c ->
  ingest_outcome tenant urls w (store_chunk env tenant url c w).
Proof.
  intros Hu Hc. pose proof (@chunk_row_ok tenant urls url c Hu Hc) as Hrow.
  rewrite store_chunk_cases. cbv zeta.
  destruct (db_insert_knowledge_error env w _).
  { simpl. exists []. split; [simpl; lia|]. now apply ingests_logged. }
  destruct (ai_embedding env _ (JStr c)) as [vec|].
  2:{ simpl. exists [chunk_row tenant url c]. split; [simpl; lia|].
      apply (@mkIngests tenant urls w _ [chunk_row tenant url c] [] []
               [EvInsertKnowledge (chunk_row tenant url c); EvEmbed (JStr c)]);
        simpl; rewrite <- ?app_assoc, ?app_nil_r; auto. }
  destruct (db_insert_embedding_error env _ _).
  - simpl. exists [chunk_row tenant url c]. split; [simpl; lia|].
    apply (@mkIngests tenant urls w _ [chunk_row tenant url c] [] []
             [EvInsertKnowledge (chunk_row tenant url c); EvEmbed (JStr c);
              EvInsertEmbedding (mkEmbeddingRecord (tenant_id tenant) c vec)]);
      simpl; rewrite <- ?app_assoc, ?app_nil_r; auto.
  - simpl.
    apply (@mkIngests tenant urls w _ [] [chunk_row tenant url c]
             [mkEmbeddingRecord (tenant_id tenant) c vec]
             [EvInsertKnowledge (chunk_row tenant url c); EvEmbed (JStr c);
              EvInsertEmbedding (mkEmbeddingRecord (tenant_id tenant) c vec)]);
      simpl; rewrite <- ?app_assoc, ?app_nil_r; auto.
Qed.

(** A page is stored chunk by chunk, after one fetch. *)
Lemma store_page_outcome env tenant urls url w :
  In url urls -> ingest_outcome tenant urls w (store_page env tenant url w).
Proof.
  intros Hu.
  assert (Hlog : ingests tenant urls w (logged w [EvFetch url]) [])
    by now apply ingests_logged.
  assert (Hthrow : forall e,
    ingest_outcome tenant urls w (Throw e, logged w [EvFetch url])).
  { intros e. simpl. exists []. split; [simpl; lia | exact Hlog]. }
  assert (Hraw : forall raw,
    ingest_outcome tenant urls w
      ((if negb (truthy raw) || (length raw <? 20)%nat then ret tt
        else match chunk raw 800 150 with
             | Some chunks => for_each chunks (store_chunk env tenant url)
             | None => diverge
             end) (logged w [EvFetch url]))).
  { intros raw. destruct (negb (truthy raw) || (length raw <? 20)%nat);
      [exact Hlog|].
    destruct (chunk_pieces_ok raw) as [cs [-> Hcs]].
    apply ingest_outcome_after with (logged w [EvFetch url]); [exact Hlog|].
    apply for_each_outcome. intros c w0 Hc.
    rewrite Forall_forall in Hcs. apply store_chunk_outcome; auto. }
  unfold store_page, extractTextFromUrl, bind.
  rewrite AdminFacts.fetch_run.
  destruct (net_fetch env w url) as [|[|] [html|]];
    try apply Hthrow; try apply (Hraw []).
  destruct (dom_article env html url) as [[article body_text]|];
    [|apply Hthrow].
  destruct (truthy _); apply Hraw.
Qed.

(** The crawl of the script only fetches. *)
Lemma site_turn_ingests env tenant urls start maxPages st w r w' :
  iteration env start maxPages st w = (r, w') -> ingests tenant urls w w' [].
Proof.
  destruct (toVisit st) as [|current rest] eqn:Hq.
  - unfold iteration. rewrite Hq. intros H. inversion H. apply ingests_refl.
  - destruct (has (visited st) (strip_hash current)) eqn:Hv.
    + rewrite (site_turn_seen env start maxPages st w Hq Hv).
      intros H. inversion H. apply ingests_refl.
    + destruct (site_turn_fresh env start maxPages st w Hq Hv) as [added [-> _]].
      intros H. inversion H. now apply ingests_logged.
Qed.

Lemma site_loop_ingests env tenant urls start maxPages :
  forall fuel st w r w',
    crawl_loop fuel env start maxPages st w = (r, w') ->
    ingests tenant urls w w' [].
Proof.
  induction fuel as [|fuel IH]; intros st w r w'.
  - simpl. destruct (_ && _); intros H; inversion H; apply ingests_refl.
  - rewrite site_loop_step. destruct (_ && _);
      [|intros H; inversion H; apply ingests_refl].
    unfold bind.
    destruct (iteration env start maxPages st w) as [[st1|e|] w1] eqn:Hit;
      intros H; apply (site_turn_ingests env tenant urls) in Hit.
    + apply IH in H. eapply ingests_trans; eauto.
    + now inversion H; subst.
    + now inversion H; subst.
Qed.

Lemma crawlSite_ingests env tenant urls fuel startUrl maxPages w r w' :
  crawlSite fuel env startUrl maxPages w = (r, w') ->
  ingests tenant urls w w' [].
Proof.
  unfold crawlSite. destruct (url_parse env startUrl) as [start|];
    [|intros H; inversion H; apply ingests_refl].
  unfold bind.
  destruct (crawl_loop fuel env start maxPages _ w) as [[st|e|] w1] eqn:Hrun;
    intros H; inversion H; subst;
    exact (@site_loop_ingests env tenant urls _ _ _ _ _ _ _ Hrun).
Qed.

(** The script, from its arguments to its end. *)
Lemma main_cases extra env slug startUrl w :
  ((truthy_opt slug = false \/ truthy_opt startUrl = false)
   /\ main (241 + extra) env slug startUrl w
      = (Throw (lit "process.exit(1)"), w))
  \/ (exists s u e,
        slug = Some s /\ startUrl = Some u
        /\ (db_tenant env w (JStr s) = None \/ url_parse env u = None)
        /\ main (241 + extra) env slug startUrl w
           = (Throw e, logged w [EvTenantLookup (JStr s)]))
  \/ (exists s u tenant start urls,
        slug = Some s /\ startUrl = Some u
        /\ db_tenant env w (JStr s) = Some tenant
        /\ url_parse env u = Some start
        /\ Forall (on_host start) urls /\ (length urls <= 15)%nat
        /\ ingest_outcome tenant urls (logged w [EvTenantLookup (JStr s)])
             (main (241 + extra) env slug startUrl w)).
Proof.
  unfold main.
  destruct slug as [s|]; [|left; split; [now left | reflexivity]].
  destruct startUrl as [u|]; [|left; split; [now right | reflexivity]].
  destruct (truthy s) eqn:Hs; cbn [negb orb];
    [|left; split; [now left | reflexivity]].
  destruct (truthy u) eqn:Hu; cbn [negb orb];
    [|left; split; [now right | reflexivity]].
  right.
  assert (Hsel : Service.select_tenant env (JStr s) w
                 = (Ok (db_tenant env w (JStr s)), logged w [EvTenantLookup (JStr s)]))
    by reflexivity.
  rewrite (@AdminFacts.bind_ok _ _ _ _ _ _ _ Hsel).
  destruct (db_tenant env w (JStr s)) as [tenant|] eqn:Hdb;
    [|left; exists s, u; eexists; repeat split; auto].
  destruct (url_parse env u) as [start|] eqn:Hparse.
  2:{ left. exists s, u. eexists. repeat split; auto.
      apply AdminFacts.bind_throw. unfold crawlSite. rewrite Hparse.
      reflexivity. }
  right.
  destruct (@crawlSite_runs extra env u start 15 (logged w [EvTenantLookup (JStr s)]))
    as [urls [w1 [Hrun [_ [Hlen [_ [Hhost _]]]]]]]; [lia | exact Hparse |].
  change (15 * (15 + 1) + 1 + extra)%nat with (241 + extra)%nat in Hrun.
  exists s, u, tenant, start, urls. repeat (split; [assumption || reflexivity|]).
  rewrite (@AdminFacts.bind_ok _ _ _ _ _ _ _ Hrun).
  pose proof (@crawlSite_ingests env tenant urls _ _ _ _ _ _ Hrun) as Hcrawl.
  apply ingest_outcome_after with w1; [exact Hcrawl|].
  destruct (length urls =? 0)%nat; [apply ingests_refl|].
  apply for_each_outcome. intros url w0 Hin. now apply store_page_outcome.
Qed.

(** X22. The script stops before it fetches or writes anything when an
    argument is missing or empty, with nothing called at all, and when the
    slug names no tenant or the start address does not parse, with the
    lookup of the tenant as the only call. In each case it ends with an
    error, which gives the exit status 1. *)
Theorem ingest_stops_early fuel env slug startUrl w :
  (truthy_opt slug = false \/ truthy_opt startUrl = false ->
   main fuel env slug startUrl w = (Throw (lit "process.exit(1)"), w))
  /\ (forall s u,
        slug = Some s -> s <> [] -> startUrl = Some u -> u <> [] ->
        db_tenant env w (JStr s) = None \/ url_parse env u = None ->
        exists e,
          main fuel env slug startUrl w
          = (Throw e, logged w [EvTenantLookup (JStr s)])).
Proof.
  split.
  - unfold main, truthy_opt. intros [H|H].
    + destruct slug as [s|]; [|reflexivity]. rewrite H.
      now destruct startUrl.
    + destruct slug as [s|]; [|reflexivity].
      destruct startUrl as [u|]; [|reflexivity]. rewrite H.
      now rewrite orb_true_r.
  - intros s u -> Hs -> Hu Hbad. apply truthy_nonempty in Hs, Hu.
    unfold main. rewrite Hs, Hu. cbn [negb orb].
    assert (Hsel : Service.select_tenant env (JStr s) w
                   = (Ok (db_tenant env w (JStr s)), logged w [EvTenantLookup (JStr s)]))
      by reflexivity.
    rewrite (@AdminFacts.bind_ok _ _ _ _ _ _ _ Hsel).
    destruct (db_tenant env w (JStr s)) as [tenant|]; [|eexists; reflexivity].
    destruct Hbad as [Hbad|Hbad]; [discriminate|].
    eexists. apply AdminFacts.bind_throw. unfold crawlSite. rewrite Hbad.
    reflexivity.
Qed.

Lemma ingest_stops_early_witness :
  exists e,
    main 241 (Sample.env (Sample.letters 300) [] None [])
         (Some (lit "demo")) (Some (lit "a.com")) Sample.busy_world
    = (Throw e, logged Sample.busy_world [EvTenantLookup (JStr (lit "demo"))]).
Proof.
  apply (proj2 (ingest_stops_early 241 (Sample.env (Sample.letters 300) [] None [])
                  (Some (lit "demo")) (Some (lit "a.com")) Sample.busy_world)
           (lit "demo") (lit "a.com"));
    try reflexivity; try discriminate.
  right. reflexivity.
Defined.

(** X23. The script only appends, and pairs its rows. Given fuel for the crawl,
    a run ends, well or with an error. The rows that the two tables had
    are still there, in place; behind them the run has appended rows to
    [knowledge_items] and as many rows to [embeddings], with the same
    content row by row, and, when an error ended the run while a chunk was
    being stored, at most one more row of [knowledge_items] without its
    embedding. Every row is of the tenant that the slug names; a row of
    [knowledge_items] has no title and no [url], for content a tidy chunk
    of 1 to 800 code units, and for [source] one of at most 15 pages,
    all of the host of the start address. *)
Theorem ingest_pairs_rows extra env slug startUrl w :
  exists r w' krows last erows,
    main (241 + extra) env slug startUrl w = (r, w')
    /\ r <> Diverge
    /\ knowledge_items w' = knowledge_items w ++ krows ++ last
    /\ embeddings w' = embeddings w ++ erows
    /\ map ki_content krows = map emb_content erows
    /\ (length last <= 1)%nat
    /\ (r = Ok tt -> last = [])
    /\ (forall s tenant,
          slug = Some s -> db_tenant env w (JStr s) = Some tenant ->
          Forall (fun e => emb_tenant_id e = tenant_id tenant) erows
          /\ exists urls,
               Forall (ingest_row tenant urls) (krows ++ last)
               /\ (length urls <= 15)%nat
               /\ forall u start,
                    startUrl = Some u -> url_parse env u = Some start ->
                    Forall (on_host start) urls).
Proof.
  destruct (main_cases extra env slug startUrl w)
    as [[_ H]|[[s [u [e [Hs [Hu [_ H]]]]]]|
        [s [u [tenant [start [urls [Hs [Hu [Hdb [Hparse [Hhost [Hlen Hout]]]]]]]]]]]]].
  - eexists; exists w, [], [], []. split; [exact H|].
    rewrite !app_nil_r. repeat split; auto; try discriminate.
    exists []. split; [constructor|]. split; [simpl; lia|].
    intros; constructor.
  - eexists; eexists; exists [], [], []. split; [exact H|].
    simpl. rewrite !app_nil_r. repeat split; auto; try discriminate.
    exists []. split; [constructor|]. split; [simpl; lia|].
    intros; constructor.
  - destruct (main (241 + extra) env slug startUrl w) as [[[]|e|] w'];
      simpl in Hout; [| |contradiction].
    + destruct Hout as [krows erows evs Hk He _ Hc Ft Fr _].
      exists (Ok tt), w', krows, [], erows. split; [reflexivity|].
      split; [discriminate|]. split; [exact Hk|]. split; [exact He|].
      split; [exact Hc|]. split; [simpl; lia|]. split; [reflexivity|].
      intros s0 tenant0 Hs0 Hdb0. subst slug. injection Hs0 as <-.
      rewrite Hdb in Hdb0. injection Hdb0 as <-. split; [exact Ft|].
      exists urls. split; [exact Fr|]. split; [exact Hlen|].
      intros u0 start0 Hu0 Hp0. subst startUrl. injection Hu0 as <-.
      rewrite Hparse in Hp0. now injection Hp0 as <-.
    + destruct Hout as [last [Hl [krows erows evs Hk He _ Hc Ft Fr _]]].
      exists (Throw e), w', krows, last, erows. split; [reflexivity|].
      split; [discriminate|]. split; [exact Hk|]. split; [exact He|].
      split; [exact Hc|]. split; [exact Hl|]. split; [discriminate|].
      intros s0 tenant0 Hs0 Hdb0. subst slug. injection Hs0 as <-.
      rewrite Hdb in Hdb0. injection Hdb0 as <-. split; [exact Ft|].
      exists urls. split; [exact Fr|]. split; [exact Hlen|].
      intros u0 start0 Hu0 Hp0. subst startUrl. injection Hu0 as <-.
      rewrite Hparse in Hp0. now injection Hp0 as <-.
Qed.

End IngestMore.

(** ** Links and titles of the admin route *)

Module LinkFacts.
Import AdminScrape Props Cover JsStringFacts AdminFacts.

Lemma fold_add_NoDup l : forall acc,
  NoDup acc -> NoDup (fold_left Url.add l acc).
Proof.
  induction l as [|x l IH]; intros acc Hacc; simpl; [exact Hacc|].
  apply IH. unfold Url.add. destruct (has acc x) eqn:E; [exact Hacc|].
  apply NoDup_app; [exact Hacc | repeat constructor; auto |].
  intros y Hy [<-|[]]. apply has_false in E. contradiction.
Qed.

Lemma fold_add_In l : forall acc u,
  In u acc \/ In u l -> In u (fold_left Url.add l acc).
Proof.
  induction l as [|x l IH]; intros acc u H; simpl.
  - destruct H as [H|[]]. exact H.
  - apply IH. unfold Url.add. destruct H as [H|[<-|H]].
    + left. destruct (has acc x); [exact H|]. apply in_or_app. now left.
    + left. destruct (has acc x) eqn:E; [now apply has_In|].
      apply in_or_app. right. now left.
    + now right.
Qed.

(** From a page of the site, the link to a blob of the site is kept and
    the link of an opaque origin is dropped; from a page of an opaque
    origin, the link of an opaque origin is kept, as the two strings are
    ["null"], and the others are dropped. *)
Example links_by_origin_string :
  let env := Sample.env [] [lit "/about"; lit "blob:https://a.com/0";
                            lit "about:blank"] None [] in
  extractLinks env (lit "<html>") Sample.seed
  = [Sample.https_a "/about" ""; Sample.blob_a]
  /\ extractLinks env (lit "<html>") Sample.data_page = [Sample.about_blank].
Proof. split; reflexivity. Qed.

(** X24. The links of a page. [extractLinks] returns no link twice, and
    returns exactly the addresses that an [href] of the page resolves to
    against the base, where the [href] is not empty, does not start with
    [#], [mailto:] or [tel:], and the [origin] of the address is the string
    that the [origin] of the base is: for two addresses of opaque origins
    both are ["null"]. *)
Theorem extractLinks_are_the_links_of_the_site env html base :
  NoDup (extractLinks env html base)
  /\ forall u,
       In u (extractLinks env html base) <->
       exists href,
         In href (html_hrefs env html)
         /\ href <> []
         /\ startsWith href (lit "#") = false
         /\ startsWith href (lit "mailto:") = false
         /\ startsWith href (lit "tel:") = false
         /\ url_resolve env href base = Some u
         /\ origin u = origin base.
Proof.
  unfold extractLinks, dedup. split; [apply fold_add_NoDup; constructor|].
  intros u. split.
  - intros Hu. apply dedup_In in Hu. destruct Hu as [[]|Hu].
    apply in_flat_map in Hu. destruct Hu as [href [Hin Hu]].
    exists href. split; [exact Hin|].
    destruct (truthy href) eqn:Ht; cbn [negb] in Hu; [|destruct Hu].
    destruct (startsWith href (lit "#")) eqn:E1; [destruct Hu|].
    destruct (startsWith href (lit "mailto:")) eqn:E2; [destruct Hu|].
    destruct (startsWith href (lit "tel:")) eqn:E3; [destruct Hu|].
    cbn [orb] in Hu.
    destruct (url_resolve env href base) as [url|]; [|destruct Hu].
    destruct (same_origin url base) eqn:E; [|destruct Hu].
    destruct Hu as [<-|[]]. apply same_origin_eq in E.
    repeat split; auto. now apply truthy_nonempty.
  - intros [href [Hin [Hne [E1 [E2 [E3 [Hres Ho]]]]]]].
    apply fold_add_In. right. apply in_flat_map. exists href.
    split; [exact Hin|].
    apply truthy_nonempty in Hne. rewrite Hne, E1, E2, E3, Hres.
    cbn [negb orb]. apply same_origin_eq in Ho. rewrite Ho. now left.
Qed.

Lemma drop_slashes_spec s :
  exists k, s = repeat 47%N k ++ drop_slashes s
            /\ hd_error (drop_slashes s) <> Some 47%N.
Proof.
  induction s as [|c s [k [IH1 IH2]]]; simpl.
  - exists 0%nat. split; [reflexivity | discriminate].
  - destruct (N.eqb_spec c 47) as [->|Hc].
    + exists (S k). simpl. split; [now rewrite <- IH1 | exact IH2].
    + exists 0%nat. simpl. split; [reflexivity | congruence].
Qed.

Lemma rev_repeat_same (A : Type) (a : A) k : rev (repeat a k) = repeat a k.
Proof.
  induction k as [|k IH]; [reflexivity|].
  simpl. rewrite IH. clear IH. induction k as [|k IH]; [reflexivity|].
  simpl. now rewrite IH.
Qed.

(** X25. The title of a page is never empty. It is ["Website"] for the start
    page; for another page it is the path without the slashes at its end,
    so that the path is the title followed by slashes only, or ["/"] when
    the path is made of slashes only or is empty. *)
Theorem titles_are_paths_without_trailing_slashes base current :
  page_title base current <> []
  /\ (current = base -> page_title base current = lit "Website")
  /\ (current <> base ->
      exists k,
        (pathname current = page_title base current ++ repeat 47%N k
         /\ hd_error (rev (page_title base current)) <> Some 47%N)
        \/ (page_title base current = lit "/"
            /\ pathname current = repeat 47%N k)).
Proof.
  split; [apply AdminMore.page_title_nonempty|]. unfold page_title. split.
  - intros ->. assert (E : Url.eqb base base = true) by now apply url_eqb_eq.
    now rewrite E.
  - intros Hne.
    assert (E : Url.eqb current base = false).
    { destruct (Url.eqb current base) eqn:E; [|reflexivity].
      apply url_eqb_eq in E. contradiction. }
    rewrite E. unfold strip_trailing_slashes.
    destruct (drop_slashes_spec (rev (pathname current))) as [k [H1 H2]].
    exists k.
    assert (Hpath : pathname current
                    = rev (drop_slashes (rev (pathname current)))
                      ++ repeat 47%N k).
    { rewrite <- (rev_involutive (pathname current)) at 1.
      rewrite H1 at 1. now rewrite rev_app_distr, rev_repeat_same. }
    destruct (rev (drop_slashes (rev (pathname current)))) as [|c r] eqn:Er.
    + right. split; [reflexivity|]. now rewrite Hpath.
    + left. cbn [truthy]. split; [exact Hpath|].
      rewrite <- Er, rev_involutive. exact H2.
Qed.

End LinkFacts.

(** ** The pages and the routes together *)

Module PageFacts.
Import Chat Props Cover Pages JsStringFacts.

(** What a response of a chat handler can be, as a widget reads it. *)
Lemma handler_response v env req w :
  exists r w',
    handler v env req w = (Ok r, w')
    /\ ((status r = 400%nat /\ field "text" (body r) = None
         /\ (truthy_json (message_of req) = false
             \/ (v <> Legacy /\ truthy_member (slug_of req) = false)))
        \/ (status r = 500%nat /\ field "text" (body r) = None)
        \/ (status r = 200%nat /\ debug_on req = true
            /\ field "text" (body r) = None)
        \/ (status r = 200%nat
            /\ exists t, field "text" (body r) = Some (JStr t))).
Proof.
  destruct (ChatMore.handler_anatomy v env req w)
    as [[e [H _]]|[[m [H Hwhy]]|[[slug [Hs [Hdb H]]]|
        [slug [tenant [ms [sevs [Hs [Hdb [Hout H]]]]]]]]]].
  - eexists; eexists. split; [exact H|]. right. left. split; reflexivity.
  - eexists; eexists. split; [exact H|]. left. repeat split. exact Hwhy.
  - eexists; eexists. split; [exact H|]. right. left. split; reflexivity.
  - cbv zeta in H.
    destruct H as [[Hv [r [H Hr]]]|[kb [wrap [_ [Hwrap [_ [_ H]]]]]]].
    + exists r. eexists. split; [exact H|].
      destruct Hr as [[Hd [fields [-> [F1 _]]]]|[Hd ->]].
      * right. right. left. repeat split; assumption.
      * right. right. right. split; [reflexivity|]. eexists. reflexivity.
    + eexists; eexists. split; [exact H|].
      unfold generated. cbv zeta.
      destruct (js_string env (message_of req)) as [question|]; cbn [fst];
        [|right; left; split; reflexivity].
      destruct (ai_completion env _ _) as [[t|]|].
      * destruct (Hwrap t) as [H1 [H2 _]]. right. right. right. eauto.
      * destruct (Hwrap (fallback_message
                           (settings_at env (logged w [EvTenantLookup slug])
                                        (tenant_id tenant)))) as [H1 [H2 _]].
        right. right. right. eauto.
      * right. left. split; reflexivity.
Qed.

Lemma res_ok_200 st data : st = 200%nat -> res_ok (mkReply st data) = true.
Proof. unfold res_ok. now intros ->. Qed.

Lemma res_ok_not st data :
  st = 400%nat \/ st = 401%nat \/ st = 500%nat ->
  res_ok (mkReply st data) = false.
Proof. unfold res_ok. intros [-> | [-> | ->]]; reflexivity. Qed.

Lemma question_blank textOverride st :
  question textOverride st = [] <-> truthy (question textOverride st) = false.
Proof. destruct (question textOverride st); simpl; split; congruence. Qed.

(** A served handler gives its response as the reply. *)
Lemma served_run h b w r w' :
  h b w = (Ok r, w') ->
  served h b w = (Ok (mkReply (status r) (Json (body r))), w').
Proof. unfold served, bind. now intros ->. Qed.

(** X26. The admin page. Whatever the transport does, [handleSubmit] does not
    throw; when the transport ends, the page is not left loading and shows
    either a result or an error, never both: a result only for a reply
    with an OK status and a JSON body whose [ok] is truthy, which is then
    that body; the message of the rejection when [fetch] rejects; the
    message of the parse error when the body is no JSON; and for a body
    that is [null] the message of reading [ok] of it when the status is
    OK, and of reading [error] of it when it is not.
    Behind a transport that loses nothing, the page and the admin route
    agree on [ok]: the page has a result exactly when the handler answered
    with status 200, the result is the body of that response, and in every
    other case the page shows the [error] string of the handler, so that
    its default message is not needed. *)
Theorem admin_page_shows_the_outcome (send : Transport)
        (null_read : NullRead) extra env password slug url w :
  let b := JObj [("password", JStr password); ("slug", JStr slug);
                 ("url", JStr url)]%string in
  (forall out w',
      send b w = (out, w') -> out <> Diverge ->
      exists view,
        handleSubmit send null_read password slug url w = (Ok view, w')
        /\ loading view = false
        /\ ((result view = None /\ error view <> None)
            \/ (exists st data,
                  out = Ok (mkReply st (Json data))
                  /\ (200 <= st <= 299)%nat
                  /\ json_truthy (field "ok" data) = true
                  /\ result view = Some data /\ error view = None))
        /\ (forall m, out = Throw m ->
              result view = None /\ error view = Some (JStr m))
        /\ (forall st m, out = Ok (mkReply st (NoJson m)) ->
              result view = None /\ error view = Some (JStr m))
        /\ (forall st, out = Ok (mkReply st (Json JNull)) ->
              result view = None
              /\ error view
                 = Some (JStr (null_read
                                 (if res_ok (mkReply st (Json JNull))
                                  then "ok" else "error")%string))))
  /\ (exists r w' view,
        admin_route (11 + extra) env b w = (Ok r, w')
        /\ handleSubmit (served (admin_route (11 + extra) env)) null_read
                        password slug url w = (Ok view, w')
        /\ loading view = false
        /\ ((status r = 200%nat /\ result view = Some (body r)
             /\ error view = None)
            \/ (status r <> 200%nat /\ result view = None
                /\ exists msg,
                     field "error" (body r) = Some (JStr msg)
                     /\ error view = Some (JStr msg)))).
Proof.
  cbv zeta. split.
  - intros out w' Hsend Hend. unfold handleSubmit, try_catch, bind.
    rewrite Hsend. destruct out as [[st [m|data]]|m|]; [| | |congruence].
    + eexists. split; [reflexivity|]. split; [reflexivity|].
      split; [left; split; [reflexivity | discriminate]|].
      split; [discriminate|]. split; [|discriminate].
      intros st' m' E. inversion E. split; reflexivity.
    + cbn [reply_json]. destruct (is_null data) eqn:Hnull.
      * eexists. split; [reflexivity|]. split; [reflexivity|].
        split; [left; split; [reflexivity | discriminate]|].
        split; [discriminate|]. split; [discriminate|].
        intros st' E. inversion E. split; reflexivity.
      * assert (Hnn : forall st', Ok (mkReply st (Json data))
                                  <> Ok (mkReply st' (Json JNull)))
          by (intros st' E; inversion E; subst data; discriminate).
        destruct (res_ok (mkReply st (Json data))) eqn:Hok; cbn [negb orb].
        -- destruct (json_truthy (field "ok" data)) eqn:Hdata; cbn [negb];
             eexists; (split; [reflexivity|]); (split; [reflexivity|]);
             (split; [|split; [discriminate|split;
                 [discriminate | intros st' E; now destruct (Hnn st')]]]).
           ++ right. exists st, data. unfold res_ok in Hok.
              apply andb_prop in Hok. destruct Hok as [H1 H2].
              apply Nat.leb_le in H1, H2. cbn [reply_status] in H1, H2.
              repeat split; auto.
           ++ left. split; [reflexivity | discriminate].
        -- eexists. split; [reflexivity|]. split; [reflexivity|].
           split; [left; split; [reflexivity | discriminate]|].
           split; [discriminate|]. split; [discriminate|].
           intros st' E; now destruct (Hnn st').
    + eexists. split; [reflexivity|]. split; [reflexivity|].
      split; [left; split; [reflexivity | discriminate]|].
      split; [|split; discriminate].
      intros m' E. inversion E. split; reflexivity.
  - unfold handleSubmit, try_catch, bind.
    destruct (AdminMore.POST_total extra env
                (AdminScrape.mkRequest
                   (JObj [("password", JStr password); ("slug", JStr slug);
                          ("url", JStr url)]%string)) w)
      as [[code [msg [H Hc]]]|[[sl [msg [_ H]]]|
          [sl [u [tenant [base [r [w4 [_ [_ [_ [_ [_ [H Hr]]]]]]]]]]]]]].
    + rewrite (served_run (admin_route (11 + extra) env) _ _ H).
      eexists; eexists; eexists. split; [exact H|].
      destruct Hc as [-> | [-> | [-> _]]];
        (split; [reflexivity|]); (split; [reflexivity|]);
        right; (split; [discriminate|]); (split; [reflexivity|]);
        exists msg; split; reflexivity.
    + rewrite (served_run (admin_route (11 + extra) env) _ _ H).
      eexists; eexists; eexists. split; [exact H|].
      split; [reflexivity|]. split; [reflexivity|].
      right. split; [discriminate|]. split; [reflexivity|].
      exists msg. split; reflexivity.
    + rewrite (served_run (admin_route (11 + extra) env) _ _ H).
      destruct Hr as [[st [-> _]]|[e ->]];
        eexists; eexists; eexists; (split; [exact H|]);
        (split; [reflexivity|]); (split; [reflexivity|]).
      * left. repeat split.
      * right. split; [discriminate|]. split; [reflexivity|].
        exists e. split; reflexivity.
Qed.

Lemma admin_page_shows_the_outcome_witness :
  exists view,
    handleSubmit (fun _ => throw (lit "Failed to fetch"))
                 (fun _ => lit "data is null")
                 (lit "secret") (lit "demo") (lit "https://a.com/")
                 Sample.busy_world
    = (Ok view, Sample.busy_world)
    /\ result view = None
    /\ error view = Some (JStr (lit "Failed to fetch")).
Proof.
  destruct (proj1 (admin_page_shows_the_outcome
                     (fun _ => throw (lit "Failed to fetch"))
                     (fun _ => lit "data is null") 0
                     (Sample.env (Sample.letters 300) [] None [])
                     (lit "secret") (lit "demo") (lit "https://a.com/")
                     Sample.busy_world)
                  (Throw (lit "Failed to fetch")) Sample.busy_world
                  eq_refl)
    as [view [H [_ [_ [Hm _]]]]]; [discriminate|].
  exists view. split; [exact H|]. exact (Hm _ eq_refl).
Defined.

(** The request that a widget sends is one that the handlers let in. *)
Lemma widget_request s q :
  q <> [] -> s <> [] ->
  let req := Chat.mkRequest (ask_chat s q) None None None None in
  truthy_json (message_of req) = true
  /\ truthy_member (slug_of req) = true
  /\ debug_on req = false.
Proof.
  intros Hq Hs. cbv zeta. unfold ask_chat, message_of, slug_of, debug_on.
  simpl. repeat split; now apply truthy_nonempty.
Qed.

(** X27. The demo widget. A question that is blank once trimmed, or asked
    while another one is being sent, changes nothing and calls nothing.
    Without a slug the widget adds its configuration error and calls
    nothing. Else it sends the trimmed question with the slug, and when
    the transport ends it clears the input and adds the question and one
    answer: its own error message when [fetch] rejects, when the status is
    not OK, when the body is no JSON or is [null]; else the [text] of the
    body, or ["Keine Antwort."] when there is none. Behind a transport
    that loses nothing the handler never refuses the request with status
    400, and the answer is the [text] of the response, a string, when the
    status is 200, and the error message of the widget when the status is
    500; the default ["Keine Antwort."] is not shown then. *)
Theorem demo_widget_shows_the_answer (send : Transport)
        (null_read : NullRead) v env slug textOverride st w :
  (question textOverride st = [] \/ isSending st = true ->
   demo_send send null_read slug textOverride st w = (Ok st, w))
  /\ (question textOverride st <> [] -> isSending st = false ->
      truthy_opt slug = false ->
      demo_send send null_read slug textOverride st w
      = (Ok (mkWidget (input st)
               (messages st
                ++ [mkMessage assistant
                      (JStr (lit "Konfigurationsfehler: kein Tenant-Slug gesetzt."))])
               false), w))
  /\ (forall s out w',
        question textOverride st <> [] -> isSending st = false ->
        slug = Some s -> s <> [] ->
        send (ask_chat s (question textOverride st)) w = (out, w') ->
        out <> Diverge ->
        exists a,
          demo_send send null_read slug textOverride st w
          = (Ok (mkWidget []
                   (messages st
                    ++ [mkMessage user (JStr (question textOverride st));
                        mkMessage assistant a])
                   false), w')
          /\ match out with
             | Ok (mkReply code (Json data)) =>
                 if res_ok (mkReply code (Json data)) && negb (is_null data)
                 then a = json_or (field "text" data)
                                  (JStr (lit "Keine Antwort."))
                 else a = JStr demo_apology
             | _ => a = JStr demo_apology
             end)
  /\ (forall s,
        question textOverride st <> [] -> isSending st = false ->
        slug = Some s -> s <> [] ->
        exists r w' a,
          chat_route v env (ask_chat s (question textOverride st)) w = (Ok r, w')
          /\ demo_send (served (chat_route v env)) null_read slug
                       textOverride st w
             = (Ok (mkWidget []
                      (messages st
                       ++ [mkMessage user (JStr (question textOverride st));
                           mkMessage assistant a])
                      false), w')
          /\ ((status r = 200%nat
               /\ exists t, a = JStr t
                            /\ field "text" (body r) = Some (JStr t))
              \/ (status r = 500%nat /\ a = JStr demo_apology))).
Proof.
  unfold demo_send. cbv zeta. split; [|split; [|split]].
  - intros [Hq|Hb].
    + rewrite Hq. reflexivity.
    + rewrite Hb, orb_true_r. reflexivity.
  - intros Hq Hb Hs. apply truthy_nonempty in Hq. rewrite Hq, Hb. cbn [negb orb].
    destruct slug as [s|]; [|reflexivity].
    simpl in Hs. rewrite Hs. reflexivity.
  - intros s out w' Hq Hb -> Hs Hsend Hend.
    apply truthy_nonempty in Hq, Hs. rewrite Hq, Hb, Hs. cbn [negb orb].
    unfold try_catch, bind. rewrite Hsend.
    destruct out as [[code [m|data]]|m|]; [| | |congruence].
    + destruct (res_ok (mkReply code (NoJson m))); cbn [negb reply_json];
        eexists; (split; [unfold ret, throw; now rewrite <- app_assoc|]);
        reflexivity.
    + destruct (res_ok (mkReply code (Json data))) eqn:Hok; cbn [negb andb].
      * cbn [reply_json]. destruct (is_null data); cbn [negb];
          eexists; (split; [unfold ret, throw; now rewrite <- app_assoc|]);
          reflexivity.
      * eexists. split; [unfold ret, throw; now rewrite <- app_assoc|].
        reflexivity.
    + eexists. split; [unfold ret; now rewrite <- app_assoc|]. reflexivity.
  - intros s Hq Hb -> Hs.
    destruct (widget_request Hq Hs) as [Rm [Rs Rd]].
    apply truthy_nonempty in Hq, Hs. rewrite Hq, Hb, Hs. cbn [negb orb].
    unfold try_catch, bind.
    destruct (handler_response v env
                (Chat.mkRequest (ask_chat s (question textOverride st))
                                None None None None) w)
      as [r [w' [H [[H4 [_ Hwhy]]|[[H5 _]|[[_ [Hd _]]|[H2 [t Ht]]]]]]]].
    + exfalso. destruct Hwhy as [Hw|[_ Hw]]; congruence.
    + rewrite (served_run (chat_route v env) _ _ H).
      rewrite (res_ok_not _ (or_intror (or_intror H5))). cbn [negb].
      exists r, w'. eexists. split; [exact H|]. unfold throw, ret.
      rewrite <- app_assoc. split; [reflexivity|]. right. auto.
    + congruence.
    + rewrite (served_run (chat_route v env) _ _ H).
      rewrite (res_ok_200 _ H2). cbn [negb reply_json].
      assert (Hnn : is_null (body r) = false)
        by (destruct (body r); try reflexivity; discriminate).
      rewrite Hnn, Ht. cbn [json_or].
      exists r, w', (JStr t). split; [exact H|]. unfold ret.
      rewrite <- app_assoc. split; [reflexivity|]. left. eauto.
Qed.

Lemma demo_widget_shows_the_answer_witness :
  exists r w' a,
    chat_route Soft (Sample.env [] [] None Sample.one_strong)
               (ask_chat (lit "demo") (lit "Hours?")) Sample.empty_world
    = (Ok r, w')
    /\ demo_send (served (chat_route Soft
                            (Sample.env [] [] None Sample.one_strong)))
                 (fun _ => lit "data is null")
                 (Some (lit "demo")) None
                 (mkWidget (lit "  Hours? ") [] false) Sample.empty_world
       = (Ok (mkWidget []
                [mkMessage user (JStr (lit "Hours?")); mkMessage assistant a]
                false), w').
Proof.
  destruct (proj2 (proj2 (proj2 (demo_widget_shows_the_answer
              (fun _ => throw []) (fun _ => lit "data is null") Soft
              (Sample.env [] [] None Sample.one_strong) (Some (lit "demo")) None
              (mkWidget (lit "  Hours? ") [] false) Sample.empty_world)))
              (lit "demo")) as [r [w' [a [H1 [H2 _]]]]];
    try reflexivity; try discriminate.
  exists r, w', a. split; [exact H1 | exact H2].
Defined.

(** X28. The embedded widget. A question that is blank once trimmed, or asked
    while another one is being sent, changes nothing and calls nothing.
    Else the widget sends the trimmed question with the slug, and when the
    transport ends it clears the input and adds the question and one
    answer: its message for a technical error when [fetch] rejects or
    when the body is no JSON; else the [text] of the body when that is a
    string, and its apology when it is not, whatever the status is.
    Behind a transport that loses nothing the answer is the [text] of the
    response when the status is 200, and the apology for every other
    response; the message for a technical error is not shown then. *)
Theorem embed_widget_shows_the_answer (send : Transport) v env slug
        textOverride st w :
  (question textOverride st = [] \/ isSending st = true ->
   embed_send send slug textOverride st w = (Ok st, w))
  /\ (forall out w',
        question textOverride st <> [] -> isSending st = false ->
        send (ask_chat slug (question textOverride st)) w = (out, w') ->
        out <> Diverge ->
        exists a,
          embed_send send slug textOverride st w
          = (Ok (mkWidget []
                   (messages st
                    ++ [mkMessage user (JStr (question textOverride st));
                        mkMessage assistant a])
                   false), w')
          /\ match out with
             | Ok (mkReply _ (Json data)) =>
                 match field "text" data with
                 | Some (JStr t) => a = JStr t
                 | _ => a = JStr embed_apology
                 end
             | _ => a = JStr embed_failure
             end)
  /\ (question textOverride st <> [] -> isSending st = false ->
      exists r w' a,
        chat_route v env (ask_chat slug (question textOverride st)) w = (Ok r, w')
        /\ embed_send (served (chat_route v env)) slug textOverride st w
           = (Ok (mkWidget []
                    (messages st
                     ++ [mkMessage user (JStr (question textOverride st));
                         mkMessage assistant a])
                    false), w')
        /\ ((status r = 200%nat
             /\ exists t, a = JStr t
                          /\ field "text" (body r) = Some (JStr t))
            \/ (status r <> 200%nat /\ a = JStr embed_apology))).
Proof.
  unfold embed_send. cbv zeta. split; [|split].
  - intros [Hq|Hb].
    + rewrite Hq. reflexivity.
    + rewrite Hb, orb_true_r. reflexivity.
  - intros out w' Hq Hb Hsend Hend.
    apply truthy_nonempty in Hq. rewrite Hq, Hb. cbn [negb orb].
    unfold try_catch, bind. rewrite Hsend.
    destruct out as [[code [m|data]]|m|]; [| | |congruence].
    + eexists. split; [unfold ret, throw; now rewrite <- app_assoc|].
      reflexivity.
    + cbn [reply_json]. eexists.
      split; [unfold ret; now rewrite <- app_assoc|].
      destruct (field "text" data) as [[| | |t| |]|]; reflexivity.
    + eexists. split; [unfold ret; now rewrite <- app_assoc|]. reflexivity.
  - intros Hq Hb.
    apply truthy_nonempty in Hq. rewrite Hq, Hb. cbn [negb orb].
    unfold try_catch, bind.
    destruct (handler_response v env
                (Chat.mkRequest (ask_chat slug (question textOverride st))
                                None None None None) w)
      as [r [w' [H [[H4 [Hf _]]|[[H5 Hf]|[[_ [Hd _]]|[H2 [t Ht]]]]]]]].
    + rewrite (served_run (chat_route v env) _ _ H). cbn [reply_json].
      rewrite Hf. exists r, w'. eexists. split; [exact H|]. unfold ret.
      rewrite <- app_assoc. split; [reflexivity|]. right.
      split; [congruence | reflexivity].
    + rewrite (served_run (chat_route v env) _ _ H). cbn [reply_json].
      rewrite Hf. exists r, w'. eexists. split; [exact H|]. unfold ret.
      rewrite <- app_assoc. split; [reflexivity|]. right.
      split; [congruence | reflexivity].
    + discriminate.
    + rewrite (served_run (chat_route v env) _ _ H). cbn [reply_json].
      rewrite Ht. exists r, w', (JStr t). split; [exact H|]. unfold ret.
      rewrite <- app_assoc. split; [reflexivity|]. left. eauto.
Qed.

Lemma embed_widget_shows_the_answer_witness :
  exists r w' a,
    chat_route Soft (Sample.env [] [] None Sample.one_strong)
               (ask_chat (lit "demo") (lit "Hours?")) Sample.empty_world
    = (Ok r, w')
    /\ embed_send (served (chat_route Soft
                             (Sample.env [] [] None Sample.one_strong)))
                  (lit "demo") None
                  (mkWidget (lit "  Hours? ") [] false) Sample.empty_world
       = (Ok (mkWidget []
                [mkMessage user (JStr (lit "Hours?")); mkMessage assistant a]
                false), w')
    /\ a = JStr (lit "Mo-Fr 9-5").
Proof.
  destruct (proj2 (proj2 (embed_widget_shows_the_answer
              (fun _ => throw []) Soft
              (Sample.env [] [] None Sample.one_strong) (lit "demo") None
              (mkWidget (lit "  Hours? ") [] false) Sample.empty_world)))
    as [r [w' [a [H1 [H2 H3]]]]];
    try reflexivity; try discriminate.
  exists r, w', a. split; [exact H1|]. split; [exact H2|].
  assert (E := H1). vm_compute in E. inversion E; subst r w'.
  destruct H3 as [[_ [t [-> Ht]]]|[Hne _]];
    [vm_compute in Ht; now inversion Ht | exfalso; now apply Hne].
Defined.

End PageFacts.
